(** * VMT material documents: parsing, smart merge and serialization

    A shallow embedding of the VMT handling code of
    [VTF-Material-Tool-Integrated/vtf_material_tool_pyside6.py]:
    the single-material thread ([L4D2ProcessingThread]), the batch thread
    ([L4D2BatchProcessingThread]) and the older merge of the L4D2 tab
    ([merge_vmt_files]).

    Conventions of the embedding
    - a Python [str] is a [string]; its characters are the code points
      below 256, which is where [lower] and [strip] are modelled exactly;
    - a Python [dict] is an association list in insertion order: writing
      an existing key replaces the value in place, a new key is appended;
    - a Python [set] of names is a list used through [set_mem] only;
    - [progress.emit] and [log] calls only report text and are left out;
    - [open(...).read()] is a lookup in a file system [string -> option
      string]; [None] stands for every exception the call can raise. *)

From Stdlib Require Import Strings.String Strings.Ascii Lists.List.
From Stdlib Require Import Bool.Bool Arith.PeanoNat ZArith.ZArith micromega.Lia.
Import ListNotations.

Open Scope string_scope.
Open Scope bool_scope.

(** ** Python string primitives *)

Definition dquote : ascii := "034"%char.
Definition newline : ascii := "010"%char.
Definition tab : ascii := "009"%char.
Definition lbrace : ascii := "{"%char.
Definition rbrace : ascii := "}"%char.

(** A one-character string. *)
Definition chr (c : ascii) : string := String c EmptyString.

(** [str.isspace] on one character. *)
Definition is_space (c : ascii) : bool :=
  let n := nat_of_ascii c in
  (((9 <=? n) && (n <=? 13)) || ((28 <=? n) && (n <=? 32))
   || (n =? 133) || (n =? 160))%nat.

(** [str.lower] on one character: A-Z and the upper-case letters of the
    Latin-1 block move up by 32. *)
Definition lower_char (c : ascii) : ascii :=
  let n := nat_of_ascii c in
  if (((65 <=? n) && (n <=? 90))
      || ((192 <=? n) && (n <=? 222) && negb (n =? 215)))%nat
  then ascii_of_nat (n + 32) else c.

(** [s.lower()] *)
Fixpoint lower (s : string) : string :=
  match s with
  | EmptyString => EmptyString
  | String c s' => String (lower_char c) (lower s')
  end.

(** [s.startswith(p)] *)
Fixpoint startswith (p s : string) : bool :=
  match p with
  | EmptyString => true
  | String a p' =>
      match s with
      | EmptyString => false
      | String b s' => Ascii.eqb a b && startswith p' s'
      end
  end.

(** [sub in s] *)
Fixpoint contains (sub s : string) : bool :=
  startswith sub s ||
  match s with
  | EmptyString => false
  | String _ s' => contains sub s'
  end.

(** [c in s] for a single character. *)
Fixpoint has_char (c : ascii) (s : string) : bool :=
  match s with
  | EmptyString => false
  | String a s' => Ascii.eqb a c || has_char c s'
  end.

(** [s.count(c)] for a single character. *)
Fixpoint count_char (c : ascii) (s : string) : Z :=
  match s with
  | EmptyString => 0%Z
  | String a s' =>
      ((if Ascii.eqb a c then 1 else 0) + count_char c s')%Z
  end.

(** [s[n:]] *)
Fixpoint drop (n : nat) (s : string) : string :=
  match n, s with
  | O, _ => s
  | S _, EmptyString => EmptyString
  | S n', String _ s' => drop n' s'
  end.

(** [s.lstrip()] *)
Fixpoint lstrip (s : string) : string :=
  match s with
  | EmptyString => EmptyString
  | String c s' => if is_space c then lstrip s' else s
  end.

(** [s.rstrip()] *)
Fixpoint rstrip (s : string) : string :=
  match s with
  | EmptyString => EmptyString
  | String c s' =>
      match rstrip s' with
      | EmptyString => if is_space c then EmptyString else chr c
      | r => String c r
      end
  end.

(** [s.strip()] *)
Definition strip (s : string) : string := rstrip (lstrip s).

(** [s[:len(s) - len(s.lstrip())]], the leading white space of [s]. *)
Fixpoint leading_space (s : string) : string :=
  match s with
  | EmptyString => EmptyString
  | String c s' => if is_space c then String c (leading_space s') else EmptyString
  end.

(** [s.endswith(c)] for a single character. *)
Fixpoint ends_with_char (c : ascii) (s : string) : bool :=
  match s with
  | EmptyString => false
  | String a EmptyString => Ascii.eqb a c
  | String _ s' => ends_with_char c s'
  end.

(** [s.split(c)] for a one-character separator; the result is never
    empty. *)
Fixpoint split_on (c : ascii) (s : string) : list string :=
  match s with
  | EmptyString => [EmptyString]
  | String a s' =>
      if Ascii.eqb a c then EmptyString :: split_on c s'
      else match split_on c s' with
           | [] => [chr a]
           | h :: t => String a h :: t
           end
  end.

(** [sep.join(parts)] for a one-character separator. *)
Fixpoint join (sep : ascii) (parts : list string) : string :=
  match parts with
  | [] => EmptyString
  | [p] => p
  | p :: rest => p ++ String sep (join sep rest)
  end.

(** Truthiness of a string: [if s:]. *)
Definition truthy (s : string) : bool :=
  match s with EmptyString => false | _ => true end.

(** A word between double quotes, as the f-strings of the source write
    it. *)
Definition quoted (s : string) : string := String dquote (s ++ chr dquote).

(** ** Python dict and set *)

Definition dict : Type := list (string * string).

(** [k in d] *)
Fixpoint dict_mem (k : string) (d : dict) : bool :=
  match d with
  | [] => false
  | (k', _) :: t => String.eqb k' k || dict_mem k t
  end.

(** [d.get(k)] *)
Fixpoint dict_get (k : string) (d : dict) : option string :=
  match d with
  | [] => None
  | (k', v) :: t => if String.eqb k' k then Some v else dict_get k t
  end.

(** [d[k] = v] *)
Fixpoint dict_set (k v : string) (d : dict) : dict :=
  match d with
  | [] => [(k, v)]
  | (k', v') :: t =>
      if String.eqb k' k then (k', v) :: t else (k', v') :: dict_set k v t
  end.

(** [del d[k]] for a key that is present. *)
Fixpoint dict_del (k : string) (d : dict) : dict :=
  match d with
  | [] => []
  | (k', v') :: t =>
      if String.eqb k' k then t else (k', v') :: dict_del k t
  end.

(** [d.update(other)] *)
Definition dict_update (d other : dict) : dict :=
  fold_left (fun acc kv => dict_set (fst kv) (snd kv) acc) other d.

Definition str_set : Type := list string.

(** [x in s] *)
Definition set_mem (x : string) (s : str_set) : bool :=
  existsb (String.eqb x) s.

(** [s.add(x)] *)
Definition set_add (x : string) (s : str_set) : str_set :=
  if set_mem x s then s else x :: s.

(** The invariant of every dict: no key occurs twice. *)
Definition dict_wf (d : dict) : Prop := NoDup (map fst d).

(** A loop body that leaves the dict alone or writes the entry at hand:
    the shape of every merge loop below. *)
Definition writes_only (f : dict -> string * string -> dict) : Prop :=
  forall m kv, f m kv = m \/ f m kv = dict_set (fst kv) (snd kv) m.

(** Two keys that differ at most in case. *)
Definition same_key_ci (a b : string) : bool := String.eqb (lower a) (lower b).

(** Executable test: some two entries of [d] have keys equal up to case. *)
Fixpoint has_ci_duplicate (d : dict) : bool :=
  match d with
  | [] => false
  | (k, _) :: t =>
      existsb (fun kv => same_key_ci k (fst kv)) t || has_ci_duplicate t
  end.

(** ** One parameter line

    [parts = line.split(dquote)]; [parts[1]] is the name and [parts[3]]
    the value when there are at least four parts. *)

(** [_parse_vmt_line]: [(None, None)] of the source is [None] here. *)
Definition _parse_vmt_line (line : string) : option (string * string) :=
  let parts := split_on dquote line in
  if (4 <=? List.length parts)%nat
  then Some (nth 1 parts EmptyString, nth 3 parts EmptyString)
  else None.

(** The test [line.startswith(dquote $) and dquote in line[2:]]. *)
Definition is_param_line (line : string) : bool :=
  startswith (String dquote "$") line && has_char dquote (drop 2 line).

(** The shared loop body of [parse_standard_vmt], [parse_vmt_parameters]
    and the standard branch of [parse_batch_vmt_params]. *)
Definition standard_line (params : dict) (raw : string) : dict :=
  let line := strip raw in
  if is_param_line line then
    match _parse_vmt_line line with
    | Some (param_name, param_value) => dict_set param_name param_value params
    | None => params
    end
  else params.

(** ** The L4D2 tab: [merge_vmt_files] and its helpers *)

(** [parse_vmt_parameters] *)
Definition parse_vmt_parameters (vmt_content : string) : dict :=
  fold_left standard_line (split_on newline vmt_content) [].

(** The body lines that every serializer of the file writes. *)
Definition param_lines (params : dict) : list string :=
  map (fun kv => String tab (quoted (fst kv)) ++ String tab (String tab (quoted (snd kv))))
      params.

(** [generate_vmt_from_params] *)
Definition generate_vmt_from_params (params : dict) : string :=
  join newline ([quoted "VertexLitGeneric"; "{"] ++ param_lines params ++ ["}"]).

(** The fixed [pbr_params] of [merge_vmt_files]. *)
Definition merge_pbr_params : str_set :=
  [ "$basetexture"; "$bumpmap"; "$phong"; "$phongexponent";
    "$phongexponenttexture"; "$phongboost"; "$phongfresnelranges";
    "$envmap"; "$envmaptint"; "$envmapcontrast"; "$normalmapalphaenvmapmask";
    "$envmapfresnel"; "$phongalbedotint"; "$halflambert"; "$model";
    "$surfaceprop" ].

(** The merge loop of [merge_vmt_files] on parsed parameters. *)
Definition merge_vmt_params (original_params generated_params : dict) : dict :=
  fold_left
    (fun merged_params kv =>
       if set_mem (lower (fst kv)) merge_pbr_params
       then dict_set (fst kv) (snd kv) merged_params
       else merged_params)
    generated_params original_params.

(** [merge_vmt_files]; [fs] is the file system. *)
Definition merge_vmt_files (fs : string -> option string)
    (original_vmt_path generated_vmt_content : string) : string :=
  match fs original_vmt_path with
  | Some original_content =>
      generate_vmt_from_params
        (merge_vmt_params (parse_vmt_parameters original_content)
                          (parse_vmt_parameters generated_vmt_content))
  | None => generated_vmt_content
  end.

(** ** The single-material thread [L4D2ProcessingThread] *)

Record L4D2ProcessingThread : Type := {
  material_name : string;
  existing_vmt_path : string
}.

(** [parse_standard_vmt] *)
Definition parse_standard_vmt (vmt_content : string) : dict :=
  fold_left standard_line (split_on newline vmt_content) [].

(** One iteration of the replace or the insert loop of [parse_patch_vmt];
    [kw] is the block keyword, the state is [(in_block, params)]. *)
Definition patch_block_line (kw : string) (st : bool * dict) (raw : string)
  : bool * dict :=
  let '(in_block, params) := st in
  let line := strip raw in
  if contains kw (lower line) && has_char lbrace line then (true, params)
  else if in_block && has_char rbrace line then (false, params)
  else if in_block && startswith (String dquote "$") line then
    match _parse_vmt_line line with
    | Some (param_name, param_value) =>
        (in_block, dict_set param_name param_value params)
    | None => (in_block, params)
    end
  else (in_block, params).

(** [parse_patch_vmt]. The include path it finds is only reported, the
    file is not read; the replace loop runs before the insert loop. *)
Definition parse_patch_vmt (vmt_content : string) : dict :=
  let lines := split_on newline vmt_content in
  let replaced := snd (fold_left (patch_block_line "replace") lines (false, [])) in
  snd (fold_left (patch_block_line "insert") lines (false, replaced)).

(** The format test of [parse_vmt_params]. *)
Definition looks_like_patch (vmt_content : string) : bool :=
  contains "patch" (lower vmt_content) && contains "include" (lower vmt_content).

(** [parse_vmt_params] *)
Definition parse_vmt_params (vmt_content : string) : dict :=
  if looks_like_patch vmt_content
  then parse_patch_vmt vmt_content
  else parse_standard_vmt vmt_content.

(** [build_vmt_from_params] *)
Definition build_vmt_from_params (params : dict) : string :=
  join newline ([quoted "VertexLitGeneric"; "{"] ++ param_lines params ++ ["}"]).

Definition pbr_semantic_keywords : list string :=
  [ "phong"; "envmap"; "bump"; "normal"; "metallic"; "roughness";
    "basetexture"; "albedo"; "specular"; "reflection" ].

Definition common_pbr_params : str_set :=
  [ "$model"; "$surfaceprop"; "$halflambert"; "$phongfresnelranges";
    "$phongboost"; "$phongalbedotint"; "$envmapfresnel"; "$envmapcontrast";
    "$envmaptint"; "$normalmapalphaenvmapmask" ].

(** Steps 1 and 2 of [identify_pbr_parameters]: names whose value
    mentions the material. *)
Definition add_texture_refs (material_base_name : string) (params : dict)
    (pbr_params : str_set) : str_set :=
  fold_left
    (fun acc kv =>
       if contains (lower material_base_name) (lower (snd kv))
       then set_add (lower (fst kv)) acc else acc)
    params pbr_params.

(** Step 3: names that contain a keyword. *)
Definition add_semantic (keywords : list string) (params : dict)
    (pbr_params : str_set) : str_set :=
  fold_left
    (fun acc kv =>
       if existsb (fun keyword => contains keyword (lower (fst kv))) keywords
       then set_add (lower (fst kv)) acc else acc)
    params pbr_params.

(** Step 4: the common rendering parameters. *)
Definition add_common (params : dict) (pbr_params : str_set) : str_set :=
  fold_left
    (fun acc kv =>
       if set_mem (lower (fst kv)) common_pbr_params
       then set_add (lower (fst kv)) acc else acc)
    params pbr_params.

(** [identify_pbr_parameters] *)
Definition identify_pbr_parameters (self : L4D2ProcessingThread)
    (existing_params generated_params : dict) : str_set :=
  let material_base_name := material_name self in
  let s1 := add_texture_refs material_base_name existing_params [] in
  let s2 := add_texture_refs material_base_name generated_params s1 in
  let s3 := add_semantic pbr_semantic_keywords generated_params s2 in
  add_common generated_params s3.

(** The merge loop of [smart_merge_vmt] on parsed parameters. *)
Definition smart_merge_params (self : L4D2ProcessingThread)
    (existing_params generated_params : dict) : dict :=
  let pbr_related_params :=
    identify_pbr_parameters self existing_params generated_params in
  fold_left
    (fun merged_params kv =>
       let param := fst kv in
       let value := snd kv in
       if set_mem (lower param) pbr_related_params
       then dict_set param value merged_params
       else if negb (dict_mem param existing_params)
       then dict_set param value merged_params
       else merged_params)
    generated_params existing_params.

(** The [try] block of [smart_merge_vmt]: [None] when it raises. *)
Definition smart_merge_vmt_try (self : L4D2ProcessingThread)
    (fs : string -> option string) (generated_vmt : string) : option string :=
  match fs (existing_vmt_path self) with
  | Some existing_content =>
      let existing_params := parse_vmt_params existing_content in
      let generated_params := parse_vmt_params generated_vmt in
      Some (build_vmt_from_params
              (smart_merge_params self existing_params generated_params))
  | None => None
  end.

(** [smart_merge_vmt]: the [except] branch returns the generated text. *)
Definition smart_merge_vmt (self : L4D2ProcessingThread)
    (fs : string -> option string) (generated_vmt : string) : string :=
  match smart_merge_vmt_try self fs generated_vmt with
  | Some merged_vmt => merged_vmt
  | None => generated_vmt
  end.

(** ** The batch thread [L4D2BatchProcessingThread] *)

(** Of the attributes of the thread the VMT methods read only
    [patch_format_checkbox], through [hasattr] and [isChecked]:
    [None] is an object without the attribute, [Some b] one whose check
    box answers [b]. *)
Record L4D2BatchProcessingThread : Type := {
  patch_format_checkbox : option bool
}.

(** [__init__] assigns [vmt_files], [output_dir], [processed_count] and
    [failed_count]; the check box of the window is never handed over. *)
Definition L4D2BatchProcessingThread_init : L4D2BatchProcessingThread :=
  {| patch_format_checkbox := None |}.

(** [hasattr(self, 'patch_format_checkbox') and
    self.patch_format_checkbox.isChecked()] *)
Definition patch_format_enabled (self : L4D2BatchProcessingThread) : bool :=
  match patch_format_checkbox self with
  | Some checked => checked
  | None => false
  end.

(** Text after the first [c] of [s], when there is one. *)
Fixpoint after_char (c : ascii) (s : string) : option string :=
  match s with
  | EmptyString => None
  | String a s' => if Ascii.eqb a c then Some s' else after_char c s'
  end.

(** Text before the first [c] of [s], when there is one. *)
Fixpoint before_char (c : ascii) (s : string) : option string :=
  match s with
  | EmptyString => None
  | String a s' =>
      if Ascii.eqb a c then Some EmptyString
      else option_map (String a) (before_char c s')
  end.

(** [_extract_quoted_value]: the text between the first two quotes. *)
Definition _extract_quoted_value (line : string) : string :=
  match after_char dquote line with
  | Some rest =>
      match before_char dquote rest with
      | Some value => value
      | None => EmptyString
      end
  | None => EmptyString
  end.

Definition is_section_word (w : string) : bool :=
  String.eqb w "insert" || String.eqb w "replace".

(** State of the loop of [parse_patch_vmt_params]. *)
Record patch_scan : Type := {
  ps_params : dict;
  ps_section : option string;
  ps_level : Z
}.

Definition section_is (name : string) (sec : option string) : bool :=
  match sec with
  | Some s => String.eqb s name
  | None => false
  end.

Definition is_some {A : Type} (o : option A) : bool :=
  match o with Some _ => true | None => false end.

(** One iteration of the loop of [parse_patch_vmt_params]; [load] is
    [self._load_include_file] with the base directory of this call. *)
Definition patch_params_line (load : string -> dict) (st : patch_scan)
    (raw : string) : patch_scan :=
  let line := strip raw in
  if negb (truthy line) || startswith "//" line then st
  else
    let level1 := (ps_level st + count_char lbrace line)%Z in
    if has_char rbrace line then
      let level2 := (level1 - count_char rbrace line)%Z in
      {| ps_params := ps_params st;
         ps_section := if (level2 <=? 1)%Z && is_some (ps_section st)
                       then None else ps_section st;
         ps_level := level2 |}
    else if startswith "patch" (lower line) && (level1 =? 0)%Z then
      {| ps_params := ps_params st; ps_section := ps_section st;
         ps_level := level1 |}
    else if startswith "include" line && has_char dquote line then
      let include_path := _extract_quoted_value line in
      {| ps_params := if truthy include_path
                      then dict_update (ps_params st) (load include_path)
                      else ps_params st;
         ps_section := ps_section st;
         ps_level := level1 |}
    else if is_section_word (lower line) then
      {| ps_params := ps_params st; ps_section := Some (lower line);
         ps_level := level1 |}
    else if is_some (ps_section st) && is_param_line line then
      match _parse_vmt_line line with
      | Some (param_name, param_value) =>
          {| ps_params :=
               if truthy param_name && truthy param_value then
                 if section_is "replace" (ps_section st)
                    || negb (dict_mem param_name (ps_params st))
                 then dict_set param_name param_value (ps_params st)
                 else ps_params st
               else ps_params st;
             ps_section := ps_section st;
             ps_level := level1 |}
      | None =>
          {| ps_params := ps_params st; ps_section := ps_section st;
             ps_level := level1 |}
      end
    else
      {| ps_params := ps_params st; ps_section := ps_section st;
         ps_level := level1 |}.

Definition patch_scan_init : patch_scan :=
  {| ps_params := []; ps_section := None; ps_level := 0%Z |}.

(** The loop of [parse_patch_vmt_params] given the loader. *)
Definition parse_patch_with (load : string -> string -> dict)
    (vmt_content base_dir : string) : dict :=
  ps_params
    (fold_left (patch_params_line (fun include_path => load include_path base_dir))
               (split_on newline vmt_content) patch_scan_init).

(** The test of [parse_batch_vmt_params] and [smart_merge_batch_vmt] on
    the text. *)
Definition patch_or_include (vmt_content : string) : bool :=
  startswith "patch" (lower (strip vmt_content))
  || contains "include" (lower vmt_content).

Section FileSystem.

(** The file system read by [open], and [pathlib]: [path_of s] is
    [str(Path(s))], [path_join a b] is [str(Path(a) / b)] and
    [path_parent s] is [str(Path(s).parent)]. A file that does not
    exist or cannot be read is [None]: both leave the loader with its
    empty dict. *)
Variable fs : string -> option string.
Variable path_of : string -> string.
Variable path_join : string -> string -> string.
Variable path_parent : string -> string.

Variable self : L4D2BatchProcessingThread.

(** [parse_batch_vmt_params] given the loader. *)
Definition parse_batch_with (load : string -> string -> dict)
    (vmt_content vmt_file_path : string) : dict :=
  if patch_format_enabled self && patch_or_include vmt_content then
    let base_dir :=
      if truthy vmt_file_path then path_parent vmt_file_path else EmptyString in
    parse_patch_with load vmt_content base_dir
  else fold_left standard_line (split_on newline vmt_content) [].

(** [_load_include_file]. It and the two parsers call each other;
    [depth] is the number of nested includes still allowed before the
    interpreter raises its recursion error, which the [except] of the
    loader turns into the empty dict. *)
Fixpoint _load_include_file (depth : nat) (include_path base_dir : string)
  : dict :=
  match depth with
  | O => []
  | S depth' =>
      let full_path :=
        if truthy base_dir then path_join base_dir include_path
        else path_of include_path in
      match fs full_path with
      | Some content =>
          if startswith "patch" (strip content)
          then parse_patch_with (_load_include_file depth') content
                                (path_parent full_path)
          else parse_batch_with (_load_include_file depth') content full_path
      | None => []
      end
  end.

(** [parse_patch_vmt_params] *)
Definition parse_patch_vmt_params (depth : nat)
    (vmt_content base_dir : string) : dict :=
  parse_patch_with (_load_include_file depth) vmt_content base_dir.

(** [parse_batch_vmt_params] *)
Definition parse_batch_vmt_params (depth : nat)
    (vmt_content vmt_file_path : string) : dict :=
  parse_batch_with (_load_include_file depth) vmt_content vmt_file_path.

End FileSystem.

(** State of the loop of [_build_patch_vmt]. *)
Record patch_build : Type := {
  pb_level : Z;
  pb_section : option string;
  pb_in_replace : bool;
  pb_merged : dict;
  pb_lines : list string
}.

(** One iteration of the loop of [_build_patch_vmt]. *)
Definition build_patch_line (st : patch_build) (line : string) : patch_build :=
  let stripped := strip line in
  let level1 := (pb_level st + count_char lbrace line)%Z in
  let level2 :=
    if has_char rbrace line then (level1 - count_char rbrace line)%Z else level1 in
  let closes :=
    has_char rbrace line && (level2 <=? 1)%Z && is_some (pb_section st) in
  let section1 := if closes then None else pb_section st in
  let in_replace1 := if closes then false else pb_in_replace st in
  if is_section_word (lower stripped) then
    {| pb_level := level2;
       pb_section := Some (lower stripped);
       pb_in_replace := String.eqb (lower stripped) "replace";
       pb_merged := pb_merged st;
       pb_lines := (pb_lines st ++ [line])%list |}
  else
    let keep :=
      {| pb_level := level2; pb_section := section1;
         pb_in_replace := in_replace1; pb_merged := pb_merged st;
         pb_lines := (pb_lines st ++ [line])%list |} in
    if is_some section1 && is_param_line stripped && (1 <? level2)%Z then
      match _parse_vmt_line stripped with
      | Some (param_name, _) =>
          match dict_get param_name (pb_merged st) with
          | Some merged_value =>
              if truthy param_name then
                {| pb_level := level2; pb_section := section1;
                   pb_in_replace := in_replace1;
                   pb_merged := dict_del param_name (pb_merged st);
                   pb_lines :=
                     (pb_lines st ++
                      [(leading_space line ++ quoted param_name
                        ++ String tab (String tab (quoted merged_value)))%string])%list |}
              else keep
          | None => keep
          end
      | None => keep
      end
    else keep.

(** Index of the last element of [l] that satisfies [p]. *)
Fixpoint last_index {A : Type} (p : A -> bool) (l : list A) : option nat :=
  match l with
  | [] => None
  | x :: t =>
      match last_index p t with
      | Some i => Some (S i)
      | None => if p x then Some O else None
      end
  end.

(** The lines that [_build_patch_vmt] adds for the parameters left. *)
Definition new_param_lines (params : dict) : list string :=
  map (fun kv => String tab (String tab (quoted (fst kv)))
                 ++ String tab (String tab (quoted (snd kv))))
      params.

(** [_build_patch_vmt] *)
Definition _build_patch_vmt (original_content : string) (merged_params : dict)
  : string :=
  let st :=
    fold_left build_patch_line (split_on newline original_content)
      {| pb_level := 0%Z; pb_section := None; pb_in_replace := false;
         pb_merged := merged_params; pb_lines := [] |} in
  let result_lines :=
    match pb_merged st with
    | [] => pb_lines st
    | _ :: _ =>
        if pb_in_replace st then
          match last_index (fun l => ends_with_char rbrace (strip l)) (pb_lines st) with
          | Some insert_index =>
              (firstn insert_index (pb_lines st)
               ++ new_param_lines (pb_merged st)
               ++ skipn insert_index (pb_lines st))%list
          | None => pb_lines st
          end
        else pb_lines st
    end in
  join newline result_lines.

Definition batch_pbr_keywords : list string :=
  [ "phong"; "envmap"; "bump"; "basetexture"; "normal" ].

(** The merge loop of [smart_merge_batch_vmt] on parsed parameters. *)
Definition smart_merge_batch_params (material_name : string)
    (existing_params generated_params : dict) : dict :=
  let pbr_params :=
    add_semantic batch_pbr_keywords generated_params
      (add_texture_refs material_name existing_params []) in
  fold_left
    (fun merged_params kv =>
       if set_mem (lower (fst kv)) pbr_params
          || negb (dict_mem (fst kv) existing_params)
       then dict_set (fst kv) (snd kv) merged_params
       else merged_params)
    generated_params existing_params.

Section BatchMerge.

Variable fs : string -> option string.
Variable path_of : string -> string.
Variable path_join : string -> string -> string.
Variable path_parent : string -> string.
Variable self : L4D2BatchProcessingThread.
Variable depth : nat.

(** [smart_merge_batch_vmt] *)
Definition smart_merge_batch_vmt
    (existing_content generated_vmt material_name vmt_file_path : string)
  : string :=
  let parse := parse_batch_vmt_params fs path_of path_join path_parent self depth in
  let existing_params := parse existing_content vmt_file_path in
  let generated_params := parse generated_vmt EmptyString in
  let is_patch_format :=
    patch_format_enabled self && patch_or_include existing_content in
  let merged_params :=
    smart_merge_batch_params material_name existing_params generated_params in
  if is_patch_format
  then _build_patch_vmt existing_content merged_params
  else join newline ([quoted "VertexLitGeneric"; "{"]
                     ++ param_lines merged_params ++ ["}"])%list.

End BatchMerge.

(** ** Sample documents *)

(** The lines of a document joined by newlines. *)
Definition text_of (lines : list string) : string := join newline lines.

(** A parameter line in the layout of a hand-written file. *)
Definition kv_line (key value : string) : string :=
  String tab (quoted key) ++ " " ++ quoted value.

(** A file system with exactly one file. *)
Definition one_file (path content : string) : string -> option string :=
  fun p => if String.eqb p path then Some content else None.

(** [pathlib] on relative names without dots: joining puts a slash
    between the parts. *)
Definition simple_join (a b : string) : string := a ++ "/" ++ b.

(** The names that [identify_pbr_parameters] takes for generated whatever
    their value: step 3 (a keyword inside the name) and step 4 (the
    common rendering parameters). *)
Definition known_derived_key (k : string) : bool :=
  existsb (fun keyword => contains keyword (lower k)) pbr_semantic_keywords
  || set_mem (lower k) common_pbr_params.

(** Some entry of [d] has a key equal to [k] up to case. *)
Definition dict_mem_ci (k : string) (d : dict) : bool :=
  existsb (fun kv => same_key_ci k (fst kv)) d.

(** Scenario A: a hand-written Standard document and a generated one. *)
Definition scenario_A_existing : dict :=
  [("$basetexture", "old/path"); ("$surfaceprop", "metal")].

Definition scenario_A_generated : dict :=
  [("$basetexture", "new/path"); ("$phong", "1")].

Definition scenario_A_merged : dict :=
  [("$basetexture", "new/path"); ("$surfaceprop", "metal"); ("$phong", "1")].

Definition standard_text (params : dict) : string :=
  text_of ([quoted "VertexLitGeneric"; "{"]
           ++ map (fun kv => kv_line (fst kv) (snd kv)) params ++ ["}"]).


(** [n] tab characters. *)
Fixpoint tabs (n : nat) : string :=
  match n with
  | O => EmptyString
  | S n' => String tab (tabs n')
  end.

(** The f-string of [generate_l4d2_vmt] and of
    [generate_l4d2_vmt_with_materials_detection]; [material_path] is the
    material name, with its directory below [materials] in the second
    function. *)
Definition l4d2_vmt_template (material_path : string) : string :=
  text_of
    [ quoted "VertexLitGeneric";
      "{";
      tabs 1 ++ "$basetexture" ++ tabs 2 ++ quoted (material_path ++ "_basecolor");
      tabs 1 ++ "$bumpmap" ++ tabs 3 ++ quoted (material_path ++ "_bump");
      EmptyString;
      tabs 1 ++ "$envmap" ++ tabs 5 ++ quoted "env_cubemap";
      tabs 1 ++ "$envmaptint" ++ tabs 4 ++ quoted "[0.1 0.1 0.1]";
      tabs 1 ++ "$envmapcontrast" ++ tabs 3 ++ "1.0";
      tabs 1 ++ "$envmapmask" ++ tabs 4 ++ quoted (material_path ++ "_envmask");
      tabs 1 ++ "$envmapfresnel" ++ tabs 3 ++ "1";
      EmptyString;
      tabs 1 ++ "$phong 1";
      tabs 1 ++ "$phongexponenttexture" ++ tabs 1 ++ quoted (material_path ++ "_phongexp");
      tabs 1 ++ "$phongexponentfactor" ++ tabs 1 ++ "32.0";
      tabs 1 ++ "$phongboost" ++ tabs 4 ++ "5.0";
      tabs 1 ++ "$phongfresnelranges" ++ tabs 2 ++ quoted "[0.1 0.8 1.0]";
      "}" ].

(** [generate_l4d2_vmt] *)
Definition generate_l4d2_vmt (self : L4D2ProcessingThread) : string :=
  l4d2_vmt_template (material_name self).

(** A thread for the material [mat] with its file [mat.vmt]. *)
Definition mat_thread : L4D2ProcessingThread :=
  {| material_name := "mat"; existing_vmt_path := "mat.vmt" |}.

(** A word that can stand between quotes on one line. *)
Definition plain (s : string) : bool :=
  negb (has_char dquote s) && negb (has_char newline s).

(** The dicts that the line format can carry: every name starts with a
    dollar sign, and no name or value holds a quote or a line break. *)
Definition serializable (params : dict) : bool :=
  forallb (fun kv => startswith "$" (fst kv) && plain (fst kv) && plain (snd kv))
          params.

(** A Patch document in the usual layout: every keyword and every brace
    on a line of its own. *)
Definition patch_text (include_path : string) (insert replace : dict) : string :=
  text_of
    (["patch"; "{";
      tabs 1 ++ "include " ++ quoted include_path;
      tabs 1 ++ "insert"; tabs 1 ++ "{"]
     ++ map (fun kv => String tab (kv_line (fst kv) (snd kv))) insert
     ++ [tabs 1 ++ "}"; tabs 1 ++ "replace"; tabs 1 ++ "{"]
     ++ map (fun kv => String tab (kv_line (fst kv) (snd kv))) replace
     ++ [tabs 1 ++ "}"; "}"]).

(** The same document with the opening brace on the line of the
    keyword, the layout in which [parse_patch_vmt] finds the blocks. *)
Definition patch_text_inline (include_path : string) (insert replace : dict)
  : string :=
  text_of
    (["patch"; "{";
      tabs 1 ++ "include " ++ quoted include_path;
      tabs 1 ++ "insert {"]
     ++ map (fun kv => String tab (kv_line (fst kv) (snd kv))) insert
     ++ [tabs 1 ++ "}"; tabs 1 ++ "replace {"]
     ++ map (fun kv => String tab (kv_line (fst kv) (snd kv))) replace
     ++ [tabs 1 ++ "}"; "}"]).

(** Scenario B: the existing Patch document and what is generated. *)
Definition scenario_B_include : string := "materials/x/shader/vmt-base.vmt".

Definition scenario_B_existing : string :=
  patch_text scenario_B_include [] [("$basetexture", "x/old")].

Definition scenario_B_existing_inline : string :=
  patch_text_inline scenario_B_include [] [("$basetexture", "x/old")].

Definition scenario_B_generated : string :=
  standard_text [("$basetexture", "x/new")].

Definition scenario_B_generated_inline : string :=
  patch_text_inline scenario_B_include [] [("$basetexture", "x/new")].

(** A batch thread whose check box is present and checked. *)
Definition patch_thread : L4D2BatchProcessingThread :=
  {| patch_format_checkbox := Some true |}.

(** Scenario B as [_build_patch_vmt] writes it: the lines of the
    existing document with the parameter line rewritten. *)
Definition scenario_B_patch_out : string :=
  text_of
    ["patch"; "{";
     tabs 1 ++ "include " ++ quoted scenario_B_include;
     tabs 1 ++ "insert"; tabs 1 ++ "{"; tabs 1 ++ "}";
     tabs 1 ++ "replace"; tabs 1 ++ "{";
     tabs 2 ++ quoted "$basetexture" ++ tabs 2 ++ quoted "x/new";
     tabs 1 ++ "}"; "}"].

(** A base document for include lines, and a Patch document on it. *)
Definition base_text (texture : string) : string :=
  standard_text [("$basetexture", texture); ("$surfaceprop", "metal")].

Definition layered_text : string :=
  patch_text "base.vmt"
    [("$surfaceprop", "flesh"); ("$detail", "detail/noise")]
    [("$basetexture", "x/new")].

Definition same_path (p : string) : string := p.

(** ** Generators and writers around the merge *)

(** A parameter line of the templates: a tab, the quoted name, [n] tabs
    and the quoted value. *)
Definition tab_line (key : string) (n : nat) (value : string) : string :=
  String tab (quoted key) ++ tabs n ++ quoted value.

(** [generate_l4d2_vmt_with_materials_detection]; [detected] is the pair
    that [detect_materials_directory] returns for the output directory. *)
Definition generate_l4d2_vmt_with_materials_detection
    (self : L4D2ProcessingThread) (detected : bool * string) : string :=
  let '(is_in_materials, relative_path) := detected in
  let material_path :=
    if is_in_materials && truthy relative_path
    then relative_path ++ "/" ++ material_name self
    else material_name self in
  l4d2_vmt_template material_path.

(** The VMT step of [L4D2ProcessingThread.run]: the text that is written
    to the output file. A thread without an existing file has the empty
    path, which is as false as [None]. *)
Definition run_vmt_content (self : L4D2ProcessingThread)
    (fs : string -> option string) (detected : bool * string) : string :=
  let vmt_content := generate_l4d2_vmt_with_materials_detection self detected in
  if truthy (existing_vmt_path self)
  then smart_merge_vmt self fs vmt_content
  else vmt_content.

(** The f-string shared by [generate_batch_l4d2_vmt] and
    [generate_batch_l4d2_vmt_with_materials_detection]. *)
Definition batch_l4d2_template
    (basetexture_path normal_path phongexponent_path : string) : string :=
  text_of
    [ quoted "VertexLitGeneric";
      "{";
      kv_line "$basetexture" basetexture_path;
      kv_line "$bumpmap" normal_path;
      tabs 1;
      kv_line "$envmap" "env_cubemap";
      kv_line "$envmaptint" "[0.1 0.1 0.1]";
      kv_line "$envmapcontrast" "1.0";
      kv_line "$normalmapalphaenvmapmask" "1";
      kv_line "$envmapfresnel" "1";
      tabs 1;
      kv_line "$phong" "1";
      kv_line "$phongexponenttexture" phongexponent_path;
      kv_line "$phongboost" "5.0";
      kv_line "$phongfresnelranges" "[0.1 0.8 1.0]";
      kv_line "$phongalbedotint" "1";
      kv_line "$halflambert" "1";
      tabs 1;
      kv_line "$model" "1";
      kv_line "$surfaceprop" "default";
      "}" ].

(** [generate_batch_l4d2_vmt_with_materials_detection]; [materials_prefix]
    is what [detect_batch_materials_directory] returns for the output
    path. *)
Definition generate_batch_l4d2_vmt_with_materials_detection
    (material_name materials_prefix : string) : string :=
  batch_l4d2_template
    (materials_prefix ++ material_name ++ "_basetexture")
    (materials_prefix ++ material_name ++ "_normal")
    (materials_prefix ++ material_name ++ "_phongexponent").

(** [generate_batch_l4d2_vmt] *)
Definition generate_batch_l4d2_vmt (material_name : string) : string :=
  batch_l4d2_template
    (material_name ++ "_basetexture")
    (material_name ++ "_normal")
    (material_name ++ "_phongexponent").

(** The parameters that the batch template spells out. *)
Definition batch_l4d2_params
    (basetexture_path normal_path phongexponent_path : string) : dict :=
  [ ("$basetexture", basetexture_path);
    ("$bumpmap", normal_path);
    ("$envmap", "env_cubemap");
    ("$envmaptint", "[0.1 0.1 0.1]");
    ("$envmapcontrast", "1.0");
    ("$normalmapalphaenvmapmask", "1");
    ("$envmapfresnel", "1");
    ("$phong", "1");
    ("$phongexponenttexture", phongexponent_path);
    ("$phongboost", "5.0");
    ("$phongfresnelranges", "[0.1 0.8 1.0]");
    ("$phongalbedotint", "1");
    ("$halflambert", "1");
    ("$model", "1");
    ("$surfaceprop", "default") ].

(** ** The night-glow thread [NightglowProcessingThread] *)

(** The [emissive_config] list of [generate_standard_vmt_with_emissive]. *)
Definition emissive_config (materials_path base_name : string) : list string :=
  [ tab_line "$selfillum" 4 "0";
    tab_line "$EmissiveBlendEnabled" 2 "1";
    tab_line "$EmissiveBlendStrength" 2 "0.05";
    tab_line "$EmissiveBlendTexture" 2 "vgui/white";
    tab_line "$EmissiveBlendBaseTexture" 1 (materials_path ++ "/" ++ base_name ++ "_E");
    tab_line "$EmissiveBlendFlowTexture" 1 "vgui/white";
    tab_line "$EmissiveBlendTint" 3 "[ 1 1 1 ]";
    tab_line "$EmissiveBlendScrollVector" 1 "[ 0 0 ]" ].

(** The parameters that [emissive_config] spells out. *)
Definition emissive_params (materials_path base_name : string) : dict :=
  [ ("$selfillum", "0");
    ("$EmissiveBlendEnabled", "1");
    ("$EmissiveBlendStrength", "0.05");
    ("$EmissiveBlendTexture", "vgui/white");
    ("$EmissiveBlendBaseTexture", materials_path ++ "/" ++ base_name ++ "_E");
    ("$EmissiveBlendFlowTexture", "vgui/white");
    ("$EmissiveBlendTint", "[ 1 1 1 ]");
    ("$EmissiveBlendScrollVector", "[ 0 0 ]") ].

(** The test of the backward search of
    [generate_standard_vmt_with_emissive]: a line that is not blank, is
    no closing brace and no comment. *)
Definition significant_line (raw : string) : bool :=
  let line := strip raw in
  truthy line && negb (startswith "}" line) && negb (startswith "//" line).

(** [generate_standard_vmt_with_emissive]: the text written to the
    output file, or [None] when [insert_index] stays negative and no
    file is written. *)
Definition generate_standard_vmt_with_emissive
    (existing_content materials_path base_name : string) : option string :=
  let lines := split_on newline existing_content in
  match last_index significant_line lines with
  | Some i =>
      let insert_index := S i in
      Some (join newline
              (firstn insert_index lines
               ++ emissive_config materials_path base_name
               ++ skipn insert_index lines))
  | None => None
  end.

(** [create_new_patch_vmt]: the text written to the output file. *)
Definition create_new_patch_vmt (materials_path base_name : string) : string :=
  let include_path := "materials/" ++ materials_path ++ "/shader/vmt-base.vmt" in
  text_of
    [ "patch";
      "{";
      tabs 1 ++ "include" ++ tabs 2 ++ quoted include_path;
      tabs 1 ++ "insert";
      tabs 1 ++ "{";
      tab_line "$EmissiveBlendEnabled" 6 "1";
      tab_line "$EmissiveBlendStrength" 6 "0.05";
      tab_line "$EmissiveBlendTexture" 6 "vgui/white";
      tab_line "$EmissiveBlendBaseTexture" 4 (materials_path ++ "/" ++ base_name ++ "_E");
      tab_line "$EmissiveBlendFlowTexture" 5 "vgui/white";
      tab_line "$EmissiveBlendTint" 7 "[ 1 1 1 ]";
      tab_line "$EmissiveBlendScrollVector" 5 "[ 0 0 ]";
      tabs 1 ++ "}";
      tabs 1 ++ "replace";
      tabs 1 ++ "{";
      tab_line "$basetexture" 6 (materials_path ++ "/" ++ base_name);
      tab_line "$selfillum" 6 "0";
      tabs 1 ++ "}";
      "}" ].

(** ** [_build_patch_vmt], line by line *)

(** The [result_lines] of [_build_patch_vmt] before they are joined. *)
Definition build_patch_result_lines (original_content : string)
    (merged_params : dict) : list string :=
  let st :=
    fold_left build_patch_line (split_on newline original_content)
      {| pb_level := 0%Z; pb_section := None; pb_in_replace := false;
         pb_merged := merged_params; pb_lines := [] |} in
  match pb_merged st with
  | [] => pb_lines st
  | _ :: _ =>
      if pb_in_replace st then
        match last_index (fun l => ends_with_char rbrace (strip l)) (pb_lines st) with
        | Some insert_index =>
            (firstn insert_index (pb_lines st)
             ++ new_param_lines (pb_merged st)
             ++ skipn insert_index (pb_lines st))%list
        | None => pb_lines st
        end
      else pb_lines st
  end.

(** The names of a list of entries, each at its first place only. *)
Fixpoint first_names (seen : list string) (l : dict) : list string :=
  match l with
  | [] => []
  | (k, _) :: t =>
      if existsb (String.eqb k) seen then first_names seen t
      else k :: first_names (k :: seen) t
  end.

(** ** Black lists and file-name similarity *)

(** [NightglowProcessingThread.is_blacklisted] *)
Definition is_blacklisted (filename : string) (preset_blacklist : list string)
    (custom_blacklist : string) : bool :=
  if existsb (fun word => contains (lower word) (lower filename)) preset_blacklist
  then true
  else if truthy custom_blacklist then
    let custom_words :=
      map strip
          (filter (fun word => truthy (strip word)) (split_on "," custom_blacklist)) in
    existsb (fun word => contains (lower word) (lower filename)) custom_words
  else false.

(** [s.endswith(suffix)] *)
Definition endswith (suffix s : string) : bool :=
  (String.length suffix <=? String.length s)%nat
  && String.eqb (drop (String.length s - String.length suffix) s) suffix.

(** [s[:n]] *)
Fixpoint take (n : nat) (s : string) : string :=
  match n, s with
  | O, _ => EmptyString
  | S _, EmptyString => EmptyString
  | S n', String c s' => String c (take n' s')
  end.

Definition suffixes_to_remove : list string :=
  [ "_d"; "_n"; "_normal"; "_norm"; "_diffuse"; "_diff" ].

(** The first steps of [calculate_filename_similarity] on one name: lower
    case, then every listed suffix is cut off in turn when the name ends
    with it. *)
Definition normalize_name (name : string) : string :=
  fold_left
    (fun n suffix =>
       if endswith suffix n
       then take (String.length n - String.length suffix) n
       else n)
    suffixes_to_remove (lower name).

(** One row of the table of [lcs_length], filled from left to right:
    [diag] is the entry above the previous column, [prev_rest] the
    entries above this column and the next ones, [left] the entry just
    written. *)
Fixpoint row_fill (c : ascii) (s2 : list ascii) (diag : nat)
    (prev_rest : list nat) (left : nat) : list nat :=
  match s2, prev_rest with
  | b :: s2', up :: prev' =>
      let v := if Ascii.eqb c b then diag + 1 else Nat.max up left in
      v :: row_fill c s2' up prev' v
  | _, _ => []
  end.

(** Row [i] of the table from row [i - 1]; column 0 stays 0. *)
Definition next_row (s2 : list ascii) (prev : list nat) (c : ascii) : list nat :=
  match prev with
  | [] => []
  | d :: rest => 0 :: row_fill c s2 d rest 0
  end.

(** [lcs_length], the function inside [calculate_filename_similarity]:
    the table is built row by row from a row of zeros and the result is
    its last entry [dp[m][n]]. *)
Definition lcs_length (s1 s2 : string) : nat :=
  let l1 := list_ascii_of_string s1 in
  let l2 := list_ascii_of_string s2 in
  last (fold_left (next_row l2) l1 (repeat 0 (S (List.length l2)))) 0.

(** Every entry of a row of the table is at most the smaller of its two
    indices; [j] is the column of the first entry of the list. *)
Fixpoint row_bounded (i j : nat) (row : list nat) : Prop :=
  match row with
  | [] => True
  | v :: t => v <= Nat.min i j /\ row_bounded i (S j) t
  end.

(** Every entry of a row is the smaller of its two indices: the table
    of a text against itself. *)
Fixpoint row_exact (i j : nat) (row : list nat) : Prop :=
  match row with
  | [] => True
  | v :: t => v = Nat.min i j /\ row_exact i (S j) t
  end.

(** The test shared by the two smart merges: a lower-cased name is
    overwritten when an existing entry with that name, up to case, has a
    value that mentions the material, or when a test [fixed] that does
    not look at the existing dict says so. *)
Definition ref_or_fixed (lname : string) (fixed : string -> bool)
    (existing : dict) (x : string) : bool :=
  existsb (fun kv => contains lname (lower (snd kv))
                     && String.eqb x (lower (fst kv))) existing
  || fixed x.

(** The merge loop of the two smart merges over that test. *)
Definition merge_with (lname : string) (fixed : string -> bool)
    (existing generated : dict) : dict :=
  fold_left
    (fun m kv =>
       if ref_or_fixed lname fixed existing (lower (fst kv))
          || negb (dict_mem (fst kv) existing)
       then dict_set (fst kv) (snd kv) m else m)
    generated existing.

(** ** Patch documents with any number of blocks *)

(** One block of a Patch document in the usual layout: the keyword and
    each brace on a line of their own, one parameter on each line
    between the braces. *)
Definition block_lines (section : string) (params : dict) : list string :=
  [tabs 1 ++ section; tabs 1 ++ "{"]
  ++ map (fun kv => String tab (kv_line (fst kv) (snd kv))) params
  ++ [tabs 1 ++ "}"].

(** A Patch document in the usual layout: the include line, then insert
    and replace blocks in any number and order. *)
Definition patch_document (include_path : string)
    (blocks : list (string * dict)) : string :=
  text_of
    (["patch"; "{"; tabs 1 ++ "include " ++ quoted include_path]
     ++ flat_map (fun b => block_lines (fst b) (snd b)) blocks
     ++ ["}"]).

Definition brace_free (s : string) : bool :=
  negb (has_char lbrace s) && negb (has_char rbrace s).

(** The blocks that [patch_document] lays out as intended: the keyword
    is insert or replace, and the names and values can be written on a
    parameter line and hold no brace. *)
Definition block_ok (b : string * dict) : bool :=
  is_section_word (fst b)
  && serializable (snd b)
  && forallb (fun kv => brace_free (fst kv) && brace_free (snd kv)) (snd b).

(** The priority of the two sections on one parameter, as a rule on
    dicts: a parameter of a replace section is bound whatever was bound
    before, a parameter of an insert section only when its name is not
    bound yet; a parameter with an empty value binds nothing. *)
Definition flatten_param (section : string) (params : dict)
    (kv : string * string) : dict :=
  if truthy (snd kv) then
    if String.eqb section "replace" then dict_set (fst kv) (snd kv) params
    else if dict_mem (fst kv) params then params
    else (params ++ [kv])%list
  else params.

Definition flatten_block (params : dict) (b : string * dict) : dict :=
  fold_left (flatten_param (fst b)) (snd b) params.

Definition flatten_blocks (base : dict) (blocks : list (string * dict)) : dict :=
  fold_left flatten_block blocks base.

(** * Properties *)

(** Splits every hypothesis that is a true conjunction of tests. *)
Ltac andb_hyps :=
  repeat match goal with
         | H : (_ && _) = true |- _ =>
             apply andb_true_iff in H; destruct H
         end.

(** ** The string primitives on small inputs *)

Example strip_example :
  strip (String tab (" a b " ++ chr newline)) = "a b".
Proof. reflexivity. Qed.

Example split_on_example :
  split_on dquote (quoted "$envmap" ++ " " ++ quoted EmptyString)
  = [EmptyString; "$envmap"; " "; EmptyString; EmptyString].
Proof. reflexivity. Qed.

Example lower_example : lower "$BaseTexture" = "$basetexture".
Proof. reflexivity. Qed.

Example contains_example :
  contains "mat" "models/mat_basecolor" = true /\ contains "mat" "custom/tex" = false.
Proof. split; reflexivity. Qed.

Example dict_set_example :
  dict_set "$a" "2" [("$a", "1"); ("$b", "1")] = [("$a", "2"); ("$b", "1")]
  /\ dict_set "$c" "2" [("$a", "1"); ("$b", "1")]
     = [("$a", "1"); ("$b", "1"); ("$c", "2")].
Proof. split; reflexivity. Qed.

Example parse_standard_vmt_example :
  parse_standard_vmt (standard_text scenario_A_existing) = scenario_A_existing.
Proof. reflexivity. Qed.

(** ** Dicts *)

Lemma dict_mem_In (k : string) (d : dict) :
  dict_mem k d = true <-> In k (map fst d).
Proof.
  induction d as [|[k' v'] t IH]; simpl.
  - split; [discriminate | tauto].
  - rewrite orb_true_iff, String.eqb_eq, IH. tauto.
Qed.

Lemma dict_mem_false_In (k : string) (d : dict) :
  dict_mem k d = false <-> ~ In k (map fst d).
Proof.
  rewrite <- dict_mem_In. destruct (dict_mem k d); split; congruence.
Qed.

Lemma dict_get_mem (k : string) (d : dict) :
  dict_mem k d = is_some (dict_get k d).
Proof.
  induction d as [|[k' v'] t IH]; simpl; [reflexivity|].
  destruct (String.eqb k' k); simpl; auto.
Qed.

Lemma dict_set_keys (k v : string) (d : dict) :
  map fst (dict_set k v d)
  = if dict_mem k d then map fst d else (map fst d ++ [k])%list.
Proof.
  induction d as [|[k' v'] t IH]; simpl; [reflexivity|].
  destruct (String.eqb k' k) eqn:E; simpl; [reflexivity|].
  rewrite IH. destruct (dict_mem k t); reflexivity.
Qed.

Lemma dict_set_wf (k v : string) (d : dict) :
  dict_wf d -> dict_wf (dict_set k v d).
Proof.
  unfold dict_wf. intros H. rewrite dict_set_keys.
  destruct (dict_mem k d) eqn:E; [assumption|].
  apply dict_mem_false_In in E.
  apply NoDup_app; [assumption | repeat constructor; simpl; tauto |].
  intros x Hx [<-|[]]. contradiction.
Qed.

Lemma dict_wf_nil : dict_wf [].
Proof. constructor. Qed.

Create HintDb vmt.
#[global] Hint Resolve dict_wf_nil dict_set_wf : vmt.

Lemma dict_get_set_same (k v : string) (d : dict) :
  dict_get k (dict_set k v d) = Some v.
Proof.
  induction d as [|[k' v'] t IH]; simpl.
  - now rewrite String.eqb_refl.
  - destruct (String.eqb k' k) eqn:E; simpl; rewrite E; auto.
Qed.

Lemma dict_get_set_other (k k' v : string) (d : dict) :
  k <> k' -> dict_get k' (dict_set k v d) = dict_get k' d.
Proof.
  intros Hne. induction d as [|[k0 v0] t IH]; simpl.
  - destruct (String.eqb k k') eqn:E; [|reflexivity].
    apply String.eqb_eq in E. contradiction.
  - destruct (String.eqb k0 k) eqn:E; simpl.
    + apply String.eqb_eq in E. subst k0.
      destruct (String.eqb k k') eqn:E'; [|reflexivity].
      apply String.eqb_eq in E'. contradiction.
    + rewrite IH. reflexivity.
Qed.

Lemma dict_set_id (k v : string) (d : dict) :
  dict_get k d = Some v -> dict_set k v d = d.
Proof.
  induction d as [|[k' v'] t IH]; simpl; [discriminate|].
  destruct (String.eqb k' k) eqn:E; intros H.
  - congruence.
  - now rewrite IH.
Qed.

Lemma dict_set_new (k v : string) (d : dict) :
  dict_mem k d = false -> dict_set k v d = (d ++ [(k, v)])%list.
Proof.
  induction d as [|[k' v'] t IH]; simpl; [reflexivity|].
  destruct (String.eqb k' k); simpl; [discriminate|].
  intros H. now rewrite IH.
Qed.

Lemma dict_wf_get (k v : string) (d : dict) :
  dict_wf d -> In (k, v) d -> dict_get k d = Some v.
Proof.
  unfold dict_wf. induction d as [|[k' v'] t IH]; simpl; [tauto|].
  intros Hnd [Heq|Hin].
  - inversion Heq; subst. now rewrite String.eqb_refl.
  - inversion Hnd as [|? ? Hnotin Hnd']; subst.
    destruct (String.eqb k' k) eqn:E.
    + apply String.eqb_eq in E. subst k'. exfalso. apply Hnotin.
      change k with (fst (k, v)). now apply in_map.
    + auto.
Qed.

Lemma dict_get_In (k v : string) (d : dict) :
  dict_get k d = Some v -> In (k, v) d.
Proof.
  induction d as [|[k' v'] t IH]; simpl; [discriminate|].
  destruct (String.eqb k' k) eqn:E.
  - apply String.eqb_eq in E. intros [= <-]. subst. now left.
  - auto.
Qed.

Lemma fold_writes_wf f (l m : dict) :
  writes_only f -> dict_wf m -> dict_wf (fold_left f l m).
Proof.
  intros Hf. revert m. induction l as [|kv t IH]; simpl; intros m Hm; [assumption|].
  apply IH. destruct (Hf m kv) as [->| ->]; [assumption | now apply dict_set_wf].
Qed.

Lemma fold_writes_fixed f (l m : dict) :
  writes_only f ->
  (forall k v, In (k, v) l -> dict_get k m = Some v) ->
  fold_left f l m = m.
Proof.
  intros Hf. induction l as [|[k v] t IH]; simpl; intros Hl; [reflexivity|].
  assert (E : f m (k, v) = m).
  { destruct (Hf m (k, v)) as [->| ->]; [reflexivity|].
    apply dict_set_id. apply Hl. now left. }
  rewrite E. apply IH. intros k' v' Hin. apply Hl. now right.
Qed.

Lemma fold_writes_other f (l m : dict) (k : string) :
  writes_only f -> ~ In k (map fst l) ->
  dict_get k (fold_left f l m) = dict_get k m.
Proof.
  intros Hf. revert m. induction l as [|[k' v'] t IH]; simpl; intros m Hk; [reflexivity|].
  rewrite IH by tauto.
  destruct (Hf m (k', v')) as [->| ->]; [reflexivity|].
  apply dict_get_set_other. simpl. tauto.
Qed.

Lemma fold_writes_new f (l m : dict) (k v : string) :
  writes_only f -> dict_wf l -> In (k, v) l ->
  (forall m', f m' (k, v) = dict_set k v m') ->
  dict_get k (fold_left f l m) = Some v.
Proof.
  intros Hf Hwf Hin Hset. revert m.
  induction l as [|[k' v'] t IH]; simpl; intros m; [destruct Hin|].
  unfold dict_wf in Hwf. simpl in Hwf. inversion Hwf as [|? ? Hnotin Hnd]; subst.
  destruct Hin as [Heq|Hin].
  - inversion Heq; subst. rewrite fold_writes_other by assumption.
    rewrite Hset. apply dict_get_set_same.
  - now apply IH.
Qed.

Lemma fold_writes_all (l m : dict) :
  dict_wf (m ++ l)%list ->
  fold_left (fun acc kv => dict_set (fst kv) (snd kv) acc) l m = (m ++ l)%list.
Proof.
  revert m. induction l as [|[k v] t IH]; simpl; intros m Hwf.
  - now rewrite app_nil_r.
  - assert (Hnew : dict_mem k m = false).
    { apply dict_mem_false_In. unfold dict_wf in Hwf.
      rewrite map_app in Hwf. simpl in Hwf.
      apply NoDup_remove_2 in Hwf. intros Hk. apply Hwf.
      apply in_or_app. now left. }
    rewrite (dict_set_new _ _ _ Hnew).
    replace (m ++ (k, v) :: t)%list with ((m ++ [(k, v)]) ++ t)%list
      by (rewrite <- app_assoc; reflexivity).
    apply IH. rewrite <- app_assoc. exact Hwf.
Qed.

(** Membership in a set built by a loop of conditional [add]s. *)
Lemma set_mem_add (x y : string) (s : str_set) :
  set_mem x (set_add y s) = String.eqb x y || set_mem x s.
Proof.
  unfold set_add. destruct (set_mem y s) eqn:E; simpl; [|reflexivity].
  destruct (String.eqb x y) eqn:Exy; simpl; [|reflexivity].
  apply String.eqb_eq in Exy. now subst.
Qed.

Lemma set_mem_fold_add (c : string * string -> bool) (l : dict)
    (s : str_set) (x : string) :
  set_mem x
    (fold_left (fun acc kv => if c kv then set_add (lower (fst kv)) acc else acc) l s)
  = set_mem x s
    || existsb (fun kv => c kv && String.eqb x (lower (fst kv))) l.
Proof.
  revert s. induction l as [|kv t IH]; simpl; intros s.
  - now rewrite orb_false_r.
  - rewrite IH. destruct (c kv); simpl; [|reflexivity].
    rewrite set_mem_add.
    destruct (String.eqb x (lower (fst kv))), (set_mem x s); reflexivity.
Qed.

(** ** The merge loops write entries of the generated dict *)

Lemma smart_merge_writes (pbr : str_set) (existing_params : dict) :
  writes_only
    (fun merged_params kv =>
       if set_mem (lower (fst kv)) pbr
       then dict_set (fst kv) (snd kv) merged_params
       else if negb (dict_mem (fst kv) existing_params)
       then dict_set (fst kv) (snd kv) merged_params
       else merged_params).
Proof.
  intros m kv.
  destruct (set_mem (lower (fst kv)) pbr); [now right|].
  destruct (negb (dict_mem (fst kv) existing_params)); [now right | now left].
Qed.

Lemma merge_vmt_writes :
  writes_only
    (fun merged_params kv =>
       if set_mem (lower (fst kv)) merge_pbr_params
       then dict_set (fst kv) (snd kv) merged_params
       else merged_params).
Proof.
  intros m kv.
  destruct (set_mem (lower (fst kv)) merge_pbr_params); [now right | now left].
Qed.

Lemma batch_merge_writes (pbr : str_set) (existing_params : dict) :
  writes_only
    (fun merged_params kv =>
       if set_mem (lower (fst kv)) pbr
          || negb (dict_mem (fst kv) existing_params)
       then dict_set (fst kv) (snd kv) merged_params
       else merged_params).
Proof.
  intros m kv.
  destruct (set_mem (lower (fst kv)) pbr || negb (dict_mem (fst kv) existing_params));
    [now right | now left].
Qed.

(** ** Parsers return dicts *)

Lemma standard_line_wf (params : dict) (raw : string) :
  dict_wf params -> dict_wf (standard_line params raw).
Proof.
  intros H. unfold standard_line.
  destruct (is_param_line (strip raw)); [|assumption].
  destruct (_parse_vmt_line (strip raw)) as [[n v]|]; auto with vmt.
Qed.

Lemma fold_standard_wf (lines : list string) (params : dict) :
  dict_wf params -> dict_wf (fold_left standard_line lines params).
Proof.
  revert params. induction lines as [|l t IH]; simpl; intros params H; [assumption|].
  apply IH. now apply standard_line_wf.
Qed.

Lemma parse_standard_vmt_wf (vmt_content : string) :
  dict_wf (parse_standard_vmt vmt_content).
Proof. apply fold_standard_wf, dict_wf_nil. Qed.

Lemma parse_vmt_parameters_wf (vmt_content : string) :
  dict_wf (parse_vmt_parameters vmt_content).
Proof. apply fold_standard_wf, dict_wf_nil. Qed.

Lemma patch_block_line_wf (kw : string) (st : bool * dict) (raw : string) :
  dict_wf (snd st) -> dict_wf (snd (patch_block_line kw st raw)).
Proof.
  destruct st as [b params]. unfold patch_block_line. cbn [snd]. intros H.
  destruct (contains kw (lower (strip raw)) && has_char lbrace (strip raw)); [assumption|].
  destruct (b && has_char rbrace (strip raw)); [assumption|].
  destruct (b && startswith (String dquote "$") (strip raw)); [|assumption].
  destruct (_parse_vmt_line (strip raw)) as [[n v]|]; cbn [snd]; [|assumption].
  now apply dict_set_wf.
Qed.

Lemma fold_patch_block_wf (kw : string) (lines : list string) (st : bool * dict) :
  dict_wf (snd st) -> dict_wf (snd (fold_left (patch_block_line kw) lines st)).
Proof.
  revert st. induction lines as [|l t IH]; simpl; intros st H; [assumption|].
  apply IH. now apply patch_block_line_wf.
Qed.

Lemma parse_patch_vmt_wf (vmt_content : string) :
  dict_wf (parse_patch_vmt vmt_content).
Proof.
  unfold parse_patch_vmt. apply fold_patch_block_wf, fold_patch_block_wf.
  apply dict_wf_nil.
Qed.

Lemma parse_vmt_params_wf (vmt_content : string) :
  dict_wf (parse_vmt_params vmt_content).
Proof.
  unfold parse_vmt_params. destruct (looks_like_patch vmt_content).
  - apply parse_patch_vmt_wf.
  - apply parse_standard_vmt_wf.
Qed.

(** ** Merging a document with itself *)

Lemma smart_merge_params_self (self : L4D2ProcessingThread) (d : dict) :
  dict_wf d -> smart_merge_params self d d = d.
Proof.
  intros H. unfold smart_merge_params.
  apply fold_writes_fixed; [apply smart_merge_writes|].
  intros k v. now apply dict_wf_get.
Qed.

Lemma merge_vmt_params_self (d : dict) :
  dict_wf d -> merge_vmt_params d d = d.
Proof.
  intros H. unfold merge_vmt_params.
  apply fold_writes_fixed; [apply merge_vmt_writes|].
  intros k v. now apply dict_wf_get.
Qed.

(** C1. Merging a document with itself, as the existing file and as the
    generated text, gives back the parameters of the document: the merged
    dict of [smart_merge_vmt] is the parsed dict of the text, whatever the
    material name, and so is that of [merge_vmt_files]; the text written
    is that dict serialized. *)
Theorem idempotent_merge (self : L4D2ProcessingThread) (d : string) :
  smart_merge_params self (parse_vmt_params d) (parse_vmt_params d)
  = parse_vmt_params d
  /\ merge_vmt_params (parse_vmt_parameters d) (parse_vmt_parameters d)
     = parse_vmt_parameters d
  /\ smart_merge_vmt self (one_file (existing_vmt_path self) d) d
     = build_vmt_from_params (parse_vmt_params d)
  /\ merge_vmt_files (one_file (existing_vmt_path self) d) (existing_vmt_path self) d
     = generate_vmt_from_params (parse_vmt_parameters d).
Proof.
  assert (H1 := smart_merge_params_self self _ (parse_vmt_params_wf d)).
  assert (H2 := merge_vmt_params_self _ (parse_vmt_parameters_wf d)).
  repeat split; try assumption.
  - unfold smart_merge_vmt, smart_merge_vmt_try, one_file.
    rewrite String.eqb_refl, H1. reflexivity.
  - unfold merge_vmt_files, one_file.
    rewrite String.eqb_refl, H2. reflexivity.
Qed.

(** ** What [identify_pbr_parameters] collects *)

Lemma identify_pbr_mem (self : L4D2ProcessingThread)
    (existing_params generated_params : dict) (x : string) :
  set_mem x (identify_pbr_parameters self existing_params generated_params)
  = existsb (fun kv => contains (lower (material_name self)) (lower (snd kv))
                       && String.eqb x (lower (fst kv))) existing_params
    || existsb (fun kv => contains (lower (material_name self)) (lower (snd kv))
                          && String.eqb x (lower (fst kv))) generated_params
    || existsb (fun kv => existsb (fun keyword => contains keyword (lower (fst kv)))
                                  pbr_semantic_keywords
                          && String.eqb x (lower (fst kv))) generated_params
    || existsb (fun kv => set_mem (lower (fst kv)) common_pbr_params
                          && String.eqb x (lower (fst kv))) generated_params.
Proof.
  unfold identify_pbr_parameters, add_common, add_semantic, add_texture_refs.
  rewrite (set_mem_fold_add
             (fun kv => set_mem (lower (fst kv)) common_pbr_params)).
  rewrite (set_mem_fold_add
             (fun kv => existsb (fun keyword => contains keyword (lower (fst kv)))
                                pbr_semantic_keywords)).
  rewrite (set_mem_fold_add
             (fun kv => contains (lower (material_name self)) (lower (snd kv)))).
  rewrite (set_mem_fold_add
             (fun kv => contains (lower (material_name self)) (lower (snd kv)))).
  reflexivity.
Qed.

Lemma existsb_false {A : Type} (f : A -> bool) (l : list A) :
  (forall x, In x l -> f x = false) -> existsb f l = false.
Proof.
  induction l as [|a t IH]; simpl; intros H; [reflexivity|].
  rewrite (H a) by now left. apply IH. intros x Hx. apply H. now right.
Qed.

Lemma existsb_true {A : Type} (f : A -> bool) (l : list A) (x : A) :
  In x l -> f x = true -> existsb f l = true.
Proof.
  intros Hin Hf. apply existsb_exists. now exists x.
Qed.

Lemma known_derived_in_pbr (self : L4D2ProcessingThread)
    (existing_params generated_params : dict) (k v : string) :
  In (k, v) generated_params -> known_derived_key k = true ->
  set_mem (lower k) (identify_pbr_parameters self existing_params generated_params)
  = true.
Proof.
  intros Hin Hk. rewrite identify_pbr_mem.
  unfold known_derived_key in Hk. apply orb_true_iff in Hk.
  destruct Hk as [Hk|Hk].
  - rewrite (existsb_true
               (fun kv => existsb (fun keyword => contains keyword (lower (fst kv)))
                                  pbr_semantic_keywords
                          && String.eqb (lower k) (lower (fst kv)))
               generated_params (k, v) Hin).
    + now rewrite orb_true_r.
    + cbn [fst]. now rewrite Hk, String.eqb_refl.
  - rewrite (existsb_true
               (fun kv => set_mem (lower (fst kv)) common_pbr_params
                          && String.eqb (lower k) (lower (fst kv)))
               generated_params (k, v) Hin).
    + now rewrite orb_true_r.
    + cbn [fst]. now rewrite Hk, String.eqb_refl.
Qed.

(** C5. Scenario A: the derived key [$basetexture] is overwritten in
    place, the custom key [$surfaceprop] keeps its place and value, the
    new key [$phong] is appended; this holds for every material name,
    on the dicts and on the texts that [smart_merge_vmt] reads and
    writes. *)
Theorem scenario_A (self : L4D2ProcessingThread) :
  smart_merge_params self scenario_A_existing scenario_A_generated
  = scenario_A_merged
  /\ smart_merge_vmt self
       (one_file (existing_vmt_path self) (standard_text scenario_A_existing))
       (standard_text scenario_A_generated)
     = build_vmt_from_params scenario_A_merged.
Proof.
  assert (H : smart_merge_params self scenario_A_existing scenario_A_generated
              = scenario_A_merged).
  { unfold smart_merge_params.
    assert (Hb := known_derived_in_pbr self scenario_A_existing scenario_A_generated
                    "$basetexture" "new/path" (or_introl eq_refl) eq_refl).
    assert (Hp := known_derived_in_pbr self scenario_A_existing scenario_A_generated
                    "$phong" "1" (or_intror (or_introl eq_refl)) eq_refl).
    remember (identify_pbr_parameters self scenario_A_existing scenario_A_generated)
      as pbr eqn:Epbr.
    change (lower "$basetexture") with "$basetexture" in Hb.
    change (lower "$phong") with "$phong" in Hp.
    unfold scenario_A_generated at 1. cbn [fold_left fst snd].
    change (lower "$basetexture") with "$basetexture".
    change (lower "$phong") with "$phong".
    rewrite Hb, Hp. reflexivity. }
  split; [exact H|].
  unfold smart_merge_vmt, smart_merge_vmt_try, one_file.
  rewrite String.eqb_refl.
  replace (parse_vmt_params (standard_text scenario_A_existing))
    with scenario_A_existing by (vm_compute; reflexivity).
  replace (parse_vmt_params (standard_text scenario_A_generated))
    with scenario_A_generated by (vm_compute; reflexivity).
  now rewrite H.
Qed.

(** ** Keys the loop never writes, keys it always writes *)

Lemma fold_keeps f (l m : dict) (k : string) :
  writes_only f ->
  (forall m' kv, In kv l -> fst kv = k -> f m' kv = m') ->
  dict_get k (fold_left f l m) = dict_get k m.
Proof.
  intros Hf. revert m. induction l as [|kv t IH]; simpl; intros m Hk; [reflexivity|].
  rewrite IH by (intros m' kv' Hin; apply Hk; now right).
  destruct (String.eqb (fst kv) k) eqn:E.
  - apply String.eqb_eq in E. rewrite (Hk m kv) by auto. reflexivity.
  - destruct (Hf m kv) as [->| ->]; [reflexivity|].
    apply dict_get_set_other. intros Heq. rewrite Heq, String.eqb_refl in E.
    discriminate.
Qed.

Lemma same_key_ci_refl (k : string) : same_key_ci k k = true.
Proof. apply String.eqb_refl. Qed.

Lemma dict_mem_ci_exact (k : string) (d : dict) :
  dict_mem_ci k d = false -> dict_mem k d = false.
Proof.
  intros H. apply dict_mem_false_In. intros Hin.
  apply in_map_iff in Hin. destruct Hin as [kv [Hk Hin]].
  unfold dict_mem_ci in H.
  assert (E : existsb (fun kv => same_key_ci k (fst kv)) d = true).
  { apply existsb_exists. exists kv. split; [assumption|].
    rewrite Hk. apply same_key_ci_refl. }
  congruence.
Qed.

Lemma smart_merge_adds_new (self : L4D2ProcessingThread)
    (existing generated : dict) (k v : string) :
  dict_wf generated -> In (k, v) generated -> dict_mem k existing = false ->
  dict_get k (smart_merge_params self existing generated) = Some v.
Proof.
  intros Hwf Hin Hnew. unfold smart_merge_params.
  apply fold_writes_new; [apply smart_merge_writes | assumption | assumption |].
  intros m. cbn [fst snd]. rewrite Hnew. cbn [negb].
  destruct (set_mem (lower k) _); reflexivity.
Qed.

Lemma batch_merge_adds_new (name : string) (existing generated : dict)
    (k v : string) :
  dict_wf generated -> In (k, v) generated -> dict_mem k existing = false ->
  dict_get k (smart_merge_batch_params name existing generated) = Some v.
Proof.
  intros Hwf Hin Hnew. unfold smart_merge_batch_params.
  apply fold_writes_new; [apply batch_merge_writes | assumption | assumption |].
  intros m. cbn [fst snd]. rewrite Hnew. cbn [negb]. now rewrite orb_true_r.
Qed.

(** C6, as the claim states it, fails for [merge_vmt_files]: the
    generated key [$envmapmask] is in no existing dict entry, and the
    merged dict does not have it. *)
Lemma new_key_suppressed :
  let existing := [("$surfaceprop", "metal")] in
  let generated := [("$envmapmask", "mat_envmask")] in
  dict_get "$envmapmask" generated = Some "mat_envmask"
  /\ dict_mem_ci "$envmapmask" existing = false
  /\ dict_get "$envmapmask" (merge_vmt_params existing generated) = None
  /\ merge_vmt_files (one_file "mat.vmt" (standard_text existing)) "mat.vmt"
       (standard_text generated)
     = generate_vmt_from_params existing.
Proof. vm_compute. repeat split; reflexivity. Qed.

(** C6, amended. A key of the generated dict that the existing dict does
    not have, under comparison up to case, is in the merged dict of
    [smart_merge_vmt] and of [smart_merge_batch_vmt] with the generated
    value. [merge_vmt_files] adds it when its lower-cased name is in the
    fixed [pbr_params] list of that function, and leaves it out
    otherwise. *)
Theorem new_key_added (self : L4D2ProcessingThread) (batch_material : string)
    (existing generated : dict) (k v : string) :
  dict_wf generated -> In (k, v) generated -> dict_mem_ci k existing = false ->
  dict_get k (smart_merge_params self existing generated) = Some v
  /\ dict_get k (smart_merge_batch_params batch_material existing generated) = Some v
  /\ dict_get k (merge_vmt_params existing generated)
     = if set_mem (lower k) merge_pbr_params then Some v else None.
Proof.
  intros Hwf Hin Hci. assert (Hnew := dict_mem_ci_exact _ _ Hci).
  split; [now apply smart_merge_adds_new|].
  split; [now apply batch_merge_adds_new|].
  unfold merge_vmt_params.
  destruct (set_mem (lower k) merge_pbr_params) eqn:E.
  - apply fold_writes_new; [apply merge_vmt_writes | assumption | assumption |].
    intros m. cbn [fst snd]. now rewrite E.
  - rewrite fold_keeps.
    + rewrite dict_get_mem in Hnew. destruct (dict_get k existing); [discriminate|reflexivity].
    + apply merge_vmt_writes.
    + intros m kv _ Hk. rewrite Hk, E. reflexivity.
Qed.

Lemma new_key_added_witness :
  dict_get "$phong" (smart_merge_params mat_thread
                       scenario_A_existing scenario_A_generated) = Some "1"
  /\ dict_get "$phong" (smart_merge_batch_params "mat"
                          scenario_A_existing scenario_A_generated) = Some "1"
  /\ dict_get "$phong" (merge_vmt_params scenario_A_existing scenario_A_generated)
     = if set_mem (lower "$phong") merge_pbr_params then Some "1" else None.
Proof.
  apply (new_key_added mat_thread
           "mat" scenario_A_existing scenario_A_generated "$phong" "1").
  - unfold dict_wf. simpl. repeat constructor; simpl; intuition discriminate.
  - simpl. tauto.
  - reflexivity.
Defined.

(** C3, as the claim states it, fails: [$detail] is no derived name and
    its existing value does not mention the material, yet the generated
    value, which does, replaces it. *)
Lemma custom_overwritten :
  let self := mat_thread in
  let existing := [("$detail", "custom/tex")] in
  let generated := [("$detail", "mat_detail")] in
  dict_get "$detail" existing = Some "custom/tex"
  /\ known_derived_key "$detail" = false
  /\ contains (lower (material_name self)) (lower "custom/tex") = false
  /\ dict_get "$detail" (smart_merge_params self existing generated)
     = Some "mat_detail".
Proof. vm_compute. repeat split; reflexivity. Qed.

(** C3, amended. A key of the existing dict keeps its value when it is
    no derived name (no keyword inside it, not a common rendering
    parameter) and no entry of the existing or of the generated dict
    whose key equals it up to case has a value that contains the
    material name, compared in lower case. *)
Theorem custom_preserved (self : L4D2ProcessingThread)
    (existing generated : dict) (k v : string) :
  dict_get k existing = Some v ->
  known_derived_key k = false ->
  (forall k' v', In (k', v') existing \/ In (k', v') generated ->
                 same_key_ci k k' = true ->
                 contains (lower (material_name self)) (lower v') = false) ->
  dict_get k (smart_merge_params self existing generated) = Some v.
Proof.
  intros Hget Hkd Href.
  assert (Hpbr : set_mem (lower k)
                   (identify_pbr_parameters self existing generated) = false).
  { rewrite identify_pbr_mem.
    unfold known_derived_key in Hkd. apply orb_false_iff in Hkd.
    destruct Hkd as [Hkw Hcommon].
    rewrite !existsb_false; [reflexivity | | | |]; intros [k' v'] Hin; cbn [fst snd];
      destruct (String.eqb (lower k) (lower k')) eqn:E;
      rewrite ?andb_false_r; try reflexivity.
    - apply String.eqb_eq in E. rewrite <- E, Hcommon. reflexivity.
    - apply String.eqb_eq in E. rewrite <- E, Hkw. reflexivity.
    - rewrite (Href k' v'); auto.
    - rewrite (Href k' v'); auto. }
  unfold smart_merge_params. rewrite fold_keeps; [assumption | apply smart_merge_writes |].
  intros m kv _ Hk. rewrite Hk, Hpbr.
  rewrite dict_get_mem, Hget. reflexivity.
Qed.

Lemma custom_preserved_witness :
  dict_get "$selfillum"
    (smart_merge_params mat_thread
       [("$basetexture", "old/path"); ("$selfillum", "1")]
       [("$basetexture", "mat_basecolor"); ("$selfillum", "0")])
  = Some "1".
Proof.
  apply (custom_preserved mat_thread).
  - reflexivity.
  - reflexivity.
  - intros k' v' [[H|[H|[]]]|[H|[H|[]]]] Hci; inversion H; subst;
      first [reflexivity | discriminate Hci].
Defined.


(** ** Every dict has distinct keys *)

Lemma dict_update_wf (d other : dict) :
  dict_wf d -> dict_wf (dict_update d other).
Proof.
  unfold dict_update. apply fold_writes_wf. intros m kv. now right.
Qed.

Lemma patch_params_line_wf (load : string -> dict) (st : patch_scan)
    (raw : string) :
  dict_wf (ps_params st) -> dict_wf (ps_params (patch_params_line load st raw)).
Proof.
  intros H. unfold patch_params_line.
  repeat match goal with
         | |- context [if ?c then _ else _] => destruct c
         | |- context [match ?o with Some _ => _ | None => _ end] => destruct o
         | |- context [let '(_, _) := ?p in _] => destruct p
         end;
    cbn [ps_params]; auto using dict_update_wf with vmt.
Qed.

Lemma parse_patch_with_wf (load : string -> string -> dict)
    (vmt_content base_dir : string) :
  dict_wf (parse_patch_with load vmt_content base_dir).
Proof.
  unfold parse_patch_with.
  assert (H : dict_wf (ps_params patch_scan_init)) by apply dict_wf_nil.
  revert H. generalize patch_scan_init.
  induction (split_on newline vmt_content) as [|l t IH]; simpl; intros st H;
    [assumption|].
  apply IH. now apply patch_params_line_wf.
Qed.

Lemma parse_batch_vmt_params_wf fs path_of path_join path_parent
    (self : L4D2BatchProcessingThread) (depth : nat)
    (vmt_content vmt_file_path : string) :
  dict_wf (parse_batch_vmt_params fs path_of path_join path_parent self depth
             vmt_content vmt_file_path).
Proof.
  unfold parse_batch_vmt_params, parse_batch_with.
  destruct (patch_format_enabled self && patch_or_include vmt_content).
  - apply parse_patch_with_wf.
  - apply fold_standard_wf, dict_wf_nil.
Qed.

(** ** Keys that differ only in case *)

(** C9 on the code. The merge of [smart_merge_vmt] puts a second,
    differently-cased copy of a key beside the one of the existing file.
    The existing file binds [$BaseTexture], the generated text binds
    [$basetexture]. The name is classified on its lower-cased form, on
    which the two names agree, and the write is reported as an update of
    the parameter; but the write goes to the dict under the name as the
    generated text spells it, so the existing entry keeps the old path
    and a second entry with the new path is appended. This holds for
    every material name, and the file written reads back with both
    keys. *)
Theorem merge_adds_case_variant (self : L4D2ProcessingThread) :
  let existing := [("$BaseTexture", "old/path")] in
  let generated := [("$basetexture", "new/path")] in
  let merged := [("$BaseTexture", "old/path"); ("$basetexture", "new/path")] in
  parse_vmt_params (standard_text existing) = existing
  /\ parse_vmt_params (standard_text generated) = generated
  /\ has_ci_duplicate existing = false
  /\ set_mem "$basetexture" (identify_pbr_parameters self existing generated) = true
  /\ smart_merge_params self existing generated = merged
  /\ smart_merge_vmt self
       (one_file (existing_vmt_path self) (standard_text existing))
       (standard_text generated)
     = build_vmt_from_params merged
  /\ parse_vmt_params (build_vmt_from_params merged) = merged
  /\ has_ci_duplicate merged = true.
Proof.
  cbv zeta.
  assert (Hpbr : set_mem "$basetexture"
                   (identify_pbr_parameters self [("$BaseTexture", "old/path")]
                      [("$basetexture", "new/path")]) = true).
  { apply (known_derived_in_pbr self [("$BaseTexture", "old/path")]
             [("$basetexture", "new/path")] "$basetexture" "new/path");
      [now left | reflexivity]. }
  assert (Hmerge : smart_merge_params self [("$BaseTexture", "old/path")]
                     [("$basetexture", "new/path")]
                   = [("$BaseTexture", "old/path"); ("$basetexture", "new/path")]).
  { unfold smart_merge_params. cbn [fold_left fst snd].
    change (lower "$basetexture") with "$basetexture".
    rewrite Hpbr. reflexivity. }
  assert (He : parse_vmt_params (standard_text [("$BaseTexture", "old/path")])
               = [("$BaseTexture", "old/path")]) by (vm_compute; reflexivity).
  assert (Hg : parse_vmt_params (standard_text [("$basetexture", "new/path")])
               = [("$basetexture", "new/path")]) by (vm_compute; reflexivity).
  split; [exact He|]. split; [exact Hg|]. split; [reflexivity|].
  split; [exact Hpbr|]. split; [exact Hmerge|]. split.
  - unfold smart_merge_vmt, smart_merge_vmt_try, one_file.
    rewrite String.eqb_refl, He, Hg, Hmerge. reflexivity.
  - split; vm_compute; reflexivity.
Qed.

(** ** The document with the missing brace *)

Lemma fold_left_same {A B : Type} (f g : A -> B -> A) (l : list B) (a : A) :
  (forall x y, f x y = g x y) -> fold_left f l a = fold_left g l a.
Proof.
  intros H. revert a. induction l as [|b t IH]; simpl; intros a; [reflexivity|].
  now rewrite H, IH.
Qed.





(** ** Strings: splitting, joining and stripping *)

Lemma app_chr_assoc (s r : string) (c : ascii) :
  (s ++ chr c) ++ r = s ++ String c r.
Proof. induction s as [|a s IH]; simpl; [reflexivity | now rewrite IH]. Qed.

Lemma str_app_assoc (s r t : string) : (s ++ r) ++ t = s ++ (r ++ t).
Proof. induction s as [|a s IH]; simpl; [reflexivity | now rewrite IH]. Qed.

Lemma has_char_app (c : ascii) (s r : string) :
  has_char c (s ++ r) = has_char c s || has_char c r.
Proof.
  induction s as [|a s IH]; simpl; [reflexivity|].
  rewrite IH. now rewrite orb_assoc.
Qed.

Lemma split_on_absent (c : ascii) (s : string) :
  has_char c s = false -> split_on c s = [s].
Proof.
  induction s as [|a s IH]; simpl; [reflexivity|].
  intros H. apply orb_false_iff in H. destruct H as [Ha Hs].
  rewrite Ha, (IH Hs). reflexivity.
Qed.

Lemma split_on_first (c : ascii) (s r : string) :
  has_char c s = false -> split_on c (s ++ String c r) = s :: split_on c r.
Proof.
  induction s as [|a s IH]; simpl; intros H.
  - now rewrite Ascii.eqb_refl.
  - apply orb_false_iff in H. destruct H as [Ha Hs].
    rewrite Ha, (IH Hs). reflexivity.
Qed.

Lemma split_on_join (c : ascii) (l : string) (lines : list string) :
  (forall x, In x (l :: lines) -> has_char c x = false) ->
  split_on c (join c (l :: lines)) = l :: lines.
Proof.
  revert l. induction lines as [|l' t IH]; intros l H.
  - simpl. apply split_on_absent. apply H. now left.
  - change (join c (l :: l' :: t)) with (l ++ String c (join c (l' :: t))).
    rewrite split_on_first by (apply H; now left).
    rewrite IH; [reflexivity|]. intros x Hx. apply H. now right.
Qed.

Lemma rstrip_ends_solid (s : string) (c : ascii) :
  is_space c = false -> rstrip (s ++ chr c) = s ++ chr c.
Proof.
  intros Hc. induction s as [|a s IH]; simpl.
  - now rewrite Hc.
  - rewrite IH. destruct s; reflexivity.
Qed.

(** The line that the serializers write for one entry, in the form the
    parser meets it. *)
Lemma param_line_shape (k v : string) :
  String tab (quoted k) ++ String tab (String tab (quoted v))
  = String tab
      (String dquote
         (k ++ String dquote
                 (String tab (String tab (String dquote (v ++ chr dquote)))))).
Proof. unfold quoted. simpl. now rewrite app_chr_assoc. Qed.

Lemma strip_param_line (k v : string) :
  strip (String tab (quoted k) ++ String tab (String tab (quoted v)))
  = String dquote
      (k ++ String dquote
              (String tab (String tab (String dquote (v ++ chr dquote))))).
Proof.
  rewrite param_line_shape. unfold strip.
  change (lstrip (String tab ?s)) with (lstrip s).
  cbn [lstrip]. change (is_space dquote) with false. cbv iota.
  replace (String dquote
             (k ++ String dquote
                     (String tab (String tab (String dquote (v ++ chr dquote))))))
    with ((String dquote
             (k ++ String dquote (String tab (String tab (String dquote v)))))
          ++ chr dquote).
  - now apply rstrip_ends_solid.
  - simpl. f_equal. rewrite str_app_assoc. reflexivity.
Qed.

(** ** Reading back what the serializer wrote *)

Lemma plain_spec (s : string) :
  plain s = true -> has_char dquote s = false /\ has_char newline s = false.
Proof.
  unfold plain. intros H. apply andb_true_iff in H. destruct H as [H1 H2].
  split; [now destruct (has_char dquote s) | now destruct (has_char newline s)].
Qed.

Lemma written_line_parses (k v : string) :
  has_char dquote k = false -> has_char dquote v = false ->
  _parse_vmt_line
    (String dquote
       (k ++ String dquote
               (String tab (String tab (String dquote (v ++ chr dquote))))))
  = Some (k, v).
Proof.
  intros Hk Hv. unfold _parse_vmt_line.
  assert (E : split_on dquote
                (String dquote
                   (k ++ String dquote
                           (String tab (String tab (String dquote (v ++ chr dquote))))))
              = [EmptyString; k; String tab (chr tab); v; EmptyString]).
  { cbn [split_on]. rewrite Ascii.eqb_refl. f_equal.
    rewrite (split_on_first dquote k _ Hk). f_equal.
    change (String tab (String tab (String dquote (v ++ chr dquote))))
      with (String tab (chr tab) ++ String dquote (v ++ chr dquote)).
    rewrite (split_on_first dquote (String tab (chr tab)) _ eq_refl). f_equal.
    unfold chr. rewrite (split_on_first dquote v _ Hv). reflexivity. }
  rewrite E. reflexivity.
Qed.

Lemma written_line_is_param (k v : string) :
  startswith "$" k = true ->
  is_param_line
    (String dquote
       (k ++ String dquote
               (String tab (String tab (String dquote (v ++ chr dquote))))))
  = true.
Proof.
  destruct k as [|a k']; cbn [startswith]; [discriminate|].
  intros H. apply andb_true_iff in H. destruct H as [Ha _].
  apply Ascii.eqb_eq in Ha. subst a.
  unfold is_param_line. cbn [append startswith drop].
  rewrite !Ascii.eqb_refl. cbn [andb].
  rewrite has_char_app. cbn [has_char]. rewrite Ascii.eqb_refl.
  cbn [orb]. apply orb_true_r.
Qed.

Lemma standard_line_written (params : dict) (k v : string) :
  startswith "$" k = true -> plain k = true -> plain v = true ->
  standard_line params
    (String tab (quoted k) ++ String tab (String tab (quoted v)))
  = dict_set k v params.
Proof.
  intros Hs Hk Hv.
  apply plain_spec in Hk. apply plain_spec in Hv.
  unfold standard_line. rewrite strip_param_line.
  rewrite written_line_is_param by assumption.
  now rewrite written_line_parses by tauto.
Qed.

Lemma fold_param_lines (params acc : dict) :
  serializable params = true ->
  fold_left standard_line (param_lines params) acc
  = fold_left (fun a kv => dict_set (fst kv) (snd kv) a) params acc.
Proof.
  revert acc. induction params as [|[k v] t IH]; intros acc H; [reflexivity|].
  cbn [serializable forallb fst snd] in H. andb_hyps.
  cbn [param_lines map fold_left fst snd].
  rewrite standard_line_written by assumption.
  apply IH. assumption.
Qed.

Lemma param_lines_one_line (params : dict) (x : string) :
  serializable params = true -> In x (param_lines params) ->
  has_char newline x = false.
Proof.
  induction params as [|[k v] t IH]; intros H Hin; [destruct Hin|].
  cbn [serializable forallb fst snd] in H. andb_hyps.
  destruct Hin as [<-|Hin]; [|now apply IH].
  repeat match goal with
         | Hp : plain _ = true |- _ => apply plain_spec in Hp; destruct Hp as [_ Hp]
         end.
  cbn [fst snd]. rewrite param_line_shape.
  cbn [has_char]. rewrite has_char_app. cbn [has_char].
  rewrite has_char_app. cbn [has_char chr].
  repeat match goal with
         | Hp : has_char newline _ = false |- _ => rewrite Hp; clear Hp
         end.
  reflexivity.
Qed.

Lemma standard_round_trip (params : dict) :
  dict_wf params -> serializable params = true ->
  fold_left standard_line
    (split_on newline
       (join newline ([quoted "VertexLitGeneric"; "{"] ++ param_lines params ++ ["}"])))
    []
  = params.
Proof.
  intros Hwf Hser.
  change ([quoted "VertexLitGeneric"; "{"] ++ param_lines params ++ ["}"])%list
    with (quoted "VertexLitGeneric" :: ("{" :: param_lines params ++ ["}"]))%list.
  rewrite split_on_join.
  - cbn [fold_left].
    change (standard_line [] (quoted "VertexLitGeneric")) with (@nil (string * string)).
    change (standard_line [] "{") with (@nil (string * string)).
    rewrite fold_left_app, fold_param_lines by assumption.
    rewrite (fold_writes_all params []) by assumption.
    cbn [fold_left app]. unfold standard_line.
    change (is_param_line (strip "}")) with false. reflexivity.
  - intros x [<-|[<-|Hin]]; [reflexivity | reflexivity |].
    apply in_app_or in Hin. destruct Hin as [Hin|[<-|[]]]; [|reflexivity].
    now apply (param_lines_one_line params).
Qed.


(** C2 on the code. The round trip that the claim states breaks on two
    inputs. A Standard dict whose values hold the letters patch and
    include, here inside the words patches and included, is written by
    [build_vmt_from_params] as a Standard document, which
    [parse_vmt_params] then takes for a Patch document and reads as the
    empty dict; [parse_standard_vmt] reads the dict back from the same
    text, and so does the pair [generate_vmt_from_params] and
    [parse_vmt_parameters]. And a Patch document is written back by
    [build_vmt_from_params] as a Standard document without its include
    path. *)
Theorem round_trip_fails :
  let d := [("$basetexture", "models/patches/flag");
            ("$detail", "detail/included_noise")] in
  let p := scenario_B_existing_inline in
  (dict_wf d /\ serializable d = true)
  /\ looks_like_patch (build_vmt_from_params d) = true
  /\ parse_vmt_params (build_vmt_from_params d) = []
  /\ parse_standard_vmt (build_vmt_from_params d) = d
  /\ parse_vmt_parameters (generate_vmt_from_params d) = d
  /\ looks_like_patch p = true
  /\ parse_vmt_params p = [("$basetexture", "x/old")]
  /\ build_vmt_from_params (parse_vmt_params p)
     = text_of [quoted "VertexLitGeneric"; "{";
                String tab (quoted "$basetexture")
                ++ String tab (String tab (quoted "x/old")); "}"]
  /\ looks_like_patch (build_vmt_from_params (parse_vmt_params p)) = false.
Proof.
  cbv zeta. split.
  - split; [|reflexivity].
    unfold dict_wf. simpl. repeat constructor; simpl; intuition discriminate.
  - vm_compute. repeat split; reflexivity.
Qed.

(** X22. Writing and reading parameters is a round trip: for every
    dict with distinct keys whose names start with a dollar sign and
    whose names and values hold neither a double quote nor a line break,
    [parse_standard_vmt] reads the dict back from the text of
    [build_vmt_from_params], and [parse_vmt_parameters] from the text of
    [generate_vmt_from_params]: same keys, same values, same order.
    [parse_vmt_params] does so too whenever it does not take the text
    written for a Patch document. *)
Theorem round_trip_parameters (params : dict) :
  dict_wf params -> serializable params = true ->
  parse_standard_vmt (build_vmt_from_params params) = params
  /\ parse_vmt_parameters (generate_vmt_from_params params) = params
  /\ (looks_like_patch (build_vmt_from_params params) = false ->
      parse_vmt_params (build_vmt_from_params params) = params).
Proof.
  intros Hwf Hser.
  assert (H : parse_standard_vmt (build_vmt_from_params params) = params).
  { unfold parse_standard_vmt, build_vmt_from_params. now apply standard_round_trip. }
  split; [exact H|]. split.
  - unfold parse_vmt_parameters, generate_vmt_from_params.
    now apply standard_round_trip.
  - intros Hstd. unfold parse_vmt_params. now rewrite Hstd.
Qed.

Lemma round_trip_parameters_witness :
  parse_standard_vmt (build_vmt_from_params scenario_A_merged) = scenario_A_merged
  /\ parse_vmt_parameters (generate_vmt_from_params scenario_A_merged)
     = scenario_A_merged
  /\ (looks_like_patch (build_vmt_from_params scenario_A_merged) = false ->
      parse_vmt_params (build_vmt_from_params scenario_A_merged)
      = scenario_A_merged).
Proof.
  apply (round_trip_parameters scenario_A_merged).
  - unfold dict_wf. simpl. repeat constructor; simpl; intuition discriminate.
  - reflexivity.
Defined.


(** ** Flattening a Patch document in the batch thread *)

Lemma param_line_head (line : string) :
  is_param_line line = true ->
  exists rest, line = String dquote (String "$" rest).
Proof.
  unfold is_param_line. intros H. apply andb_true_iff in H. destruct H as [H _].
  destruct line as [|a [|b rest]]; cbn [startswith] in H.
  - discriminate.
  - rewrite andb_false_r in H. discriminate.
  - apply andb_true_iff in H. destruct H as [Ha H].
    apply andb_true_iff in H. destruct H as [Hb _].
    apply Ascii.eqb_eq in Ha. apply Ascii.eqb_eq in Hb. subst. now exists rest.
Qed.

Lemma param_line_tests (rest : string) :
  truthy (String dquote (String "$" rest)) = true
  /\ startswith "//" (String dquote (String "$" rest)) = false
  /\ startswith "patch" (lower (String dquote (String "$" rest))) = false
  /\ startswith "include" (String dquote (String "$" rest)) = false
  /\ is_section_word (lower (String dquote (String "$" rest))) = false.
Proof. repeat split; reflexivity. Qed.

Lemma param_line_name (rest k v : string) :
  _parse_vmt_line (String dquote (String "$" rest)) = Some (k, v) ->
  truthy k = true.
Proof.
  unfold _parse_vmt_line. cbn [split_on].
  change (Ascii.eqb dquote dquote) with true.
  change (Ascii.eqb "$" dquote) with false. cbv iota.
  destruct (split_on dquote rest) as [|h t];
    destruct (4 <=? _)%nat; intros [= <- _]; reflexivity.
Qed.

(** A whole document: the base file binds two names, the insert block
    may not rebind [$surfaceprop] and adds [$detail], the replace block
    rebinds [$basetexture] in place. *)
Example patch_flattening_example :
  parse_patch_vmt_params (one_file "base.vmt" (base_text "base/tex"))
    same_path simple_join same_path patch_thread 1 layered_text EmptyString
  = [("$basetexture", "x/new"); ("$surfaceprop", "metal");
     ("$detail", "detail/noise")].
Proof. vm_compute. reflexivity. Qed.

(** ** Which files the parsers read *)

(** An include line makes the batch parser load the file it names and
    write the parameters of that file over the bindings made so far. *)
Lemma include_line_loads (load : string -> dict) (st : patch_scan) (raw : string) :
  startswith "include" (strip raw) = true ->
  has_char dquote (strip raw) = true ->
  has_char rbrace (strip raw) = false ->
  ps_params (patch_params_line load st raw)
  = if truthy (_extract_quoted_value (strip raw))
    then dict_update (ps_params st) (load (_extract_quoted_value (strip raw)))
    else ps_params st.
Proof.
  intros Hi Hq Hb. unfold patch_params_line.
  destruct (strip raw) as [|a line] eqn:E; [discriminate|].
  assert (Ha : a = "i"%char).
  { cbn [startswith] in Hi. apply andb_true_iff in Hi. destruct Hi as [Hi _].
    apply Ascii.eqb_eq in Hi. now subst. }
  subst a.
  change (truthy (String "i" line)) with true.
  change (startswith "//" (String "i" line)) with false.
  change (startswith "patch" (lower (String "i" line))) with false.
  cbn [negb orb andb]. cbv zeta. rewrite Hb, Hi, Hq. cbn [andb].
  destruct (truthy (_extract_quoted_value (String "i" line))); reflexivity.
Qed.

(** C8, as the claim states it, fails for the batch parser: the same
    Patch text gives two different dicts when only the content of the
    included file differs. *)
Lemma include_file_is_read :
  let text := patch_text "base.vmt" [] [] in
  let fs1 := one_file "base.vmt" (base_text "base/one") in
  let fs2 := one_file "base.vmt" (base_text "base/two") in
  parse_patch_vmt_params fs1 same_path simple_join same_path patch_thread 1
    text EmptyString
  = [("$basetexture", "base/one"); ("$surfaceprop", "metal")]
  /\ parse_patch_vmt_params fs2 same_path simple_join same_path patch_thread 1
       text EmptyString
     = [("$basetexture", "base/two"); ("$surfaceprop", "metal")]
  /\ parse_batch_vmt_params fs1 same_path simple_join same_path patch_thread 1
       text EmptyString
     <> parse_batch_vmt_params fs2 same_path simple_join same_path patch_thread 1
          text EmptyString.
Proof.
  cbv zeta. split; [vm_compute; reflexivity|].
  split; [vm_compute; reflexivity|].
  vm_compute. discriminate.
Qed.

(** C8, amended. The parser of the single-material thread depends on
    the text alone and [smart_merge_vmt] reads no file but the existing
    one: two file systems that agree on that file give the same result,
    whatever the included base document holds. The batch parser reads no
    file when its Patch support is off; with the support on it loads the
    included file and starts from the parameters of that file. *)
Theorem include_opacity (self : L4D2ProcessingThread)
    (batch : L4D2BatchProcessingThread)
    (fs1 fs2 : string -> option string)
    (path_of : string -> string) (path_join : string -> string -> string)
    (path_parent : string -> string) (depth : nat)
    (generated_vmt vmt_content vmt_file_path : string) :
  fs1 (existing_vmt_path self) = fs2 (existing_vmt_path self) ->
  patch_format_enabled batch = false ->
  smart_merge_vmt self fs1 generated_vmt = smart_merge_vmt self fs2 generated_vmt
  /\ parse_batch_vmt_params fs1 path_of path_join path_parent batch depth
       vmt_content vmt_file_path
     = parse_batch_vmt_params fs2 path_of path_join path_parent batch depth
         vmt_content vmt_file_path.
Proof.
  intros Hfs Hoff. split.
  - unfold smart_merge_vmt, smart_merge_vmt_try. now rewrite Hfs.
  - unfold parse_batch_vmt_params, parse_batch_with. now rewrite Hoff.
Qed.

Lemma include_opacity_witness :
  let fs1 := fun p => if String.eqb p "mat.vmt" then Some scenario_B_existing_inline
                      else Some (base_text "base/one") in
  let fs2 := fun p => if String.eqb p "mat.vmt" then Some scenario_B_existing_inline
                      else Some (base_text "base/two") in
  smart_merge_vmt mat_thread fs1 scenario_B_generated
  = smart_merge_vmt mat_thread fs2 scenario_B_generated
  /\ parse_batch_vmt_params fs1 same_path simple_join same_path
       L4D2BatchProcessingThread_init 1 scenario_B_existing "mat.vmt"
     = parse_batch_vmt_params fs2 same_path simple_join same_path
         L4D2BatchProcessingThread_init 1 scenario_B_existing "mat.vmt".
Proof.
  cbv zeta.
  apply (include_opacity mat_thread L4D2BatchProcessingThread_init); reflexivity.
Defined.

(** ** Scenario B *)

(** C4 on the code. The single-material thread writes the Patch document
    of scenario B as a Standard one: the value of [$basetexture] is the
    generated one, the include path is gone, in both layouts of the
    existing file. The batch thread as [__init__] builds it has no check
    box, so it writes the same Standard text; only a thread object with a
    checked box keeps the Patch shape and the include line. *)
Theorem scenario_B_shape_lost :
  smart_merge_vmt mat_thread (one_file "mat.vmt" scenario_B_existing_inline)
    scenario_B_generated_inline
  = build_vmt_from_params [("$basetexture", "x/new")]
  /\ smart_merge_vmt mat_thread (one_file "mat.vmt" scenario_B_existing)
       scenario_B_generated
     = build_vmt_from_params [("$basetexture", "x/new")]
  /\ (forall fs path_of path_join path_parent depth,
        smart_merge_batch_vmt fs path_of path_join path_parent
          L4D2BatchProcessingThread_init depth
          scenario_B_existing scenario_B_generated "mat" "mat.vmt"
        = build_vmt_from_params [("$basetexture", "x/new")])
  /\ contains scenario_B_include (build_vmt_from_params [("$basetexture", "x/new")])
     = false
  /\ smart_merge_batch_vmt (fun _ => None) same_path simple_join same_path
       patch_thread 1 scenario_B_existing scenario_B_generated "mat" "mat.vmt"
     = scenario_B_patch_out.
Proof.
  split; [vm_compute; reflexivity|].
  split; [vm_compute; reflexivity|].
  split; [intros; vm_compute; reflexivity|].
  split; vm_compute; reflexivity.
Qed.

(** * Further properties of the merge loops *)

(** ** A loop that writes the entries picked by a test *)

Lemma fold_cond_writes (w : string * string -> bool) :
  writes_only (fun m kv => if w kv then dict_set (fst kv) (snd kv) m else m).
Proof. intros m kv. destruct (w kv); [now right | now left]. Qed.

Lemma fold_cond_get (w : string * string -> bool) (l m : dict) (k : string) :
  dict_wf l ->
  dict_get k (fold_left (fun m kv => if w kv then dict_set (fst kv) (snd kv) m else m) l m)
  = match dict_get k l with
    | Some v => if w (k, v) then Some v else dict_get k m
    | None => dict_get k m
    end.
Proof.
  revert m. induction l as [|[k' v'] t IH]; intros m Hwf; [reflexivity|].
  unfold dict_wf in Hwf. cbn [map fst] in Hwf.
  inversion Hwf as [|? ? Hnotin Hnd]; subst.
  cbn [fold_left dict_get fst snd].
  destruct (String.eqb k' k) eqn:E.
  - apply String.eqb_eq in E. subst k'.
    rewrite fold_writes_other by (apply fold_cond_writes || assumption).
    destruct (w (k, v')); [apply dict_get_set_same | reflexivity].
  - rewrite IH by assumption.
    assert (Hm : dict_get k (if w (k', v') then dict_set k' v' m else m) = dict_get k m).
    { destruct (w (k', v')); [|reflexivity].
      apply dict_get_set_other. intros ->. now rewrite String.eqb_refl in E. }
    now rewrite Hm.
Qed.

Lemma dict_mem_set (k k' v : string) (m : dict) :
  dict_mem k' (dict_set k v m) = String.eqb k k' || dict_mem k' m.
Proof.
  induction m as [|[k0 v0] t IH]; cbn [dict_set dict_mem].
  - now rewrite orb_false_r.
  - destruct (String.eqb k0 k) eqn:E; cbn [dict_mem].
    + apply String.eqb_eq in E. subst k0.
      destruct (String.eqb k k'); reflexivity.
    + rewrite IH. destruct (String.eqb k0 k'), (String.eqb k k'); reflexivity.
Qed.

Lemma fold_cond_keys (w : string * string -> bool) (existing l m : dict) :
  dict_wf l ->
  (forall k, dict_mem k existing = true -> dict_mem k m = true) ->
  (forall k, In k (map fst l) -> dict_mem k existing = false -> dict_mem k m = false) ->
  map fst (fold_left (fun m kv => if w kv then dict_set (fst kv) (snd kv) m else m) l m)
  = (map fst m
     ++ map fst (filter (fun kv => w kv && negb (dict_mem (fst kv) existing)) l))%list.
Proof.
  revert m. induction l as [|[k v] t IH]; intros m Hwf Hsub Hnew.
  - cbn. now rewrite app_nil_r.
  - unfold dict_wf in Hwf. cbn [map fst] in Hwf.
    inversion Hwf as [|? ? Hnotin Hnd]; subst.
    cbn [fold_left filter fst snd].
    destruct (w (k, v)) eqn:Ew; cbn [andb].
    + destruct (dict_mem k existing) eqn:Ee; cbn [negb].
      * rewrite IH; [| assumption | |].
        -- rewrite dict_set_keys, (Hsub k Ee). reflexivity.
        -- intros k' Hk'. rewrite dict_mem_set, (Hsub k' Hk'). apply orb_true_r.
        -- intros k' Hin He. rewrite dict_mem_set, (Hnew k') by (cbn; auto).
           rewrite orb_false_r. apply String.eqb_neq. intros ->. congruence.
      * assert (Hm : dict_mem k m = false) by (apply Hnew; cbn; auto).
        rewrite IH; [| assumption | |].
        -- rewrite dict_set_keys, Hm. cbn [map fst]. now rewrite <- app_assoc.
        -- intros k' Hk'. rewrite dict_mem_set, (Hsub k' Hk'). apply orb_true_r.
        -- intros k' Hin He. rewrite dict_mem_set, (Hnew k') by (cbn; auto).
           rewrite orb_false_r. apply String.eqb_neq. intros ->. contradiction.
    + apply IH; [assumption | assumption |].
      intros k' Hin He. apply Hnew; cbn; auto.
Qed.

Lemma smart_merge_params_cond (self : L4D2ProcessingThread) (existing generated : dict) :
  smart_merge_params self existing generated
  = fold_left
      (fun m kv =>
         if set_mem (lower (fst kv)) (identify_pbr_parameters self existing generated)
            || negb (dict_mem (fst kv) existing)
         then dict_set (fst kv) (snd kv) m else m)
      generated existing.
Proof.
  unfold smart_merge_params. apply fold_left_same. intros m kv.
  destruct (set_mem (lower (fst kv)) _); reflexivity.
Qed.

Lemma filter_map_fst (p : string -> bool) (l : dict) :
  map fst (filter (fun kv => p (fst kv)) l) = filter p (map fst l).
Proof.
  induction l as [|[k v] t IH]; cbn [filter map fst]; [reflexivity|].
  destruct (p k); cbn [map fst]; now rewrite IH.
Qed.

Lemma filter_same {A : Type} (p q : A -> bool) (l : list A) :
  (forall x, p x = q x) -> filter p l = filter q l.
Proof.
  intros H. induction l as [|a t IH]; cbn [filter]; [reflexivity|].
  now rewrite H, IH.
Qed.

Lemma batch_pbr_mem (name : string) (existing generated : dict) (x : string) :
  set_mem x (add_semantic batch_pbr_keywords generated
               (add_texture_refs name existing []))
  = existsb (fun kv => contains (lower name) (lower (snd kv))
                       && String.eqb x (lower (fst kv))) existing
    || existsb (fun kv => existsb (fun keyword => contains keyword (lower (fst kv)))
                                  batch_pbr_keywords
                          && String.eqb x (lower (fst kv))) generated.
Proof.
  unfold add_semantic, add_texture_refs.
  rewrite (set_mem_fold_add
             (fun kv => existsb (fun keyword => contains keyword (lower (fst kv)))
                                batch_pbr_keywords)).
  rewrite (set_mem_fold_add (fun kv => contains (lower name) (lower (snd kv)))).
  reflexivity.
Qed.

(** X1. The merged dict of [smart_merge_vmt] and of
    [smart_merge_batch_vmt] lists the keys of the existing dict first, in
    their order, and after them the generated keys that the existing
    dict does not have, in the order of the generated dict: no key is
    lost and none moves. *)
Theorem merge_keeps_order (self : L4D2ProcessingThread) (batch_material : string)
    (existing generated : dict) :
  dict_wf generated ->
  map fst (smart_merge_params self existing generated)
  = (map fst existing
     ++ filter (fun k => negb (dict_mem k existing)) (map fst generated))%list
  /\ map fst (smart_merge_batch_params batch_material existing generated)
     = (map fst existing
        ++ filter (fun k => negb (dict_mem k existing)) (map fst generated))%list.
Proof.
  intros Hwf. split.
  - rewrite smart_merge_params_cond.
    rewrite (fold_cond_keys _ existing) by auto.
    rewrite <- filter_map_fst. do 2 f_equal. apply filter_same. intros kv.
    destruct (dict_mem (fst kv) existing); cbn [negb];
      [apply andb_false_r | now rewrite orb_true_r].
  - unfold smart_merge_batch_params.
    rewrite (fold_cond_keys _ existing) by auto.
    rewrite <- filter_map_fst. do 2 f_equal. apply filter_same. intros kv.
    destruct (dict_mem (fst kv) existing); cbn [negb];
      [apply andb_false_r | now rewrite orb_true_r].
Qed.

Lemma merge_keeps_order_witness :
  map fst (smart_merge_params mat_thread scenario_A_existing scenario_A_generated)
  = ["$basetexture"; "$surfaceprop"; "$phong"]
  /\ map fst (smart_merge_batch_params "mat" scenario_A_existing scenario_A_generated)
     = ["$basetexture"; "$surfaceprop"; "$phong"].
Proof.
  apply (merge_keeps_order mat_thread "mat" scenario_A_existing scenario_A_generated).
  unfold dict_wf. simpl. repeat constructor; simpl; intuition discriminate.
Defined.

(** X2. In [smart_merge_vmt] a generated entry replaces the existing
    value whenever its name is a derived one (a keyword inside the name,
    or a common rendering parameter), or its generated value mentions
    the material name, or the existing value of that name does. *)
Theorem derived_overwritten (self : L4D2ProcessingThread)
    (existing generated : dict) (k v : string) :
  dict_wf generated -> In (k, v) generated ->
  (known_derived_key k = true
   \/ contains (lower (material_name self)) (lower v) = true
   \/ exists v0, dict_get k existing = Some v0
                 /\ contains (lower (material_name self)) (lower v0) = true) ->
  dict_get k (smart_merge_params self existing generated) = Some v.
Proof.
  intros Hwf Hin Hd.
  assert (Hpbr : set_mem (lower k)
                   (identify_pbr_parameters self existing generated) = true).
  { destruct Hd as [Hd|[Hd|[v0 [Hget Hd]]]].
    - now apply (known_derived_in_pbr self existing generated k v).
    - rewrite identify_pbr_mem.
      rewrite (existsb_true
                 (fun kv => contains (lower (material_name self)) (lower (snd kv))
                            && String.eqb (lower k) (lower (fst kv)))
                 generated (k, v) Hin).
      + now rewrite orb_true_r.
      + cbn [fst snd]. now rewrite Hd, String.eqb_refl.
    - rewrite identify_pbr_mem.
      rewrite (existsb_true
                 (fun kv => contains (lower (material_name self)) (lower (snd kv))
                            && String.eqb (lower k) (lower (fst kv)))
                 existing (k, v0) (dict_get_In _ _ _ Hget)).
      + reflexivity.
      + cbn [fst snd]. now rewrite Hd, String.eqb_refl. }
  unfold smart_merge_params.
  apply fold_writes_new; [apply smart_merge_writes | assumption | assumption |].
  intros m. cbn [fst snd]. now rewrite Hpbr.
Qed.

Lemma derived_overwritten_witness :
  dict_get "$basetexture"
    (smart_merge_params mat_thread scenario_A_existing scenario_A_generated)
  = Some "new/path".
Proof.
  apply (derived_overwritten mat_thread scenario_A_existing scenario_A_generated).
  - unfold dict_wf. simpl. repeat constructor; simpl; intuition discriminate.
  - simpl. tauto.
  - left. reflexivity.
Defined.

(** X3. In [smart_merge_batch_vmt] a generated entry whose name holds
    one of the five batch keywords always replaces the existing value. *)
Theorem batch_keyword_overwritten (batch_material : string)
    (existing generated : dict) (k v : string) :
  dict_wf generated -> In (k, v) generated ->
  existsb (fun keyword => contains keyword (lower k)) batch_pbr_keywords = true ->
  dict_get k (smart_merge_batch_params batch_material existing generated) = Some v.
Proof.
  intros Hwf Hin Hkw. unfold smart_merge_batch_params.
  apply fold_writes_new; [apply batch_merge_writes | assumption | assumption |].
  intros m. cbn [fst snd]. rewrite batch_pbr_mem.
  rewrite (existsb_true
             (fun kv => existsb (fun keyword => contains keyword (lower (fst kv)))
                                batch_pbr_keywords
                        && String.eqb (lower k) (lower (fst kv)))
             generated (k, v) Hin).
  - now rewrite orb_true_r.
  - cbn [fst]. now rewrite Hkw, String.eqb_refl.
Qed.

Lemma batch_keyword_overwritten_witness :
  dict_get "$basetexture"
    (smart_merge_batch_params "mat" scenario_A_existing scenario_A_generated)
  = Some "new/path".
Proof.
  apply (batch_keyword_overwritten "mat" scenario_A_existing scenario_A_generated).
  - unfold dict_wf. simpl. repeat constructor; simpl; intuition discriminate.
  - simpl. tauto.
  - reflexivity.
Defined.

(** X4. In [smart_merge_batch_vmt] a key of the existing dict keeps its
    value, whatever the generated dict holds, when its name holds none
    of the batch keywords and no existing entry whose key equals it up
    to case has a value that mentions the material name. The generated
    values play no part, unlike in the single-material merge. *)
Theorem batch_custom_preserved (batch_material : string)
    (existing generated : dict) (k v : string) :
  dict_get k existing = Some v ->
  existsb (fun keyword => contains keyword (lower k)) batch_pbr_keywords = false ->
  (forall k' v', In (k', v') existing -> same_key_ci k k' = true ->
                 contains (lower batch_material) (lower v') = false) ->
  dict_get k (smart_merge_batch_params batch_material existing generated) = Some v.
Proof.
  intros Hget Hkw Href. unfold smart_merge_batch_params.
  rewrite fold_keeps; [assumption | apply batch_merge_writes |].
  intros m kv _ Hk. rewrite Hk. rewrite batch_pbr_mem.
  rewrite !existsb_false; [| |].
  - rewrite dict_get_mem, Hget. reflexivity.
  - intros [k' v'] Hin. cbn [fst snd].
    destruct (String.eqb (lower k) (lower k')) eqn:E; [|apply andb_false_r].
    apply String.eqb_eq in E. rewrite <- E, Hkw. reflexivity.
  - intros [k' v'] Hin. cbn [fst snd].
    destruct (String.eqb (lower k) (lower k')) eqn:E; [|apply andb_false_r].
    now rewrite (Href k' v').
Qed.

Lemma batch_custom_preserved_witness :
  dict_get "$surfaceprop"
    (smart_merge_batch_params "mat" scenario_A_existing
       [("$basetexture", "mat_basetexture"); ("$surfaceprop", "default")])
  = Some "metal".
Proof.
  apply (batch_custom_preserved "mat" scenario_A_existing).
  - reflexivity.
  - reflexivity.
  - intros k' v' [H|[H|[]]] Hci; inversion H; subst;
      first [reflexivity | discriminate Hci].
Defined.

(** X5. [merge_vmt_files] takes from the generated dict exactly the
    entries whose lower-cased name is in its fixed list; every other
    name keeps the value of the original file, or stays absent. The
    keys of the original come first, in their order, then the listed
    names that are new. *)
Theorem merge_vmt_params_lookup (original generated : dict) (k : string) :
  dict_wf generated ->
  dict_get k (merge_vmt_params original generated)
  = match dict_get k generated with
    | Some v => if set_mem (lower k) merge_pbr_params then Some v
                else dict_get k original
    | None => dict_get k original
    end
  /\ map fst (merge_vmt_params original generated)
     = (map fst original
        ++ filter (fun n => set_mem (lower n) merge_pbr_params
                            && negb (dict_mem n original))
                  (map fst generated))%list.
Proof.
  intros Hwf. unfold merge_vmt_params. split.
  - now rewrite (fold_cond_get (fun kv => set_mem (lower (fst kv)) merge_pbr_params)).
  - rewrite (fold_cond_keys (fun kv => set_mem (lower (fst kv)) merge_pbr_params)
               original) by auto.
    now rewrite <- filter_map_fst.
Qed.

Lemma merge_vmt_params_lookup_witness :
  dict_get "$envmapmask"
    (merge_vmt_params scenario_A_existing
       [("$basetexture", "new/path"); ("$envmapmask", "mat_envmask")])
  = None
  /\ map fst (merge_vmt_params scenario_A_existing
                [("$basetexture", "new/path"); ("$envmapmask", "mat_envmask")])
     = ["$basetexture"; "$surfaceprop"].
Proof.
  apply (merge_vmt_params_lookup scenario_A_existing
           [("$basetexture", "new/path"); ("$envmapmask", "mat_envmask")]
           "$envmapmask").
  unfold dict_wf. simpl. repeat constructor; simpl; intuition discriminate.
Defined.

(** * Further properties of the parsers and writers *)

(** ** Lines and quotes *)

Lemma split_on_nonempty (c : ascii) (s : string) : split_on c s <> [].
Proof.
  induction s as [|a s IH]; cbn [split_on]; [discriminate|].
  destruct (Ascii.eqb a c); [discriminate|].
  destruct (split_on c s); discriminate.
Qed.

Lemma join_split (c : ascii) (s : string) : join c (split_on c s) = s.
Proof.
  induction s as [|a s IH]; cbn [split_on]; [reflexivity|].
  destruct (Ascii.eqb a c) eqn:E.
  - apply Ascii.eqb_eq in E. subst a.
    destruct (split_on c s) as [|h t] eqn:Es; [now apply split_on_nonempty in Es|].
    cbn [join append] in *. now rewrite IH.
  - destruct (split_on c s) as [|h t] eqn:Es; [now apply split_on_nonempty in Es|].
    destruct t as [|h' t']; cbn [join append] in *; now rewrite <- IH.
Qed.

Lemma split_on_no_char (c : ascii) (s x : string) :
  In x (split_on c s) -> has_char c x = false.
Proof.
  revert x. induction s as [|a s IH]; cbn [split_on]; intros x Hin.
  - destruct Hin as [<-|[]]. reflexivity.
  - destruct (Ascii.eqb a c) eqn:E.
    + destruct Hin as [<-|Hin]; [reflexivity | now apply IH].
    + destruct (split_on c s) as [|h t] eqn:Es.
      * destruct Hin as [<-|[]]. cbn. now rewrite E.
      * destruct Hin as [<-|Hin].
        -- cbn [has_char]. rewrite E. apply IH. now left.
        -- apply IH. now right.
Qed.

Lemma split_on_length (c : ascii) (s : string) :
  Z.of_nat (List.length (split_on c s)) = (1 + count_char c s)%Z.
Proof.
  induction s as [|a s IH]; cbn [split_on count_char]; [reflexivity|].
  destruct (Ascii.eqb a c).
  - cbn [List.length]. rewrite Nat2Z.inj_succ. lia.
  - destruct (split_on c s) as [|h t] eqn:Es; [now apply split_on_nonempty in Es|].
    cbn [List.length] in *. lia.
Qed.

Lemma has_char_tabs (n : nat) : has_char dquote (tabs n) = false.
Proof. induction n as [|n IH]; [reflexivity | exact IH]. Qed.

Lemma tabs_one_line (n : nat) : has_char newline (tabs n) = false.
Proof. induction n as [|n IH]; [reflexivity | exact IH]. Qed.

Lemma plain_app (a b : string) :
  plain a = true -> plain b = true -> plain (a ++ b) = true.
Proof.
  unfold plain. intros Ha Hb. rewrite !has_char_app.
  apply andb_true_iff in Ha. apply andb_true_iff in Hb.
  destruct Ha as [Ha1 Ha2], Hb as [Hb1 Hb2].
  destruct (has_char dquote a), (has_char dquote b),
    (has_char newline a), (has_char newline b); try discriminate; reflexivity.
Qed.

(** A name and a value between quotes, any text without quotes between
    them, any text after them. *)
Lemma quoted_pair_parses (k sep v rest : string) :
  has_char dquote k = false -> has_char dquote sep = false ->
  has_char dquote v = false ->
  _parse_vmt_line
    (String dquote (k ++ String dquote (sep ++ String dquote (v ++ String dquote rest))))
  = Some (k, v).
Proof.
  intros Hk Hs Hv. unfold _parse_vmt_line. cbn [split_on].
  rewrite Ascii.eqb_refl.
  rewrite (split_on_first dquote k _ Hk), (split_on_first dquote sep _ Hs),
    (split_on_first dquote v _ Hv).
  reflexivity.
Qed.

Lemma quoted_pair_is_param (k tail : string) :
  startswith "$" k = true ->
  is_param_line (String dquote (k ++ String dquote tail)) = true.
Proof.
  destruct k as [|a k']; cbn [startswith]; [discriminate|].
  intros H. apply andb_true_iff in H. destruct H as [Ha _].
  apply Ascii.eqb_eq in Ha. subst a.
  unfold is_param_line. cbn [append startswith drop].
  rewrite !Ascii.eqb_refl. cbn [andb].
  rewrite has_char_app. cbn [has_char]. rewrite Ascii.eqb_refl.
  cbn [orb]. apply orb_true_r.
Qed.

Lemma template_line_shape (k sep v : string) :
  String tab (quoted k) ++ sep ++ quoted v
  = String tab
      (String dquote (k ++ String dquote (sep ++ String dquote (v ++ chr dquote)))).
Proof. unfold quoted. cbn [append]. now rewrite app_chr_assoc. Qed.

Lemma strip_template_line (k sep v : string) :
  strip (String tab (quoted k) ++ sep ++ quoted v)
  = String dquote (k ++ String dquote (sep ++ String dquote (v ++ chr dquote))).
Proof.
  rewrite template_line_shape. unfold strip.
  change (lstrip (String tab ?s)) with (lstrip s).
  cbn [lstrip]. change (is_space dquote) with false. cbv iota.
  replace (String dquote
             (k ++ String dquote (sep ++ String dquote (v ++ chr dquote))))
    with ((String dquote (k ++ String dquote (sep ++ String dquote v)))
          ++ chr dquote).
  - now apply rstrip_ends_solid.
  - cbn [append]. f_equal. rewrite str_app_assoc. cbn [append]. f_equal. f_equal.
    now rewrite str_app_assoc.
Qed.

Lemma standard_line_template (params : dict) (k sep v : string) :
  startswith "$" k = true -> plain k = true -> plain v = true ->
  has_char dquote sep = false ->
  standard_line params (String tab (quoted k) ++ sep ++ quoted v)
  = dict_set k v params.
Proof.
  intros Hs Hk Hv Hsep.
  apply plain_spec in Hk. apply plain_spec in Hv.
  unfold standard_line. rewrite strip_template_line.
  rewrite quoted_pair_is_param by assumption.
  unfold chr. now rewrite quoted_pair_parses by tauto.
Qed.

Lemma standard_line_kv (params : dict) (k v : string) :
  startswith "$" k = true -> plain k = true -> plain v = true ->
  standard_line params (kv_line k v) = dict_set k v params.
Proof. intros. now apply (standard_line_template params k " " v). Qed.

Lemma standard_line_tab (params : dict) (k v : string) (n : nat) :
  startswith "$" k = true -> plain k = true -> plain v = true ->
  standard_line params (tab_line k n v) = dict_set k v params.
Proof.
  intros. apply (standard_line_template params k (tabs n) v); auto.
  apply has_char_tabs.
Qed.

Lemma template_line_one_line (k sep v : string) :
  plain k = true -> plain v = true -> has_char newline sep = false ->
  has_char newline (String tab (quoted k) ++ sep ++ quoted v) = false.
Proof.
  intros Hk Hv Hsep. apply plain_spec in Hk. apply plain_spec in Hv.
  rewrite template_line_shape.
  cbn [has_char]. rewrite has_char_app. cbn [has_char].
  rewrite has_char_app. cbn [has_char]. rewrite has_char_app. cbn [has_char chr].
  destruct Hk as [_ ->]. destruct Hv as [_ ->]. rewrite Hsep. reflexivity.
Qed.

(** ** Lines that are no parameter lines *)

Lemma standard_line_unquoted (params : dict) (raw : string) :
  startswith (String dquote "$") (strip raw) = false ->
  standard_line params raw = params.
Proof.
  intros H. unfold standard_line, is_param_line. now rewrite H.
Qed.

Lemma fold_standard_unquoted (lines : list string) (params : dict) :
  (forall l, In l lines -> startswith (String dquote "$") (strip l) = false) ->
  fold_left standard_line lines params = params.
Proof.
  revert params. induction lines as [|l t IH]; intros params H; [reflexivity|].
  cbn [fold_left]. rewrite standard_line_unquoted by (apply H; now left).
  apply IH. intros l' Hl'. apply H. now right.
Qed.

Lemma fold_patch_block_unquoted (kw : string) (lines : list string)
    (st : bool * dict) :
  (forall l, In l lines -> startswith (String dquote "$") (strip l) = false) ->
  snd (fold_left (patch_block_line kw) lines st) = snd st.
Proof.
  revert st. induction lines as [|l t IH]; intros st H; [reflexivity|].
  cbn [fold_left]. rewrite IH by (intros l' Hl'; apply H; now right).
  destruct st as [b params]. unfold patch_block_line.
  rewrite (H l) by now left. rewrite andb_false_r.
  destruct (contains kw (lower (strip l)) && has_char lbrace (strip l)); [reflexivity|].
  destruct (b && has_char rbrace (strip l)); reflexivity.
Qed.

(** X6. Names must be quoted: a document none of whose lines starts,
    once stripped, with a double quote followed by a dollar sign gives
    no parameter at all, in [parse_vmt_params] (both formats), in
    [parse_vmt_parameters] and in the batch parser without Patch
    support. Documents that write a bare [$basetexture] are of this
    kind. *)
Theorem unquoted_names_are_not_read (vmt_content : string)
    (batch : L4D2BatchProcessingThread)
    (fs : string -> option string) (path_of : string -> string)
    (path_join : string -> string -> string) (path_parent : string -> string)
    (depth : nat) (vmt_file_path : string) :
  (forall l, In l (split_on newline vmt_content) ->
             startswith (String dquote "$") (strip l) = false) ->
  patch_format_enabled batch = false ->
  parse_vmt_params vmt_content = []
  /\ parse_vmt_parameters vmt_content = []
  /\ parse_batch_vmt_params fs path_of path_join path_parent batch depth
       vmt_content vmt_file_path = [].
Proof.
  intros H Hoff. repeat split.
  - unfold parse_vmt_params, parse_patch_vmt, parse_standard_vmt.
    destruct (looks_like_patch vmt_content).
    + now rewrite !fold_patch_block_unquoted.
    + now apply fold_standard_unquoted.
  - now apply fold_standard_unquoted.
  - unfold parse_batch_vmt_params, parse_batch_with. rewrite Hoff.
    now apply fold_standard_unquoted.
Qed.

Lemma unquoted_names_are_not_read_witness :
  parse_vmt_params (generate_l4d2_vmt mat_thread) = []
  /\ parse_vmt_parameters (generate_l4d2_vmt mat_thread) = []
  /\ parse_batch_vmt_params (fun _ => None) same_path simple_join same_path
       L4D2BatchProcessingThread_init 1 (generate_l4d2_vmt mat_thread) EmptyString
     = [].
Proof.
  apply (unquoted_names_are_not_read (generate_l4d2_vmt mat_thread)
           L4D2BatchProcessingThread_init).
  - intros l Hin. vm_compute in Hin.
    repeat (destruct Hin as [<-|Hin]; [vm_compute; reflexivity|]).
    destruct Hin.
  - reflexivity.
Defined.

(** ** The text of the single-material generator *)

Lemma strip_dollar_line (rest : string) :
  startswith (String dquote "$") (strip (String tab (String "$" rest))) = false.
Proof.
  unfold strip. cbn [lstrip].
  change (is_space tab) with true. change (is_space "$") with false. cbv iota.
  cbn [rstrip]. change (is_space "$") with false.
  destruct (rstrip rest); reflexivity.
Qed.

Lemma l4d2_template_lines (material_path : string) :
  has_char newline material_path = false ->
  forall l, In l (split_on newline (l4d2_vmt_template material_path)) ->
            startswith (String dquote "$") (strip l) = false.
Proof.
  intros Hp l Hin. unfold l4d2_vmt_template, text_of in Hin.
  rewrite split_on_join in Hin.
  - cbn [In] in Hin.
    repeat (destruct Hin as [<-|Hin];
            [first [reflexivity | cbn [tabs append]; apply strip_dollar_line]|]).
    destruct Hin.
  - intros x Hx. cbn [In] in Hx.
    repeat (destruct Hx as [<-|Hx];
            [first [reflexivity
                   | unfold quoted; cbn [tabs append has_char];
                     rewrite !has_char_app; cbn [has_char];
                     rewrite Hp; reflexivity]|]).
    destruct Hx.
Qed.

(** X7. With an existing file, the single-material thread writes the
    parameters of that file and nothing else: the text of
    [generate_l4d2_vmt_with_materials_detection] carries its names
    without quotes, so the parser finds no generated parameter and the
    merge has nothing to add or update. Without an existing file, or when
    the file cannot be read, the generated text is written as it is. *)
Theorem single_run_keeps_existing_only (self : L4D2ProcessingThread)
    (fs : string -> option string) (detected : bool * string) :
  has_char newline (material_name self) = false ->
  has_char newline (snd detected) = false ->
  run_vmt_content self fs detected
  = if truthy (existing_vmt_path self) then
      match fs (existing_vmt_path self) with
      | Some existing_content =>
          build_vmt_from_params (parse_vmt_params existing_content)
      | None => generate_l4d2_vmt_with_materials_detection self detected
      end
    else generate_l4d2_vmt_with_materials_detection self detected.
Proof.
  intros Hname Hrel. unfold run_vmt_content.
  destruct (truthy (existing_vmt_path self)); [|reflexivity].
  unfold smart_merge_vmt, smart_merge_vmt_try.
  destruct (fs (existing_vmt_path self)) as [existing_content|]; [|reflexivity].
  assert (Hgen : parse_vmt_params
                   (generate_l4d2_vmt_with_materials_detection self detected) = []).
  { destruct detected as [is_in relative_path].
    unfold generate_l4d2_vmt_with_materials_detection.
    unfold parse_vmt_params, parse_patch_vmt, parse_standard_vmt.
    assert (Hpath : has_char newline
                      (if is_in && truthy relative_path
                       then relative_path ++ "/" ++ material_name self
                       else material_name self) = false).
    { destruct (is_in && truthy relative_path); [|assumption].
      cbn [snd] in Hrel. rewrite !has_char_app, Hrel, Hname. reflexivity. }
    destruct (looks_like_patch _).
    - now rewrite !fold_patch_block_unquoted by now apply l4d2_template_lines.
    - apply fold_standard_unquoted. now apply l4d2_template_lines. }
  rewrite Hgen. reflexivity.
Qed.

Lemma single_run_keeps_existing_only_witness :
  run_vmt_content mat_thread
    (one_file "mat.vmt" (standard_text scenario_A_existing)) (true, "models/x")
  = build_vmt_from_params scenario_A_existing.
Proof.
  apply (single_run_keeps_existing_only mat_thread
           (one_file "mat.vmt" (standard_text scenario_A_existing)) (true, "models/x"));
    reflexivity.
Defined.

(** ** The text of the batch generator *)

Lemma standard_line_blank (params : dict) : standard_line params (tabs 1) = params.
Proof. reflexivity. Qed.

Lemma batch_template_parses (bt n pe : string) :
  plain bt = true -> plain n = true -> plain pe = true ->
  fold_left standard_line (split_on newline (batch_l4d2_template bt n pe)) []
  = batch_l4d2_params bt n pe.
Proof.
  intros Hbt Hn Hpe. unfold batch_l4d2_template, text_of.
  rewrite split_on_join.
  - cbn [fold_left].
    change (standard_line [] (quoted "VertexLitGeneric")) with (@nil (string * string)).
    change (standard_line [] "{") with (@nil (string * string)).
    repeat first [ rewrite standard_line_kv by first [reflexivity | assumption]
                 | rewrite standard_line_blank ].
    unfold standard_line. change (is_param_line (strip "}")) with false.
    reflexivity.
  - intros x Hx. cbn [In] in Hx.
    repeat (destruct Hx as [<-|Hx];
            [first [reflexivity
                   | apply template_line_one_line;
                     first [reflexivity | assumption]]|]).
    destruct Hx.
Qed.

(** X8. The text of the batch generator is read back in full: for a
    material name and a directory prefix without quotes and line
    breaks, the batch parser of a thread without Patch support, which is
    every thread that [__init__] builds, gets the fifteen parameters of
    the template, in the order of the template. *)
Theorem batch_generated_is_read (material_name materials_prefix : string)
    (batch : L4D2BatchProcessingThread)
    (fs : string -> option string) (path_of : string -> string)
    (path_join : string -> string -> string) (path_parent : string -> string)
    (depth : nat) (vmt_file_path : string) :
  plain material_name = true -> plain materials_prefix = true ->
  patch_format_enabled batch = false ->
  parse_batch_vmt_params fs path_of path_join path_parent batch depth
    (generate_batch_l4d2_vmt_with_materials_detection material_name materials_prefix)
    vmt_file_path
  = batch_l4d2_params
      (materials_prefix ++ material_name ++ "_basetexture")
      (materials_prefix ++ material_name ++ "_normal")
      (materials_prefix ++ material_name ++ "_phongexponent")
  /\ parse_batch_vmt_params fs path_of path_join path_parent batch depth
       (generate_batch_l4d2_vmt material_name) vmt_file_path
     = batch_l4d2_params
         (material_name ++ "_basetexture")
         (material_name ++ "_normal")
         (material_name ++ "_phongexponent").
Proof.
  intros Hname Hprefix Hoff.
  unfold parse_batch_vmt_params, parse_batch_with. rewrite Hoff. cbn [andb].
  unfold generate_batch_l4d2_vmt_with_materials_detection, generate_batch_l4d2_vmt.
  split.
  - rewrite batch_template_parses; [reflexivity| | |]; repeat apply plain_app; auto.
  - rewrite batch_template_parses; [reflexivity| | |]; repeat apply plain_app; auto.
Qed.

Lemma batch_generated_is_read_witness :
  parse_batch_vmt_params (fun _ => None) same_path simple_join same_path
    L4D2BatchProcessingThread_init 1
    (generate_batch_l4d2_vmt_with_materials_detection "mat" "models/x/") "mat.vmt"
  = batch_l4d2_params "models/x/mat_basetexture" "models/x/mat_normal"
      "models/x/mat_phongexponent"
  /\ parse_batch_vmt_params (fun _ => None) same_path simple_join same_path
       L4D2BatchProcessingThread_init 1 (generate_batch_l4d2_vmt "mat") "mat.vmt"
     = batch_l4d2_params "mat_basetexture" "mat_normal" "mat_phongexponent".
Proof.
  apply (batch_generated_is_read "mat" "models/x/" L4D2BatchProcessingThread_init);
    reflexivity.
Defined.

(** ** Repeated names in a document *)

Lemma fold_set_get (l m : dict) (k : string) :
  dict_get k (fold_left (fun acc kv => dict_set (fst kv) (snd kv) acc) l m)
  = match dict_get k (rev l) with
    | Some v => Some v
    | None => dict_get k m
    end.
Proof.
  induction l as [|[k' v'] t IH] using rev_ind; [reflexivity|].
  rewrite fold_left_app, rev_app_distr. cbn [fold_left rev app dict_get fst snd].
  destruct (String.eqb k' k) eqn:E.
  - apply String.eqb_eq in E. subst k'. apply dict_get_set_same.
  - rewrite dict_get_set_other; [exact IH|].
    intros ->. now rewrite String.eqb_refl in E.
Qed.

Lemma first_names_seen (s1 s2 : list string) (l : dict) :
  (forall x, existsb (String.eqb x) s1 = existsb (String.eqb x) s2) ->
  first_names s1 l = first_names s2 l.
Proof.
  revert s1 s2. induction l as [|[k v] t IH]; intros s1 s2 H; [reflexivity|].
  cbn [first_names]. rewrite (H k).
  destruct (existsb (String.eqb k) s2); [now apply IH|].
  f_equal. apply IH. intros x. cbn [existsb]. now rewrite H.
Qed.

Lemma existsb_eqb_keys (k : string) (m : dict) :
  existsb (String.eqb k) (map fst m) = dict_mem k m.
Proof.
  induction m as [|[k' v'] t IH]; [reflexivity|].
  cbn [map fst existsb dict_mem]. rewrite IH. now rewrite String.eqb_sym.
Qed.

Lemma fold_set_keys (l m : dict) :
  map fst (fold_left (fun acc kv => dict_set (fst kv) (snd kv) acc) l m)
  = (map fst m ++ first_names (map fst m) l)%list.
Proof.
  revert m. induction l as [|[k v] t IH]; intros m.
  - cbn. now rewrite app_nil_r.
  - cbn [fold_left first_names fst snd]. rewrite IH, dict_set_keys.
    rewrite existsb_eqb_keys.
    destruct (dict_mem k m) eqn:E; [reflexivity|].
    rewrite <- app_assoc. cbn [app]. do 2 f_equal.
    apply first_names_seen. intros x.
    rewrite existsb_app. cbn [existsb]. rewrite orb_false_r. apply orb_comm.
Qed.

Lemma fold_kv_lines (params acc : dict) :
  serializable params = true ->
  fold_left standard_line (map (fun kv => kv_line (fst kv) (snd kv)) params) acc
  = fold_left (fun a kv => dict_set (fst kv) (snd kv) a) params acc.
Proof.
  revert acc. induction params as [|[k v] t IH]; intros acc H; [reflexivity|].
  cbn [serializable forallb fst snd] in H. andb_hyps.
  cbn [map fold_left fst snd].
  rewrite standard_line_kv by assumption.
  apply IH. assumption.
Qed.

Lemma kv_lines_one_line (params : dict) (x : string) :
  serializable params = true ->
  In x (map (fun kv => kv_line (fst kv) (snd kv)) params) ->
  has_char newline x = false.
Proof.
  induction params as [|[k v] t IH]; intros H Hin; [destruct Hin|].
  cbn [serializable forallb fst snd] in H. andb_hyps.
  destruct Hin as [<-|Hin]; [|now apply IH].
  cbn [fst snd]. now apply template_line_one_line.
Qed.

(** X9. When a Standard document names a parameter on several lines,
    [parse_standard_vmt] binds the name to the value of its last line
    and keeps the name at the place of its first line. *)
Theorem last_value_first_place (lines : dict) (k : string) :
  serializable lines = true ->
  dict_get k (parse_standard_vmt (standard_text lines)) = dict_get k (rev lines)
  /\ map fst (parse_standard_vmt (standard_text lines)) = first_names [] lines.
Proof.
  intros Hser.
  assert (E : parse_standard_vmt (standard_text lines)
              = fold_left (fun a kv => dict_set (fst kv) (snd kv) a) lines []).
  { unfold parse_standard_vmt, standard_text, text_of.
    change ([quoted "VertexLitGeneric"; "{"]
            ++ map (fun kv => kv_line (fst kv) (snd kv)) lines ++ ["}"])%list
      with (quoted "VertexLitGeneric"
            :: ("{" :: map (fun kv => kv_line (fst kv) (snd kv)) lines ++ ["}"]))%list.
    rewrite split_on_join.
    - cbn [fold_left].
      change (standard_line [] (quoted "VertexLitGeneric")) with (@nil (string * string)).
      change (standard_line [] "{") with (@nil (string * string)).
      rewrite fold_left_app, fold_kv_lines by assumption.
      cbn [fold_left]. unfold standard_line.
      change (is_param_line (strip "}")) with false. reflexivity.
    - intros x [<-|[<-|Hin]]; [reflexivity | reflexivity |].
      apply in_app_or in Hin. destruct Hin as [Hin|[<-|[]]]; [|reflexivity].
      now apply (kv_lines_one_line lines). }
  rewrite E. split.
  - rewrite fold_set_get. now destruct (dict_get k (rev lines)).
  - now rewrite fold_set_keys.
Qed.

Lemma last_value_first_place_witness :
  dict_get "$phong"
    (parse_standard_vmt
       (standard_text [("$phong", "1"); ("$basetexture", "x"); ("$phong", "0")]))
  = Some "0"
  /\ map fst
       (parse_standard_vmt
          (standard_text [("$phong", "1"); ("$basetexture", "x"); ("$phong", "0")]))
     = ["$phong"; "$basetexture"].
Proof.
  apply (last_value_first_place
           [("$phong", "1"); ("$basetexture", "x"); ("$phong", "0")] "$phong").
  reflexivity.
Defined.

(** ** The two line helpers of the batch thread *)

Lemma count_char_nonneg (c : ascii) (s : string) : (0 <= count_char c s)%Z.
Proof.
  induction s as [|a s IH]; cbn [count_char]; [lia|].
  destruct (Ascii.eqb a c); lia.
Qed.

Lemma count_char_absent (c : ascii) (s : string) :
  has_char c s = false -> count_char c s = 0%Z.
Proof.
  induction s as [|a s IH]; cbn [count_char has_char]; [reflexivity|].
  destruct (Ascii.eqb a c); cbn [orb]; [discriminate|].
  intros H. now rewrite IH.
Qed.

Lemma count_char_zero (c : ascii) (s : string) :
  count_char c s = 0%Z -> has_char c s = false.
Proof.
  induction s as [|a s IH]; cbn [count_char has_char]; [reflexivity|].
  assert (Hn := count_char_nonneg c s).
  destruct (Ascii.eqb a c); cbn [orb]; intros H; [lia|].
  apply IH. lia.
Qed.

Lemma quoted_app (k tail : string) :
  quoted k ++ tail = String dquote (k ++ String dquote tail).
Proof. unfold quoted. cbn [append]. now rewrite app_chr_assoc. Qed.

(** X10. [_parse_vmt_line] fails exactly on a line with fewer than three
    double quotes. When it succeeds the name and the value hold no
    quote; and it reads back a quoted name and a quoted value whatever
    text without quotes stands before and between them and whatever
    text follows. *)
Theorem parse_vmt_line_spec (line pre k sep v rest : string) :
  ((count_char dquote line < 3)%Z -> _parse_vmt_line line = None)
  /\ ((3 <= count_char dquote line)%Z ->
      exists name value,
        _parse_vmt_line line = Some (name, value)
        /\ has_char dquote name = false /\ has_char dquote value = false)
  /\ (has_char dquote pre = false -> has_char dquote k = false ->
      has_char dquote sep = false -> has_char dquote v = false ->
      _parse_vmt_line (pre ++ quoted k ++ sep ++ quoted v ++ rest) = Some (k, v)).
Proof.
  assert (Hlen := split_on_length dquote line).
  repeat split.
  - intros Hc. unfold _parse_vmt_line.
    destruct (4 <=? List.length (split_on dquote line))%nat eqn:E; [|reflexivity].
    apply Nat.leb_le in E. lia.
  - intros Hc. unfold _parse_vmt_line.
    assert (E : (4 <= List.length (split_on dquote line))%nat) by lia.
    rewrite (proj2 (Nat.leb_le _ _) E).
    exists (nth 1 (split_on dquote line) EmptyString),
      (nth 3 (split_on dquote line) EmptyString).
    split; [reflexivity|].
    split; apply (split_on_no_char dquote line); apply nth_In; lia.
  - intros Hpre Hk Hsep Hv.
    rewrite quoted_app, quoted_app.
    unfold _parse_vmt_line.
    rewrite (split_on_first dquote pre _ Hpre), (split_on_first dquote k _ Hk),
      (split_on_first dquote sep _ Hsep), (split_on_first dquote v _ Hv).
    reflexivity.
Qed.

Lemma parse_vmt_line_spec_witness :
  _parse_vmt_line ("  " ++ quoted "$envmap" ++ "   " ++ quoted "env_cubemap"
                   ++ " // reflections")
  = Some ("$envmap", "env_cubemap").
Proof.
  apply (parse_vmt_line_spec EmptyString "  " "$envmap" "   " "env_cubemap"
           " // reflections"); reflexivity.
Defined.

Lemma after_char_first (c : ascii) (pre r : string) :
  has_char c pre = false -> after_char c (pre ++ String c r) = Some r.
Proof.
  induction pre as [|a pre IH]; cbn [append after_char has_char].
  - now rewrite Ascii.eqb_refl.
  - destruct (Ascii.eqb a c); cbn [orb]; [discriminate | exact IH].
Qed.

Lemma before_char_first (c : ascii) (v r : string) :
  has_char c v = false -> before_char c (v ++ String c r) = Some v.
Proof.
  induction v as [|a v IH]; cbn [append before_char has_char].
  - now rewrite Ascii.eqb_refl.
  - destruct (Ascii.eqb a c); cbn [orb]; [discriminate|].
    intros H. now rewrite IH.
Qed.

Lemma before_char_absent (c : ascii) (s : string) :
  has_char c s = false -> before_char c s = None.
Proof.
  induction s as [|a s IH]; cbn [before_char has_char]; [reflexivity|].
  destruct (Ascii.eqb a c); cbn [orb]; [discriminate|].
  intros H. now rewrite IH.
Qed.

Lemma after_char_count (c : ascii) (s r : string) :
  after_char c s = Some r -> count_char c s = (1 + count_char c r)%Z.
Proof.
  induction s as [|a s IH]; cbn [after_char count_char]; [discriminate|].
  destruct (Ascii.eqb a c).
  - now intros [= ->].
  - intros H. rewrite (IH H). lia.
Qed.

(** X11. [_extract_quoted_value] returns the text between the first two
    double quotes of the line, and the empty text for a line with fewer
    than two quotes. *)
Theorem extract_quoted_value_spec (line pre v rest : string) :
  ((count_char dquote line < 2)%Z -> _extract_quoted_value line = EmptyString)
  /\ (has_char dquote pre = false -> has_char dquote v = false ->
      _extract_quoted_value (pre ++ quoted v ++ rest) = v).
Proof.
  split.
  - intros Hc. unfold _extract_quoted_value.
    destruct (after_char dquote line) as [r|] eqn:E; [|reflexivity].
    apply after_char_count in E.
    assert (Hn := count_char_nonneg dquote r).
    rewrite before_char_absent; [reflexivity|].
    apply count_char_zero. lia.
  - intros Hpre Hv. unfold _extract_quoted_value.
    rewrite quoted_app, (after_char_first dquote pre _ Hpre).
    now rewrite (before_char_first dquote v _ Hv).
Qed.

Lemma extract_quoted_value_spec_witness :
  _extract_quoted_value ("include " ++ quoted scenario_B_include ++ " // base")
  = scenario_B_include.
Proof.
  apply (extract_quoted_value_spec EmptyString "include " scenario_B_include
           " // base"); reflexivity.
Defined.

(** ** Adding the emissive block to a Standard document *)

Lemma last_index_some {A : Type} (p : A -> bool) (l : list A) (i : nat) :
  last_index p l = Some i ->
  (i < List.length l)%nat /\ forall x, In x (skipn (S i) l) -> p x = false.
Proof.
  revert i. induction l as [|a t IH]; cbn [last_index]; intros i H; [discriminate|].
  destruct (last_index p t) as [j|] eqn:E.
  - injection H as <-. destruct (IH j eq_refl) as [Hlt Hrest].
    split; [cbn; lia | exact Hrest].
  - destruct (p a); [|discriminate]. injection H as <-.
    split; [cbn; lia|].
    cbn [skipn]. clear IH. revert E. induction t as [|b t IHt]; cbn [last_index].
    + intros _ x [].
    + destruct (last_index p t) eqn:E'; [discriminate|].
      destruct (p b) eqn:Eb; [discriminate|].
      intros _ x [<-|Hin]; [assumption | now apply IHt].
Qed.

Lemma last_index_none {A : Type} (p : A -> bool) (l : list A) :
  last_index p l = None -> forallb (fun x => negb (p x)) l = true.
Proof.
  induction l as [|a t IH]; cbn [last_index forallb]; [reflexivity|].
  destruct (last_index p t); [discriminate|].
  destruct (p a); [discriminate|]. intros _. now rewrite IH.
Qed.

Lemma insignificant_is_unquoted (l : string) :
  significant_line l = false ->
  startswith (String dquote "$") (strip l) = false.
Proof.
  unfold significant_line. destruct (strip l) as [|a s]; [reflexivity|].
  cbn [truthy startswith andb].
  destruct (Ascii.eqb dquote a) eqn:E; [|reflexivity].
  apply Ascii.eqb_eq in E. subst a. discriminate.
Qed.

Lemma split_on_join_list (c : ascii) (lines : list string) :
  lines <> [] -> (forall x, In x lines -> has_char c x = false) ->
  split_on c (join c lines) = lines.
Proof.
  destruct lines as [|l t]; [congruence|]. intros _. apply split_on_join.
Qed.

Lemma emissive_config_parses (params : dict) (materials_path base_name : string) :
  plain materials_path = true -> plain base_name = true ->
  fold_left standard_line (emissive_config materials_path base_name) params
  = dict_update params (emissive_params materials_path base_name).
Proof.
  intros Hm Hb. unfold emissive_config, emissive_params, dict_update.
  cbn [fold_left fst snd].
  repeat rewrite standard_line_tab
    by first [reflexivity | repeat apply plain_app; first [assumption | reflexivity]].
  reflexivity.
Qed.

Lemma emissive_config_one_line (materials_path base_name x : string) :
  plain materials_path = true -> plain base_name = true ->
  In x (emissive_config materials_path base_name) -> has_char newline x = false.
Proof.
  intros Hm Hb Hin. unfold emissive_config in Hin. cbn [In] in Hin.
  repeat (destruct Hin as [<-|Hin];
          [first [reflexivity
                 | apply template_line_one_line;
                   first [reflexivity | apply tabs_one_line
                         | repeat apply plain_app; first [assumption | reflexivity]]]|]).
  destruct Hin.
Qed.

Lemma last_index_all_fail {A : Type} (p : A -> bool) (l : list A) :
  forallb (fun x => negb (p x)) l = true -> last_index p l = None.
Proof.
  induction l as [|a t IH]; cbn [last_index forallb]; [reflexivity|].
  intros H. apply andb_true_iff in H. destruct H as [Ha Ht].
  rewrite (IH Ht). apply negb_true_iff in Ha. now rewrite Ha.
Qed.

(** X12. [generate_standard_vmt_with_emissive] composes with the parser
    as a dict update: the document it writes parses to the parameters
    of the existing document updated with the eight emissive
    parameters, so every existing parameter survives and only the eight
    emissive names take new values. It writes nothing exactly when the
    existing text has no line other than blank lines, lines that start
    with a closing brace and comment lines: with such a text nothing is
    written, and with any other text a document is written. *)
Theorem emissive_is_an_update (existing_content materials_path base_name : string) :
  plain materials_path = true -> plain base_name = true ->
  (generate_standard_vmt_with_emissive existing_content materials_path base_name = None
   <-> forallb (fun l => negb (significant_line l))
               (split_on newline existing_content) = true)
  /\ (forallb (fun l => negb (significant_line l))
              (split_on newline existing_content) = false ->
      exists written,
        generate_standard_vmt_with_emissive existing_content materials_path base_name
        = Some written)
  /\ (forall written,
        generate_standard_vmt_with_emissive existing_content materials_path base_name
        = Some written ->
        parse_standard_vmt written
        = dict_update (parse_standard_vmt existing_content)
            (emissive_params materials_path base_name)).
Proof.
  intros Hm Hb. unfold generate_standard_vmt_with_emissive.
  destruct (last_index significant_line (split_on newline existing_content))
    as [i|] eqn:E.
  - split; [|split].
    + split; [discriminate|].
      intros Hall. apply last_index_all_fail in Hall. congruence.
    + intros _. eexists. reflexivity.
    + cbv zeta. set (out := join newline _).
      intros written Hw. assert (Hout : written = out) by congruence.
      subst written. unfold out. clear Hw out.
      destruct (last_index_some _ _ _ E) as [Hlt Hrest].
      set (lines := split_on newline existing_content) in *.
      assert (Htail : forall acc, fold_left standard_line (skipn (S i) lines) acc = acc).
      { intros acc. apply fold_standard_unquoted. intros l Hl.
        apply insignificant_is_unquoted. now apply Hrest. }
      assert (Hexisting : parse_standard_vmt existing_content
                          = fold_left standard_line (firstn (S i) lines) []).
      { unfold parse_standard_vmt. fold lines.
        rewrite <- (firstn_skipn (S i) lines) at 1.
        now rewrite fold_left_app, Htail. }
      unfold parse_standard_vmt at 1. rewrite split_on_join_list.
      * rewrite !fold_left_app, Htail, emissive_config_parses by assumption.
        now rewrite Hexisting.
      * intros Hnil. apply app_eq_nil in Hnil. destruct Hnil as [_ Hnil].
        apply app_eq_nil in Hnil. destruct Hnil as [Hnil _]. discriminate.
      * intros x Hx. apply in_app_or in Hx. destruct Hx as [Hx|Hx].
        -- apply (split_on_no_char newline existing_content).
           fold lines. rewrite <- (firstn_skipn (S i) lines). apply in_or_app. now left.
        -- apply in_app_or in Hx. destruct Hx as [Hx|Hx].
           ++ now apply (emissive_config_one_line materials_path base_name).
           ++ apply (split_on_no_char newline existing_content).
              fold lines. rewrite <- (firstn_skipn (S i) lines). apply in_or_app.
              now right.
  - assert (Hall := last_index_none _ _ E).
    split; [|split].
    + split; [intros _; exact Hall | reflexivity].
    + intros Hf. rewrite Hall in Hf. discriminate.
    + intros written Hw. discriminate.
Qed.

Lemma emissive_is_an_update_witness :
  (generate_standard_vmt_with_emissive
     (standard_text scenario_A_existing) "models/x" "mat" = None
   <-> forallb (fun l => negb (significant_line l))
               (split_on newline (standard_text scenario_A_existing)) = true)
  /\ (forallb (fun l => negb (significant_line l))
              (split_on newline (standard_text scenario_A_existing)) = false ->
      exists written,
        generate_standard_vmt_with_emissive
          (standard_text scenario_A_existing) "models/x" "mat" = Some written)
  /\ (forall written,
        generate_standard_vmt_with_emissive
          (standard_text scenario_A_existing) "models/x" "mat" = Some written ->
        parse_standard_vmt written
        = dict_update (parse_standard_vmt (standard_text scenario_A_existing))
            (emissive_params "models/x" "mat")).
Proof.
  apply (emissive_is_an_update (standard_text scenario_A_existing) "models/x" "mat");
    reflexivity.
Defined.

Example emissive_example :
  generate_standard_vmt_with_emissive
    (standard_text [("$basetexture", "x/old")]) "models/x" "mat"
  = Some (text_of
            ([quoted "VertexLitGeneric"; "{"; kv_line "$basetexture" "x/old"]
             ++ emissive_config "models/x" "mat" ++ ["}"]))
  /\ generate_standard_vmt_with_emissive (text_of ["}"; EmptyString; "// end"])
       "models/x" "mat" = None.
Proof. split; vm_compute; reflexivity. Qed.

(** ** What [_build_patch_vmt] leaves alone *)

Lemma build_patch_vmt_lines (original_content : string) (merged_params : dict) :
  _build_patch_vmt original_content merged_params
  = join newline (build_patch_result_lines original_content merged_params).
Proof. reflexivity. Qed.

Lemma build_patch_line_appends (st : patch_build) (line : string) :
  exists line',
    pb_lines (build_patch_line st line) = (pb_lines st ++ [line'])%list
    /\ (is_param_line (strip line) = false -> line' = line)
    /\ (pb_merged st = [] ->
        line' = line /\ pb_merged (build_patch_line st line) = []).
Proof.
  unfold build_patch_line.
  destruct (is_section_word (lower (strip line))).
  - exists line. cbn [pb_lines pb_merged]. auto.
  - destruct (is_param_line (strip line)) eqn:Ep.
    + rewrite andb_true_r.
      destruct ((if has_char rbrace line && _ && _ then None else pb_section st))
        as [sec|]; cbn [is_some andb];
        [|exists line; cbn [pb_lines pb_merged]; auto].
      destruct (1 <? _)%Z; [|exists line; cbn [pb_lines pb_merged]; auto].
      destruct (_parse_vmt_line (strip line)) as [[param_name old]|];
        [|exists line; cbn [pb_lines pb_merged]; auto].
      destruct (dict_get param_name (pb_merged st)) as [merged_value|] eqn:Eg;
        [|exists line; cbn [pb_lines pb_merged]; auto].
      destruct (truthy param_name);
        [|exists line; cbn [pb_lines pb_merged]; auto].
      eexists. cbn [pb_lines pb_merged]. split; [reflexivity|].
      split; [discriminate|].
      intros Hm. rewrite Hm in Eg. discriminate.
    + rewrite andb_false_r. cbn [andb].
      exists line. cbn [pb_lines pb_merged]. auto.
Qed.

Lemma build_patch_fold_keeps (lines : list string) (st : patch_build) (x : string) :
  In x (pb_lines st)
  \/ (In x lines /\ is_param_line (strip x) = false) ->
  In x (pb_lines (fold_left build_patch_line lines st)).
Proof.
  revert st. induction lines as [|l t IH]; intros st H.
  - destruct H as [H|[[] _]]. exact H.
  - cbn [fold_left]. apply IH.
    destruct (build_patch_line_appends st l) as [l' [Hl' [Hsame _]]].
    rewrite Hl'.
    destruct H as [H|[[<-|H] Hx]].
    + left. apply in_or_app. now left.
    + left. apply in_or_app. right. rewrite (Hsame Hx). now left.
    + right. now split.
Qed.

Lemma build_patch_fold_empty (lines : list string) (st : patch_build) :
  pb_merged st = [] ->
  pb_merged (fold_left build_patch_line lines st) = []
  /\ pb_lines (fold_left build_patch_line lines st) = (pb_lines st ++ lines)%list.
Proof.
  revert st. induction lines as [|l t IH]; intros st Hm.
  - cbn. now rewrite app_nil_r.
  - cbn [fold_left].
    destruct (build_patch_line_appends st l) as [l' [Hl' [_ Hempty]]].
    destruct (Hempty Hm) as [-> Hm'].
    destruct (IH _ Hm') as [H1 H2]. split; [exact H1|].
    rewrite H2, Hl', <- app_assoc. reflexivity.
Qed.

(** X13. [_build_patch_vmt] never drops or alters a line of the original
    document that is not a parameter line: the include line, the block
    keywords, the braces, comments and blank lines are all among the
    lines it writes. With no merged parameter it returns the original
    text unchanged. *)
Theorem build_patch_keeps_structure (original_content : string)
    (merged_params : dict) (line : string) :
  (In line (split_on newline original_content) ->
   is_param_line (strip line) = false ->
   In line (build_patch_result_lines original_content merged_params))
  /\ _build_patch_vmt original_content merged_params
     = join newline (build_patch_result_lines original_content merged_params)
  /\ _build_patch_vmt original_content [] = original_content.
Proof.
  repeat split.
  - intros Hin Hp. unfold build_patch_result_lines.
    set (st := fold_left build_patch_line _ _).
    assert (H : In line (pb_lines st)).
    { apply build_patch_fold_keeps. right. now split. }
    destruct (pb_merged st); [exact H|].
    destruct (pb_in_replace st); [|exact H].
    destruct (last_index _ (pb_lines st)) as [i|]; [|exact H].
    rewrite <- (firstn_skipn i (pb_lines st)) in H.
    apply in_app_or in H. apply in_or_app.
    destruct H as [H|H]; [now left|].
    right. apply in_or_app. now right.
  - unfold _build_patch_vmt.
    destruct (build_patch_fold_empty (split_on newline original_content)
                {| pb_level := 0%Z; pb_section := None; pb_in_replace := false;
                   pb_merged := []; pb_lines := [] |} eq_refl) as [H1 H2].
    rewrite H1, H2. cbn [pb_lines app]. apply join_split.
Qed.

Lemma build_patch_keeps_structure_witness :
  In (tabs 1 ++ "include " ++ quoted scenario_B_include)
     (build_patch_result_lines scenario_B_existing [("$basetexture", "x/new")]).
Proof.
  refine (proj1 (build_patch_keeps_structure scenario_B_existing
                   [("$basetexture", "x/new")]
                   (tabs 1 ++ "include " ++ quoted scenario_B_include)) _ _).
  - vm_compute. tauto.
  - reflexivity.
Defined.

(** ** Blocks that [parse_patch_vmt] does not see *)

Lemma patch_block_never_opens (kw : string) (lines : list string) (params : dict) :
  (forall l, In l lines ->
             contains kw (lower (strip l)) && has_char lbrace (strip l) = false) ->
  fold_left (patch_block_line kw) lines (false, params) = (false, params).
Proof.
  induction lines as [|l t IH]; intros H; [reflexivity|].
  cbn [fold_left]. unfold patch_block_line at 2.
  rewrite (H l) by now left. cbn [andb].
  apply IH. intros l' Hl'. apply H. now right.
Qed.

(** X14. [parse_patch_vmt] finds a replace or insert block only when the
    opening brace stands on the line of the keyword. A document in
    which no line holds such a keyword together with an opening brace
    gives no parameter, and [parse_vmt_params] returns the empty dict
    for it once it takes it for a Patch document. *)
Theorem patch_blocks_need_inline_brace (vmt_content : string) :
  (forall l, In l (split_on newline vmt_content) ->
             has_char lbrace (strip l) = false
             \/ (contains "replace" (lower (strip l)) = false
                 /\ contains "insert" (lower (strip l)) = false)) ->
  parse_patch_vmt vmt_content = []
  /\ (looks_like_patch vmt_content = true -> parse_vmt_params vmt_content = []).
Proof.
  intros H.
  assert (E : parse_patch_vmt vmt_content = []).
  { unfold parse_patch_vmt.
    rewrite (patch_block_never_opens "replace").
    - cbn [snd]. now rewrite (patch_block_never_opens "insert");
        [| intros l Hl; destruct (H l Hl) as [->|[_ ->]];
           [apply andb_false_r | reflexivity]].
    - intros l Hl. destruct (H l Hl) as [->|[-> _]];
        [apply andb_false_r | reflexivity]. }
  split; [exact E|].
  intros Hp. unfold parse_vmt_params. now rewrite Hp.
Qed.

Lemma patch_blocks_need_inline_brace_witness :
  parse_patch_vmt scenario_B_existing = []
  /\ (looks_like_patch scenario_B_existing = true ->
      parse_vmt_params scenario_B_existing = []).
Proof.
  apply (patch_blocks_need_inline_brace scenario_B_existing).
  intros l Hin. vm_compute in Hin.
  repeat (destruct Hin as [<-|Hin];
          [first [left; vm_compute; reflexivity
                 | right; vm_compute; split; reflexivity]|]).
  destruct Hin.
Defined.

(** ** Patch documents written by the night-glow thread *)

(** Proves that a template line with some variable parts does not hold
    a character, from the same fact about the parts. *)
Ltac no_char_in_line :=
  unfold tab_line, kv_line, quoted; cbn [tabs append];
  repeat first [rewrite has_char_app | progress cbn [has_char append]];
  repeat match goal with
         | H : has_char _ _ = false |- _ => rewrite H; clear H
         end;
  reflexivity.

Lemma has_char_lstrip (c : ascii) (s : string) :
  has_char c s = false -> has_char c (lstrip s) = false.
Proof.
  induction s as [|a s IH]; cbn [lstrip has_char]; [reflexivity|].
  intros H. apply orb_false_iff in H. destruct H as [Ha Hs].
  destruct (is_space a); [now apply IH|].
  cbn [has_char]. now rewrite Ha, Hs.
Qed.

Lemma has_char_rstrip (c : ascii) (s : string) :
  has_char c s = false -> has_char c (rstrip s) = false.
Proof.
  induction s as [|a s IH]; cbn [rstrip has_char]; [reflexivity|].
  intros H. apply orb_false_iff in H. destruct H as [Ha Hs].
  specialize (IH Hs).
  destruct (rstrip s) as [|b r].
  - destruct (is_space a); [reflexivity|]. cbn. now rewrite Ha.
  - cbn [has_char] in *. now rewrite Ha, IH.
Qed.

Lemma has_char_strip (c : ascii) (s : string) :
  has_char c s = false -> has_char c (strip s) = false.
Proof. intros H. unfold strip. now apply has_char_rstrip, has_char_lstrip. Qed.

Lemma new_patch_is_patch (materials_path base_name : string) :
  looks_like_patch (create_new_patch_vmt materials_path base_name) = true.
Proof. reflexivity. Qed.

Lemma new_patch_lines (materials_path base_name : string) :
  has_char newline materials_path = false -> has_char newline base_name = false ->
  split_on newline (create_new_patch_vmt materials_path base_name)
  = [ "patch"; "{";
      tabs 1 ++ "include" ++ tabs 2
      ++ quoted ("materials/" ++ materials_path ++ "/shader/vmt-base.vmt");
      tabs 1 ++ "insert"; tabs 1 ++ "{";
      tab_line "$EmissiveBlendEnabled" 6 "1";
      tab_line "$EmissiveBlendStrength" 6 "0.05";
      tab_line "$EmissiveBlendTexture" 6 "vgui/white";
      tab_line "$EmissiveBlendBaseTexture" 4 (materials_path ++ "/" ++ base_name ++ "_E");
      tab_line "$EmissiveBlendFlowTexture" 5 "vgui/white";
      tab_line "$EmissiveBlendTint" 7 "[ 1 1 1 ]";
      tab_line "$EmissiveBlendScrollVector" 5 "[ 0 0 ]";
      tabs 1 ++ "}"; tabs 1 ++ "replace"; tabs 1 ++ "{";
      tab_line "$basetexture" 6 (materials_path ++ "/" ++ base_name);
      tab_line "$selfillum" 6 "0";
      tabs 1 ++ "}"; "}" ].
Proof.
  intros Hm Hb. unfold create_new_patch_vmt, text_of. apply split_on_join.
  intros x Hx. cbn [In] in Hx.
  repeat (destruct Hx as [<-|Hx]; [first [reflexivity | no_char_in_line]|]).
  destruct Hx.
Qed.

Lemma new_patch_no_inline_brace (kw materials_path base_name : string) :
  kw = "replace" \/ kw = "insert" ->
  has_char newline materials_path = false -> has_char newline base_name = false ->
  has_char lbrace materials_path = false -> has_char lbrace base_name = false ->
  forall l, In l (split_on newline (create_new_patch_vmt materials_path base_name)) ->
            contains kw (lower (strip l)) && has_char lbrace (strip l) = false.
Proof.
  intros Hkw Hm Hb Hmb Hbb l Hin. rewrite new_patch_lines in Hin by assumption.
  cbn [In] in Hin.
  repeat (destruct Hin as [<-|Hin];
          [first [ destruct Hkw as [->| ->]; reflexivity
                 | rewrite (has_char_strip lbrace);
                   [apply andb_false_r | no_char_in_line] ]|]).
  destruct Hin.
Qed.

(** X15. Running the single-material thread over a material whose file
    was written by [create_new_patch_vmt] empties it: the parser sees
    neither the blocks of that document, whose braces stand on lines of
    their own, nor the unquoted names of the generated text, so the
    text written is a [VertexLitGeneric] document without parameters. *)
Theorem single_run_empties_new_patch (self : L4D2ProcessingThread)
    (detected : bool * string) (materials_path base_name : string) :
  truthy (existing_vmt_path self) = true ->
  has_char newline (material_name self) = false ->
  has_char newline (snd detected) = false ->
  has_char newline materials_path = false -> has_char newline base_name = false ->
  has_char lbrace materials_path = false -> has_char lbrace base_name = false ->
  parse_vmt_params (create_new_patch_vmt materials_path base_name) = []
  /\ run_vmt_content self
       (one_file (existing_vmt_path self)
          (create_new_patch_vmt materials_path base_name))
       detected
     = text_of [quoted "VertexLitGeneric"; "{"; "}"].
Proof.
  intros Hpath Hname Hrel Hm Hb Hmb Hbb.
  assert (E : parse_vmt_params (create_new_patch_vmt materials_path base_name) = []).
  { unfold parse_vmt_params. rewrite new_patch_is_patch. unfold parse_patch_vmt.
    rewrite (patch_block_never_opens "replace")
      by (apply new_patch_no_inline_brace; auto).
    cbn [snd].
    now rewrite (patch_block_never_opens "insert")
      by (apply new_patch_no_inline_brace; auto). }
  split; [exact E|].
  unfold run_vmt_content. rewrite Hpath.
  unfold smart_merge_vmt, smart_merge_vmt_try, one_file.
  rewrite String.eqb_refl, E.
  assert (Hgen : parse_vmt_params
                   (generate_l4d2_vmt_with_materials_detection self detected) = []).
  { destruct detected as [is_in relative_path].
    unfold generate_l4d2_vmt_with_materials_detection.
    unfold parse_vmt_params, parse_patch_vmt, parse_standard_vmt.
    assert (Hp : has_char newline
                   (if is_in && truthy relative_path
                    then relative_path ++ "/" ++ material_name self
                    else material_name self) = false).
    { destruct (is_in && truthy relative_path); [|assumption].
      cbn [snd] in Hrel. rewrite !has_char_app, Hrel, Hname. reflexivity. }
    destruct (looks_like_patch _).
    - now rewrite !fold_patch_block_unquoted by now apply l4d2_template_lines.
    - apply fold_standard_unquoted. now apply l4d2_template_lines. }
  rewrite Hgen. reflexivity.
Qed.

Lemma single_run_empties_new_patch_witness :
  parse_vmt_params (create_new_patch_vmt "models/x" "mat") = []
  /\ run_vmt_content mat_thread
       (one_file "mat.vmt" (create_new_patch_vmt "models/x" "mat")) (true, "models/x")
     = text_of [quoted "VertexLitGeneric"; "{"; "}"].
Proof.
  apply (single_run_empties_new_patch mat_thread (true, "models/x") "models/x" "mat");
    reflexivity.
Defined.


(** * The night-glow black list *)

Lemma lower_char_idem (c : ascii) : lower_char (lower_char c) = lower_char c.
Proof. destruct c as [[] [] [] [] [] [] [] []]; reflexivity. Qed.

Lemma lower_idem (s : string) : lower (lower s) = lower s.
Proof.
  induction s as [|c s IH]; cbn [lower]; [reflexivity|].
  now rewrite lower_char_idem, IH.
Qed.

Lemma contains_empty (s : string) : contains EmptyString s = true.
Proof. destruct s; reflexivity. Qed.

(** X16. [is_blacklisted] ignores the letter case of the file name and
    of the preset words; an empty preset word black-lists every file,
    whereas blank entries of the custom list are dropped: a custom list
    of blank entries only changes nothing. *)
Theorem blacklist_matching (filename : string) (preset_blacklist : list string)
    (custom_blacklist : string) :
  is_blacklisted (lower filename) (map lower preset_blacklist) custom_blacklist
  = is_blacklisted filename preset_blacklist custom_blacklist
  /\ (In EmptyString preset_blacklist ->
      is_blacklisted filename preset_blacklist custom_blacklist = true)
  /\ ((forall word, In word (split_on "," custom_blacklist) -> strip word = EmptyString) ->
      is_blacklisted filename preset_blacklist custom_blacklist
      = is_blacklisted filename preset_blacklist EmptyString).
Proof.
  repeat split.
  - unfold is_blacklisted. rewrite lower_idem.
    assert (E : existsb (fun word => contains (lower word) (lower filename))
                        (map lower preset_blacklist)
                = existsb (fun word => contains (lower word) (lower filename))
                          preset_blacklist).
    { induction preset_blacklist as [|w t IH]; cbn [map existsb]; [reflexivity|].
      now rewrite lower_idem, IH. }
    now rewrite E.
  - intros Hin. unfold is_blacklisted.
    rewrite (existsb_true _ preset_blacklist EmptyString Hin); [reflexivity|].
    apply contains_empty.
  - intros Hblank. unfold is_blacklisted.
    destruct (existsb _ preset_blacklist); [reflexivity|].
    destruct (truthy custom_blacklist); [|reflexivity].
    cbn [truthy].
    assert (E : filter (fun word => truthy (strip word))
                       (split_on "," custom_blacklist) = []).
    { induction (split_on "," custom_blacklist) as [|w t IH]; [reflexivity|].
      cbn [filter]. rewrite (Hblank w) by now left. cbn [truthy].
      apply IH. intros w' Hw'. apply Hblank. now right. }
    now rewrite E.
Qed.

Lemma blacklist_matching_witness :
  is_blacklisted "Eye_Glow.vtf" [EmptyString] " , " = true.
Proof.
  apply (proj1 (proj2 (blacklist_matching "Eye_Glow.vtf" [EmptyString] " , "))).
  left. reflexivity.
Defined.

(** * File-name similarity *)

Lemma length_list_ascii (s : string) :
  List.length (list_ascii_of_string s) = String.length s.
Proof. induction s as [|c s IH]; cbn; [reflexivity | now rewrite IH]. Qed.

Lemma row_fill_length (c : ascii) (s2 : list ascii) (diag : nat)
    (rest : list nat) (left : nat) :
  List.length rest = List.length s2 ->
  List.length (row_fill c s2 diag rest left) = List.length s2.
Proof.
  revert diag rest left. induction s2 as [|b s2 IH]; intros diag rest left H.
  - reflexivity.
  - destruct rest as [|up rest]; [discriminate|].
    cbn [row_fill List.length]. f_equal. apply IH. now injection H.
Qed.

Lemma next_row_length (s2 : list ascii) (prev : list nat) (c : ascii) :
  List.length prev = S (List.length s2) ->
  List.length (next_row s2 prev c) = S (List.length s2).
Proof.
  destruct prev as [|d rest]; [discriminate|]. intros H.
  cbn [next_row List.length]. f_equal. apply row_fill_length. now injection H.
Qed.

Lemma fold_rows_length (s2 l1 : list ascii) (row : list nat) :
  List.length row = S (List.length s2) ->
  List.length (fold_left (next_row s2) l1 row) = S (List.length s2).
Proof.
  revert row. induction l1 as [|c l1 IH]; intros row H; [exact H|].
  cbn [fold_left]. apply IH. now apply next_row_length.
Qed.

Lemma row_fill_bounded (c : ascii) (s2 : list ascii) (i j diag : nat)
    (rest : list nat) (left : nat) :
  row_bounded i j (diag :: rest) -> left <= Nat.min (S i) j ->
  row_bounded (S i) (S j) (row_fill c s2 diag rest left).
Proof.
  revert j diag rest left.
  induction s2 as [|b s2 IH]; intros j diag rest left Hrow Hleft; [exact I|].
  destruct rest as [|up rest]; [exact I|].
  cbn [row_fill]. cbn [row_bounded] in Hrow.
  destruct Hrow as [Hd [Hu Hrest]].
  assert (Hv : (if Ascii.eqb c b then diag + 1 else Nat.max up left)
               <= Nat.min (S i) (S j)) by (destruct (Ascii.eqb c b); lia).
  cbn [row_bounded]. split; [exact Hv|].
  apply IH; [|exact Hv]. cbn [row_bounded]. now split.
Qed.

Lemma next_row_bounded (s2 : list ascii) (i : nat) (prev : list nat) (c : ascii) :
  row_bounded i 0 prev -> row_bounded (S i) 0 (next_row s2 prev c).
Proof.
  destruct prev as [|d rest]; [intros _; exact I|]. intros H.
  cbn [next_row row_bounded]. split; [lia|].
  apply row_fill_bounded; [exact H | lia].
Qed.

Lemma zeros_bounded (i j k : nat) : row_bounded i j (repeat 0 k).
Proof.
  revert j. induction k as [|k IH]; intros j; [exact I|].
  cbn [repeat row_bounded]. split; [lia | apply IH].
Qed.

Lemma fold_rows_bounded (s2 l1 : list ascii) (i : nat) (row : list nat) :
  row_bounded i 0 row ->
  row_bounded (i + List.length l1) 0 (fold_left (next_row s2) l1 row).
Proof.
  revert i row. induction l1 as [|c l1 IH]; intros i row H.
  - cbn. now rewrite Nat.add_0_r.
  - cbn [fold_left List.length]. rewrite <- Nat.add_succ_comm.
    apply IH. now apply next_row_bounded.
Qed.

Lemma last_bounded (i j : nat) (row : list nat) :
  row_bounded i j row -> row <> [] ->
  last row 0 <= Nat.min i (j + List.length row - 1).
Proof.
  revert j. induction row as [|v t IH]; intros j H Hne; [congruence|].
  cbn [row_bounded] in H. destruct H as [Hv Ht].
  destruct t as [|w t'].
  - cbn. lia.
  - change (last (v :: w :: t') 0) with (last (w :: t') 0).
    specialize (IH (S j) Ht ltac:(discriminate)). cbn [List.length] in *. lia.
Qed.

Lemma lcs_length_bound (s1 s2 : string) :
  lcs_length s1 s2 <= Nat.min (String.length s1) (String.length s2).
Proof.
  unfold lcs_length.
  set (l1 := list_ascii_of_string s1). set (l2 := list_ascii_of_string s2).
  assert (Hb := fold_rows_bounded l2 l1 0 (repeat 0 (S (List.length l2)))
                  (zeros_bounded 0 0 _)).
  assert (Hl := fold_rows_length l2 l1 (repeat 0 (S (List.length l2)))
                  (repeat_length _ _)).
  set (row := fold_left (next_row l2) l1 _) in *.
  assert (Hne : row <> []) by (destruct row; [discriminate | discriminate]).
  assert (H := last_bounded _ _ _ Hb Hne).
  rewrite Hl in H. cbn [Nat.add] in H.
  unfold l1, l2 in H. rewrite !length_list_ascii in H. lia.
Qed.

Lemma row_fill_exact (s : list ascii) (c : ascii) (i : nat) (s2 : list ascii)
    (pre : list ascii) (diag : nat) (rest : list nat) (left : nat) :
  s = (pre ++ s2)%list -> nth_error s i = Some c ->
  row_exact i (List.length pre) (diag :: rest) ->
  left = Nat.min (S i) (List.length pre) ->
  row_exact (S i) (S (List.length pre)) (row_fill c s2 diag rest left).
Proof.
  revert pre diag rest left.
  induction s2 as [|b s2 IH]; intros pre diag rest left Hs Hc Hrow Hleft; [exact I|].
  destruct rest as [|up rest]; [exact I|].
  cbn [row_fill]. cbn [row_exact] in Hrow. destruct Hrow as [Hd [Hu Hrest]].
  assert (Hb : nth_error s (List.length pre) = Some b).
  { rewrite Hs, nth_error_app2 by lia. now rewrite Nat.sub_diag. }
  assert (Hv : (if Ascii.eqb c b then diag + 1 else Nat.max up left)
               = Nat.min (S i) (S (List.length pre))).
  { destruct (Ascii.eqb c b) eqn:E; [lia|].
    assert (i <> List.length pre).
    { intros ->. rewrite Hc in Hb. injection Hb as ->.
      now rewrite Ascii.eqb_refl in E. }
    lia. }
  cbn [row_exact]. split; [exact Hv|].
  specialize (IH (pre ++ [b])%list up rest
                 (if Ascii.eqb c b then diag + 1 else Nat.max up left)).
  rewrite length_app in IH. cbn [List.length] in IH.
  rewrite Nat.add_1_r in IH. apply IH.
  - now rewrite <- app_assoc.
  - exact Hc.
  - cbn [row_exact]. now split.
  - exact Hv.
Qed.

Lemma fold_rows_exact (s done todo : list ascii) (row : list nat) :
  s = (done ++ todo)%list ->
  row_exact (List.length done) 0 row ->
  row_exact (List.length s) 0 (fold_left (next_row s) todo row).
Proof.
  revert done row. induction todo as [|c todo IH]; intros done row Hs Hrow.
  - cbn. rewrite Hs, app_nil_r. exact Hrow.
  - cbn [fold_left].
    apply (IH (done ++ [c])%list).
    + now rewrite <- app_assoc.
    + rewrite length_app. cbn [List.length]. rewrite Nat.add_1_r.
      destruct row as [|d rest]; [exact I|].
      cbn [next_row row_exact]. split; [lia|].
      apply (row_fill_exact s c (List.length done) s [] d rest 0).
      * reflexivity.
      * rewrite Hs, nth_error_app2 by lia. now rewrite Nat.sub_diag.
      * exact Hrow.
      * cbn. lia.
Qed.

Lemma zeros_exact (j k : nat) : row_exact 0 j (repeat 0 k).
Proof.
  revert j. induction k as [|k IH]; intros j; [exact I|].
  cbn [repeat row_exact]. split; [reflexivity | apply IH].
Qed.

Lemma last_exact (i j : nat) (row : list nat) :
  row_exact i j row -> row <> [] ->
  last row 0 = Nat.min i (j + List.length row - 1).
Proof.
  revert j. induction row as [|v t IH]; intros j H Hne; [congruence|].
  cbn [row_exact] in H. destruct H as [Hv Ht].
  destruct t as [|w t'].
  - cbn. rewrite Hv. f_equal. lia.
  - change (last (v :: w :: t') 0) with (last (w :: t') 0).
    rewrite (IH (S j) Ht ltac:(discriminate)). cbn [List.length]. f_equal. lia.
Qed.

Lemma lcs_length_self (s : string) : lcs_length s s = String.length s.
Proof.
  unfold lcs_length. set (l := list_ascii_of_string s).
  assert (He := fold_rows_exact l [] l (repeat 0 (S (List.length l)))
                  eq_refl (zeros_exact 0 _)).
  assert (Hl := fold_rows_length l l (repeat 0 (S (List.length l)))
                  (repeat_length _ _)).
  set (row := fold_left (next_row l) l _) in *.
  assert (Hne : row <> []) by (destruct row; discriminate).
  rewrite (last_exact _ _ _ He Hne), Hl.
  unfold l. rewrite length_list_ascii. lia.
Qed.

(** X17. The table of [lcs_length] never holds more than the length of
    the shorter text, and for a text against itself it ends with the
    length of the text. So the quotient that
    [calculate_filename_similarity] returns, [lcs_length] of the two
    normalized names over the length of the longer one, is at most 1,
    and it is 1 for two non-empty names that normalize to the same text,
    such as names that differ only in letter case. *)
Theorem similarity_bounds (name1 name2 : string) :
  lcs_length (normalize_name name1) (normalize_name name2)
  <= Nat.min (String.length (normalize_name name1))
             (String.length (normalize_name name2))
  /\ (normalize_name name1 = normalize_name name2 ->
      lcs_length (normalize_name name1) (normalize_name name2)
      = Nat.max (String.length (normalize_name name1))
                (String.length (normalize_name name2)))
  /\ (lower name1 = lower name2 -> normalize_name name1 = normalize_name name2).
Proof.
  repeat split.
  - apply lcs_length_bound.
  - intros ->. rewrite lcs_length_self. lia.
  - intros H. unfold normalize_name. now rewrite H.
Qed.

Lemma similarity_bounds_witness :
  lcs_length (normalize_name "Body_D") (normalize_name "body_normal")
  = Nat.max (String.length (normalize_name "Body_D"))
            (String.length (normalize_name "body_normal")).
Proof.
  apply (similarity_bounds "Body_D" "body_normal"). reflexivity.
Defined.

Example lcs_length_example :
  lcs_length "body_hair" "body_skin" = 6
  /\ normalize_name "Body_Diffuse" = "body"
  /\ normalize_name "x_diff_normal" = "x".
Proof. repeat split; reflexivity. Qed.

(** * What the parsers return can be written and read back *)

Lemma split_keeps_absent (c d : ascii) (s x : string) :
  has_char c s = false -> In x (split_on d s) -> has_char c x = false.
Proof.
  revert x. induction s as [|a s IH]; cbn [split_on has_char]; intros x H Hin.
  - destruct Hin as [<-|[]]. reflexivity.
  - apply orb_false_iff in H. destruct H as [Ha Hs].
    destruct (Ascii.eqb a d).
    + destruct Hin as [<-|Hin]; [reflexivity | now apply IH].
    + destruct (split_on d s) as [|h t] eqn:Es.
      * destruct Hin as [<-|[]]. cbn. now rewrite Ha.
      * destruct Hin as [<-|Hin].
        -- cbn [has_char]. rewrite Ha. apply IH; [assumption | now left].
        -- apply IH; [assumption | now right].
Qed.

Lemma quoted_dollar_head (line : string) :
  startswith (String dquote "$") line = true ->
  exists rest, line = String dquote (String "$" rest).
Proof.
  intros H. destruct line as [|a [|b rest]]; cbn [startswith] in H.
  - discriminate.
  - rewrite andb_false_r in H. discriminate.
  - apply andb_true_iff in H. destruct H as [Ha H].
    apply andb_true_iff in H. destruct H as [Hb _].
    apply Ascii.eqb_eq in Ha. apply Ascii.eqb_eq in Hb. subst. now exists rest.
Qed.

Lemma parsed_entry_is_plain (line k v : string) :
  startswith (String dquote "$") line = true ->
  has_char newline line = false ->
  _parse_vmt_line line = Some (k, v) ->
  startswith "$" k && plain k && plain v = true.
Proof.
  intros Hs Hnl Hp.
  assert (Hparts : forall x, In x (split_on dquote line) ->
                             has_char dquote x = false /\ has_char newline x = false).
  { intros x Hx. split; [now apply (split_on_no_char dquote line)|].
    now apply (split_keeps_absent newline dquote line). }
  destruct (quoted_dollar_head _ Hs) as [rest E].
  unfold _parse_vmt_line in Hp.
  destruct (4 <=? List.length (split_on dquote line))%nat eqn:El; [|discriminate].
  apply Nat.leb_le in El. injection Hp as Hk Hv.
  assert (Hk' : In k (split_on dquote line)) by (rewrite <- Hk; apply nth_In; lia).
  assert (Hv' : In v (split_on dquote line)) by (rewrite <- Hv; apply nth_In; lia).
  destruct (Hparts k Hk') as [Hk1 Hk2]. destruct (Hparts v Hv') as [Hv1 Hv2].
  unfold plain. rewrite Hk1, Hk2, Hv1, Hv2. cbn [negb andb].
  rewrite andb_true_r. rewrite <- Hk, E. cbn [split_on].
  change (Ascii.eqb dquote dquote) with true.
  change (Ascii.eqb "$" dquote) with false. cbv iota.
  destruct (split_on dquote rest); reflexivity.
Qed.

Lemma serializable_set (k v : string) (d : dict) :
  serializable d = true -> startswith "$" k && plain k && plain v = true ->
  serializable (dict_set k v d) = true.
Proof.
  intros Hd Hkv. induction d as [|[k' v'] t IH]; cbn [dict_set serializable forallb].
  - cbn [fst snd]. now rewrite Hkv.
  - cbn [serializable forallb fst snd] in Hd.
    apply andb_true_iff in Hd. destruct Hd as [Hh Ht].
    destruct (String.eqb k' k) eqn:E; cbn [forallb fst snd].
    + apply String.eqb_eq in E. subst k'. rewrite Hkv. exact Ht.
    + rewrite Hh. now apply IH.
Qed.

Lemma standard_line_serializable (params : dict) (raw : string) :
  has_char newline raw = false -> serializable params = true ->
  serializable (standard_line params raw) = true.
Proof.
  intros Hnl H. unfold standard_line.
  destruct (is_param_line (strip raw)) eqn:Ep; [|assumption].
  destruct (_parse_vmt_line (strip raw)) as [[k v]|] eqn:El; [|assumption].
  apply serializable_set; [assumption|].
  apply (parsed_entry_is_plain (strip raw)); [| now apply has_char_strip | assumption].
  unfold is_param_line in Ep. apply andb_true_iff in Ep. tauto.
Qed.

Lemma patch_block_line_serializable (kw : string) (st : bool * dict) (raw : string) :
  has_char newline raw = false -> serializable (snd st) = true ->
  serializable (snd (patch_block_line kw st raw)) = true.
Proof.
  destruct st as [b params]. unfold patch_block_line. cbn [snd]. intros Hnl H.
  destruct (contains kw (lower (strip raw)) && has_char lbrace (strip raw)); [assumption|].
  destruct (b && has_char rbrace (strip raw)); [assumption|].
  destruct (b && startswith (String dquote "$") (strip raw)) eqn:Ep; [|assumption].
  destruct (_parse_vmt_line (strip raw)) as [[k v]|] eqn:El; cbn [snd]; [|assumption].
  apply serializable_set; [assumption|].
  apply (parsed_entry_is_plain (strip raw)); [| now apply has_char_strip | assumption].
  apply andb_true_iff in Ep. tauto.
Qed.

Lemma fold_standard_serializable (lines : list string) (params : dict) :
  (forall l, In l lines -> has_char newline l = false) ->
  serializable params = true ->
  serializable (fold_left standard_line lines params) = true.
Proof.
  revert params. induction lines as [|l t IH]; intros params Hl H; [assumption|].
  cbn [fold_left]. apply IH; [intros l' Hl'; apply Hl; now right|].
  apply standard_line_serializable; [apply Hl; now left | assumption].
Qed.

Lemma fold_patch_block_serializable (kw : string) (lines : list string)
    (st : bool * dict) :
  (forall l, In l lines -> has_char newline l = false) ->
  serializable (snd st) = true ->
  serializable (snd (fold_left (patch_block_line kw) lines st)) = true.
Proof.
  revert st. induction lines as [|l t IH]; intros st Hl H; [assumption|].
  cbn [fold_left]. apply IH; [intros l' Hl'; apply Hl; now right|].
  apply patch_block_line_serializable; [apply Hl; now left | assumption].
Qed.

Lemma parse_vmt_params_serializable (vmt_content : string) :
  serializable (parse_vmt_params vmt_content) = true.
Proof.
  unfold parse_vmt_params, parse_patch_vmt, parse_standard_vmt.
  destruct (looks_like_patch vmt_content).
  - apply fold_patch_block_serializable; [apply split_on_no_char|].
    apply fold_patch_block_serializable; [apply split_on_no_char | reflexivity].
  - apply fold_standard_serializable; [apply split_on_no_char | reflexivity].
Qed.

Lemma serializable_entry (d : dict) (k v : string) :
  serializable d = true -> In (k, v) d ->
  startswith "$" k && plain k && plain v = true.
Proof.
  unfold serializable. intros H Hin.
  apply (proj1 (forallb_forall _ d) H (k, v) Hin).
Qed.

Lemma fold_writes_serializable f (l m : dict) :
  writes_only f -> serializable l = true -> serializable m = true ->
  serializable (fold_left f l m) = true.
Proof.
  intros Hf. revert m. induction l as [|[k v] t IH]; intros m Hl Hm; [assumption|].
  cbn [fold_left].
  cbn [serializable forallb fst snd] in Hl.
  apply andb_true_iff in Hl. destruct Hl as [Hkv Ht].
  apply IH; [exact Ht|].
  destruct (Hf m (k, v)) as [->| ->]; [assumption|].
  now apply serializable_set.
Qed.

(** X18. Every dict that [parse_vmt_params], [parse_vmt_parameters] or
    the batch parser without Patch support returns can be written on
    parameter lines: each name starts with a dollar sign, and no name
    and no value holds a double quote or a line break. *)
Theorem parsed_dicts_are_serializable (vmt_content : string)
    (batch : L4D2BatchProcessingThread)
    (fs : string -> option string) (path_of : string -> string)
    (path_join : string -> string -> string) (path_parent : string -> string)
    (depth : nat) (vmt_file_path : string) :
  patch_format_enabled batch = false ->
  serializable (parse_vmt_params vmt_content) = true
  /\ serializable (parse_vmt_parameters vmt_content) = true
  /\ serializable
       (parse_batch_vmt_params fs path_of path_join path_parent batch depth
          vmt_content vmt_file_path) = true.
Proof.
  intros Hoff. repeat split.
  - apply parse_vmt_params_serializable.
  - apply fold_standard_serializable; [apply split_on_no_char | reflexivity].
  - unfold parse_batch_vmt_params, parse_batch_with. rewrite Hoff.
    apply fold_standard_serializable; [apply split_on_no_char | reflexivity].
Qed.

Lemma parsed_dicts_are_serializable_witness :
  serializable (parse_vmt_params scenario_B_existing_inline) = true
  /\ serializable (parse_vmt_parameters scenario_B_existing_inline) = true
  /\ serializable
       (parse_batch_vmt_params (fun _ => None) same_path simple_join same_path
          L4D2BatchProcessingThread_init 1 scenario_B_existing_inline "mat.vmt") = true.
Proof.
  apply (parsed_dicts_are_serializable scenario_B_existing_inline
           L4D2BatchProcessingThread_init).
  reflexivity.
Defined.

(** X19. What [smart_merge_vmt] writes is read back exactly: for every
    existing file and every generated text, the Standard parser reads
    the merged parameters, same names, values and order, from the text
    written; [parse_vmt_params] does so too unless it takes the text
    written for a Patch document. *)
Theorem merged_text_reads_back (self : L4D2ProcessingThread)
    (existing_content generated_vmt : string) :
  let merged :=
    smart_merge_params self (parse_vmt_params existing_content)
      (parse_vmt_params generated_vmt) in
  smart_merge_vmt self (one_file (existing_vmt_path self) existing_content)
    generated_vmt = build_vmt_from_params merged
  /\ parse_standard_vmt (build_vmt_from_params merged) = merged
  /\ (looks_like_patch (build_vmt_from_params merged) = false ->
      parse_vmt_params (build_vmt_from_params merged) = merged).
Proof.
  intros merged.
  assert (Hwf : dict_wf merged).
  { unfold merged, smart_merge_params.
    apply fold_writes_wf; [apply smart_merge_writes | apply parse_vmt_params_wf]. }
  assert (Hser : serializable merged = true).
  { unfold merged, smart_merge_params.
    apply fold_writes_serializable;
      [apply smart_merge_writes | apply parse_vmt_params_serializable
      | apply parse_vmt_params_serializable]. }
  assert (Hrt : parse_standard_vmt (build_vmt_from_params merged) = merged).
  { unfold parse_standard_vmt, build_vmt_from_params.
    now apply standard_round_trip. }
  repeat split.
  - unfold smart_merge_vmt, smart_merge_vmt_try, one_file.
    now rewrite String.eqb_refl.
  - exact Hrt.
  - intros Hstd. unfold parse_vmt_params. now rewrite Hstd.
Qed.

Lemma merged_text_reads_back_witness :
  parse_vmt_params
    (build_vmt_from_params
       (smart_merge_params mat_thread
          (parse_vmt_params (standard_text scenario_A_existing))
          (parse_vmt_params (standard_text scenario_A_generated))))
  = smart_merge_params mat_thread
      (parse_vmt_params (standard_text scenario_A_existing))
      (parse_vmt_params (standard_text scenario_A_generated)).
Proof.
  apply (proj2 (proj2 (merged_text_reads_back mat_thread
                         (standard_text scenario_A_existing)
                         (standard_text scenario_A_generated)))).
  vm_compute. reflexivity.
Defined.

(** * One material of a batch run *)

Lemma batch_params_wf (bt n pe : string) : dict_wf (batch_l4d2_params bt n pe).
Proof.
  unfold dict_wf, batch_l4d2_params. cbn [map fst].
  repeat (constructor; [cbn [In]; intuition discriminate|]). constructor.
Qed.

Lemma batch_params_serializable (bt n pe : string) :
  plain bt = true -> plain n = true -> plain pe = true ->
  serializable (batch_l4d2_params bt n pe) = true.
Proof.
  intros Hbt Hn Hpe. unfold serializable, batch_l4d2_params.
  cbn [forallb fst snd]. rewrite Hbt, Hn, Hpe. reflexivity.
Qed.

(** X20. One material of a batch run. The thread that [__init__] builds
    writes a Standard document whose parameters are the merge of the
    parameters of the original file with the fifteen generated ones.
    Every generated parameter whose name holds a batch keyword has its
    generated value there, every name of the original file is still
    there, and the document is read back as exactly these parameters. *)
Theorem batch_run_result (material_name materials_prefix existing_content : string)
    (fs : string -> option string) (path_of : string -> string)
    (path_join : string -> string -> string) (path_parent : string -> string)
    (depth : nat) (vmt_file_path : string) :
  plain material_name = true -> plain materials_prefix = true ->
  let generated :=
    batch_l4d2_params
      (materials_prefix ++ material_name ++ "_basetexture")
      (materials_prefix ++ material_name ++ "_normal")
      (materials_prefix ++ material_name ++ "_phongexponent") in
  let merged :=
    smart_merge_batch_params material_name
      (parse_vmt_parameters existing_content) generated in
  smart_merge_batch_vmt fs path_of path_join path_parent
    L4D2BatchProcessingThread_init depth existing_content
    (generate_batch_l4d2_vmt_with_materials_detection material_name materials_prefix)
    material_name vmt_file_path
  = build_vmt_from_params merged
  /\ parse_standard_vmt (build_vmt_from_params merged) = merged
  /\ (forall k v, In (k, v) generated ->
        existsb (fun keyword => contains keyword (lower k)) batch_pbr_keywords = true ->
        dict_get k merged = Some v)
  /\ (forall k, dict_mem k (parse_vmt_parameters existing_content) = true ->
                dict_mem k merged = true).
Proof.
  intros Hname Hprefix generated merged.
  assert (Hbt : plain (materials_prefix ++ material_name ++ "_basetexture") = true)
    by (repeat apply plain_app; auto).
  assert (Hn : plain (materials_prefix ++ material_name ++ "_normal") = true)
    by (repeat apply plain_app; auto).
  assert (Hpe : plain (materials_prefix ++ material_name ++ "_phongexponent") = true)
    by (repeat apply plain_app; auto).
  assert (Hgwf : dict_wf generated) by apply batch_params_wf.
  assert (Hgser : serializable generated = true)
    by now apply batch_params_serializable.
  assert (Hewf : dict_wf (parse_vmt_parameters existing_content))
    by apply parse_vmt_parameters_wf.
  assert (Heser : serializable (parse_vmt_parameters existing_content) = true)
    by (apply fold_standard_serializable; [apply split_on_no_char | reflexivity]).
  repeat split.
  - unfold smart_merge_batch_vmt, parse_batch_vmt_params, parse_batch_with.
    cbn [patch_format_enabled L4D2BatchProcessingThread_init patch_format_checkbox andb].
    unfold generate_batch_l4d2_vmt_with_materials_detection.
    now rewrite batch_template_parses by assumption.
  - unfold parse_standard_vmt, build_vmt_from_params. apply standard_round_trip.
    + unfold merged, smart_merge_batch_params.
      apply fold_writes_wf; [apply batch_merge_writes | assumption].
    + unfold merged, smart_merge_batch_params.
      apply fold_writes_serializable; [apply batch_merge_writes | assumption | assumption].
  - intros k v Hin Hkw. unfold merged, smart_merge_batch_params.
    apply fold_writes_new; [apply batch_merge_writes | assumption | assumption |].
    intros m. cbn [fst snd]. rewrite batch_pbr_mem.
    rewrite (existsb_true
               (fun kv => existsb (fun keyword => contains keyword (lower (fst kv)))
                                  batch_pbr_keywords
                          && String.eqb (lower k) (lower (fst kv)))
               generated (k, v) Hin).
    + now rewrite orb_true_r.
    + cbn [fst]. now rewrite Hkw, String.eqb_refl.
  - intros k Hk. apply dict_mem_In. unfold merged, smart_merge_batch_params.
    rewrite (fold_cond_keys _ (parse_vmt_parameters existing_content)) by auto.
    apply in_or_app. left. now apply dict_mem_In.
Qed.

Lemma batch_run_result_witness :
  smart_merge_batch_vmt (fun _ => None) same_path simple_join same_path
    L4D2BatchProcessingThread_init 1 (standard_text scenario_A_existing)
    (generate_batch_l4d2_vmt_with_materials_detection "mat" "models/x/")
    "mat" "mat.vmt"
  = build_vmt_from_params
      (smart_merge_batch_params "mat"
         (parse_vmt_parameters (standard_text scenario_A_existing))
         (batch_l4d2_params "models/x/mat_basetexture" "models/x/mat_normal"
            "models/x/mat_phongexponent")).
Proof.
  apply (batch_run_result "mat" "models/x/" (standard_text scenario_A_existing)
           (fun _ => None) same_path simple_join same_path 1 "mat.vmt");
    reflexivity.
Defined.


(** * Merging a second time *)

Lemma fold_cond_fixed (w : string * string -> bool) (l m : dict) :
  (forall kv, In kv l -> w kv = true -> dict_get (fst kv) m = Some (snd kv)) ->
  fold_left (fun m kv => if w kv then dict_set (fst kv) (snd kv) m else m) l m = m.
Proof.
  induction l as [|kv t IH]; intros H; [reflexivity|].
  cbn [fold_left].
  assert (E : (if w kv then dict_set (fst kv) (snd kv) m else m) = m).
  { destruct (w kv) eqn:Ew; [|reflexivity].
    apply dict_set_id. apply H; [now left | assumption]. }
  rewrite E. apply IH. intros kv' Hin. apply H. now right.
Qed.

Lemma same_key_ci_sym (a b : string) : same_key_ci a b = same_key_ci b a.
Proof. unfold same_key_ci. apply String.eqb_sym. Qed.

Lemma ci_unique (d : dict) (k v k' v' : string) :
  has_ci_duplicate d = false -> In (k, v) d -> In (k', v') d ->
  same_key_ci k k' = true -> (k, v) = (k', v').
Proof.
  induction d as [|[k0 v0] t IH]; intros Hd Hin Hin' Hci; [destruct Hin|].
  cbn [has_ci_duplicate] in Hd. apply orb_false_iff in Hd. destruct Hd as [Hhead Htail].
  assert (Hno : forall x y, In (x, y) t -> same_key_ci k0 x = false).
  { intros x y Hxy.
    destruct (same_key_ci k0 x) eqn:E; [|reflexivity].
    rewrite (existsb_true (fun kv => same_key_ci k0 (fst kv)) t (x, y) Hxy E) in Hhead.
    discriminate. }
  destruct Hin as [Heq|Hin], Hin' as [Heq'|Hin'].
  - congruence.
  - injection Heq as <- <-. rewrite (Hno k' v' Hin') in Hci. discriminate.
  - injection Heq' as <- <-. rewrite same_key_ci_sym, (Hno k v Hin) in Hci.
    discriminate.
  - now apply IH.
Qed.

Lemma merge_with_wf lname fixed (existing generated : dict) :
  dict_wf existing -> dict_wf (merge_with lname fixed existing generated).
Proof. intros H. unfold merge_with. apply fold_writes_wf; [apply fold_cond_writes | exact H]. Qed.

Lemma merge_with_twice lname fixed (existing generated : dict) :
  dict_wf existing -> dict_wf generated -> has_ci_duplicate generated = false ->
  merge_with lname fixed (merge_with lname fixed existing generated) generated
  = merge_with lname fixed existing generated.
Proof.
  intros Hewf Hgwf Hci.
  set (merged := merge_with lname fixed existing generated).
  assert (Hmwf : dict_wf merged) by now apply merge_with_wf.
  assert (Hget : forall x,
             dict_get x merged
             = match dict_get x generated with
               | Some g => if ref_or_fixed lname fixed existing (lower x)
                              || negb (dict_mem x existing)
                           then Some g else dict_get x existing
               | None => dict_get x existing
               end).
  { intros x. unfold merged, merge_with.
    now rewrite (fold_cond_get
                   (fun kv => ref_or_fixed lname fixed existing (lower (fst kv))
                              || negb (dict_mem (fst kv) existing))). }
  unfold merge_with at 1. fold merged.
  apply (fold_cond_fixed
           (fun kv => ref_or_fixed lname fixed merged (lower (fst kv))
                      || negb (dict_mem (fst kv) merged))).
  intros [k v] Hin Hw2. cbn [fst snd] in *.
  assert (Hg : dict_get k generated = Some v) by now apply dict_wf_get.
  rewrite Hget, Hg.
  destruct (ref_or_fixed lname fixed existing (lower k) || negb (dict_mem k existing))
    eqn:Hw1; [reflexivity|].
  exfalso.
  apply orb_false_iff in Hw1. destruct Hw1 as [Hcls Hmem].
  apply negb_false_iff in Hmem.
  assert (Hmem2 : dict_mem k merged = true).
  { rewrite dict_get_mem, Hget, Hg, Hcls, Hmem. cbn [orb negb].
    rewrite <- dict_get_mem. exact Hmem. }
  rewrite Hmem2 in Hw2. cbn [negb] in Hw2. rewrite orb_false_r in Hw2.
  unfold ref_or_fixed in Hw2, Hcls.
  apply orb_false_iff in Hcls. destruct Hcls as [Hrefs Hfixed].
  rewrite Hfixed, orb_false_r in Hw2.
  apply existsb_exists in Hw2. destruct Hw2 as [[k' v'] [Hin' Hc]].
  cbn [fst snd] in Hc. apply andb_true_iff in Hc. destruct Hc as [Hname Heq].
  assert (Hget' := dict_wf_get k' v' merged Hmwf Hin').
  rewrite Hget in Hget'.
  assert (Hfrom_existing : dict_get k' existing = Some v' -> False).
  { intros He. apply dict_get_In in He.
    rewrite (existsb_true _ existing (k', v') He) in Hrefs; [discriminate|].
    cbn [fst snd]. now rewrite Hname, Heq. }
  destruct (dict_get k' generated) as [g|] eqn:Eg'; [|now apply Hfrom_existing].
  destruct (ref_or_fixed lname fixed existing (lower k') || negb (dict_mem k' existing))
    eqn:Hw1'; [|now apply Hfrom_existing].
  injection Hget' as ->.
  apply dict_get_In in Eg'.
  assert (Hsame : (k, v) = (k', v')) by (apply (ci_unique generated); assumption).
  injection Hsame as <- <-.
  unfold ref_or_fixed in Hw1'. rewrite Hrefs, Hfixed, Hmem in Hw1'. discriminate.
Qed.

Lemma smart_merge_params_with (self : L4D2ProcessingThread) (existing generated : dict) :
  smart_merge_params self existing generated
  = merge_with (lower (material_name self))
      (fun x =>
         existsb (fun kv => contains (lower (material_name self)) (lower (snd kv))
                            && String.eqb x (lower (fst kv))) generated
         || existsb (fun kv => existsb (fun keyword => contains keyword (lower (fst kv)))
                                       pbr_semantic_keywords
                               && String.eqb x (lower (fst kv))) generated
         || existsb (fun kv => set_mem (lower (fst kv)) common_pbr_params
                               && String.eqb x (lower (fst kv))) generated)
      existing generated.
Proof.
  rewrite smart_merge_params_cond. unfold merge_with. apply fold_left_same.
  intros m kv. unfold ref_or_fixed. rewrite identify_pbr_mem.
  now rewrite !orb_assoc.
Qed.

Lemma smart_merge_batch_params_with (name : string) (existing generated : dict) :
  smart_merge_batch_params name existing generated
  = merge_with (lower name)
      (fun x =>
         existsb (fun kv => existsb (fun keyword => contains keyword (lower (fst kv)))
                                    batch_pbr_keywords
                            && String.eqb x (lower (fst kv))) generated)
      existing generated.
Proof.
  unfold smart_merge_batch_params, merge_with. apply fold_left_same.
  intros m kv. unfold ref_or_fixed. now rewrite batch_pbr_mem.
Qed.

(** X21. Merging the same generated parameters a second time changes
    nothing: for an existing dict and a generated dict in which no two
    names are equal up to case, the result of [smart_merge_vmt], and of
    [smart_merge_batch_vmt], merged once more with the same generated
    dict is that result again. *)
Theorem merge_twice_is_merge_once (self : L4D2ProcessingThread)
    (batch_material : string) (existing generated : dict) :
  dict_wf existing -> dict_wf generated -> has_ci_duplicate generated = false ->
  smart_merge_params self (smart_merge_params self existing generated) generated
  = smart_merge_params self existing generated
  /\ smart_merge_batch_params batch_material
       (smart_merge_batch_params batch_material existing generated) generated
     = smart_merge_batch_params batch_material existing generated.
Proof.
  intros He Hg Hci. split.
  - rewrite (smart_merge_params_with self existing generated).
    rewrite smart_merge_params_with. now apply merge_with_twice.
  - rewrite (smart_merge_batch_params_with batch_material existing generated).
    rewrite smart_merge_batch_params_with. now apply merge_with_twice.
Qed.

Lemma merge_twice_is_merge_once_witness :
  smart_merge_params mat_thread
    (smart_merge_params mat_thread scenario_A_existing scenario_A_generated)
    scenario_A_generated
  = smart_merge_params mat_thread scenario_A_existing scenario_A_generated
  /\ smart_merge_batch_params "mat"
       (smart_merge_batch_params "mat" scenario_A_existing scenario_A_generated)
       scenario_A_generated
     = smart_merge_batch_params "mat" scenario_A_existing scenario_A_generated.
Proof.
  apply (merge_twice_is_merge_once mat_thread "mat"
           scenario_A_existing scenario_A_generated).
  - unfold dict_wf. simpl. repeat constructor; simpl; intuition discriminate.
  - unfold dict_wf. simpl. repeat constructor; simpl; intuition discriminate.
  - reflexivity.
Defined.

Example merge_twice_needs_distinct_names :
  let existing := [("$detail", "custom/tex")] in
  let generated := [("$detail", "other/tex"); ("$Detail", "mat_detail")] in
  smart_merge_batch_params "mat" existing generated
  = [("$detail", "custom/tex"); ("$Detail", "mat_detail")]
  /\ smart_merge_batch_params "mat"
       (smart_merge_batch_params "mat" existing generated) generated
     = [("$detail", "other/tex"); ("$Detail", "mat_detail")].
Proof. split; reflexivity. Qed.

(** * Flattening a Patch document, block by block *)

Lemma brace_free_spec (s : string) :
  brace_free s = true ->
  has_char lbrace s = false /\ has_char rbrace s = false.
Proof.
  unfold brace_free. intros H. apply andb_true_iff in H. destruct H as [H1 H2].
  apply negb_true_iff in H1. apply negb_true_iff in H2. now split.
Qed.

Lemma strip_block_param (k v : string) :
  strip (String tab (kv_line k v))
  = String dquote (k ++ String dquote (" " ++ String dquote (v ++ chr dquote))).
Proof.
  unfold strip. change (lstrip (String tab ?s)) with (lstrip s).
  apply (strip_template_line k " " v).
Qed.

Lemma block_param_facts (k v : string) :
  startswith "$" k = true -> plain k = true -> plain v = true ->
  brace_free k = true -> brace_free v = true ->
  is_param_line (strip (String tab (kv_line k v))) = true
  /\ has_char lbrace (strip (String tab (kv_line k v))) = false
  /\ has_char rbrace (strip (String tab (kv_line k v))) = false
  /\ _parse_vmt_line (strip (String tab (kv_line k v))) = Some (k, v).
Proof.
  intros Hd Hk Hv Hbk Hbv.
  apply plain_spec in Hk. destruct Hk as [Hqk _].
  apply plain_spec in Hv. destruct Hv as [Hqv _].
  apply brace_free_spec in Hbk. destruct Hbk as [Hlk Hrk].
  apply brace_free_spec in Hbv. destruct Hbv as [Hlv Hrv].
  rewrite strip_block_param. repeat split.
  - now apply quoted_pair_is_param.
  - cbn [has_char]. rewrite has_char_app. cbn [has_char append]. rewrite has_char_app.
    cbn [has_char chr]. now rewrite Hlk, Hlv.
  - cbn [has_char]. rewrite has_char_app. cbn [has_char append]. rewrite has_char_app.
    cbn [has_char chr]. now rewrite Hrk, Hrv.
  - now apply (quoted_pair_parses k " " v EmptyString).
Qed.

Lemma scan_param_step (load : string -> dict) (st : patch_scan)
    (raw k v section : string) :
  is_param_line (strip raw) = true ->
  has_char lbrace (strip raw) = false ->
  has_char rbrace (strip raw) = false ->
  _parse_vmt_line (strip raw) = Some (k, v) ->
  ps_section st = Some section -> is_section_word section = true ->
  patch_params_line load st raw
  = {| ps_params := flatten_param section (ps_params st) (k, v);
       ps_section := Some section;
       ps_level := ps_level st |}.
Proof.
  intros Hp Hl Hr Hparse Hsec Hword.
  destruct (param_line_head _ Hp) as [rest E].
  unfold patch_params_line. rewrite E in *.
  destruct (param_line_tests rest) as (T1 & T2 & T3 & T4 & T5).
  assert (Hk := param_line_name _ _ _ Hparse).
  rewrite T1, T2. cbn [negb orb]. cbv zeta.
  rewrite (count_char_absent _ _ Hl), Z.add_0_r.
  rewrite Hr, T3. cbn [andb]. rewrite T4. cbn [andb].
  rewrite T5, Hp, Hparse, Hk, Hsec. cbn [is_some andb section_is].
  unfold flatten_param. cbn [fst snd].
  f_equal.
  destruct (truthy v); [|reflexivity].
  destruct (String.eqb section "replace"); cbn [orb]; [reflexivity|].
  destruct (dict_mem k (ps_params st)) eqn:Hm; cbn [negb]; [reflexivity|].
  now apply dict_set_new.
Qed.

Lemma scan_block_params (load : string -> dict) (section : string)
    (params : dict) (acc : dict) (level : Z) :
  is_section_word section = true ->
  serializable params = true ->
  forallb (fun kv => brace_free (fst kv) && brace_free (snd kv)) params = true ->
  fold_left (patch_params_line load)
    (map (fun kv => String tab (kv_line (fst kv) (snd kv))) params)
    {| ps_params := acc; ps_section := Some section; ps_level := level |}
  = {| ps_params := fold_left (flatten_param section) params acc;
       ps_section := Some section; ps_level := level |}.
Proof.
  intros Hword. revert acc.
  induction params as [|[k v] t IH]; intros acc Hser Hfree; [reflexivity|].
  cbn [serializable forallb fst snd] in Hser, Hfree. andb_hyps.
  cbn [map fold_left fst snd].
  destruct (block_param_facts k v) as (F1 & F2 & F3 & F4); try assumption.
  rewrite (scan_param_step load _ _ k v section F1 F2 F3 F4)
    by first [assumption | reflexivity].
  cbn [ps_params ps_level]. now apply IH.
Qed.

Lemma scan_block (load : string -> dict) (b : string * dict) (acc : dict) :
  block_ok b = true ->
  fold_left (patch_params_line load) (block_lines (fst b) (snd b))
    {| ps_params := acc; ps_section := None; ps_level := 1%Z |}
  = {| ps_params := flatten_block acc b; ps_section := None; ps_level := 1%Z |}.
Proof.
  destruct b as [section params]. unfold block_ok. cbn [fst snd]. intros H.
  andb_hyps.
  assert (Hword : is_section_word section = true) by assumption.
  unfold block_lines. rewrite !fold_left_app.
  assert (Hopen :
            fold_left (patch_params_line load) [tabs 1 ++ section; tabs 1 ++ "{"]
              {| ps_params := acc; ps_section := None; ps_level := 1%Z |}
            = {| ps_params := acc; ps_section := Some section; ps_level := 2%Z |}).
  { unfold is_section_word in Hword. apply orb_true_iff in Hword.
    destruct Hword as [Hw|Hw]; apply String.eqb_eq in Hw; subst section; reflexivity. }
  rewrite Hopen, scan_block_params by assumption.
  reflexivity.
Qed.

Lemma scan_blocks (load : string -> dict) (blocks : list (string * dict)) (acc : dict) :
  forallb block_ok blocks = true ->
  fold_left (patch_params_line load)
    (flat_map (fun b => block_lines (fst b) (snd b)) blocks)
    {| ps_params := acc; ps_section := None; ps_level := 1%Z |}
  = {| ps_params := flatten_blocks acc blocks; ps_section := None; ps_level := 1%Z |}.
Proof.
  revert acc. induction blocks as [|b t IH]; intros acc H; [reflexivity|].
  cbn [forallb] in H. apply andb_true_iff in H. destruct H as [Hb Ht].
  cbn [flat_map]. rewrite fold_left_app, scan_block by assumption.
  unfold flatten_blocks. cbn [fold_left]. now apply IH.
Qed.

Lemma strip_include_line (include_path : string) :
  strip (tabs 1 ++ "include " ++ quoted include_path)
  = "include " ++ quoted include_path.
Proof.
  unfold strip. cbn [tabs append].
  change (lstrip (String tab ?s)) with (lstrip s).
  cbn [lstrip]. change (is_space "i") with false. cbv iota.
  unfold quoted.
  replace (String "i" (String "n" (String "c" (String "l" (String "u" (String "d"
            (String "e" (String " " (String dquote (include_path ++ chr dquote))))))))))
    with (("include " ++ String dquote include_path) ++ chr dquote)
    by reflexivity.
  now apply rstrip_ends_solid.
Qed.

Lemma scan_include_line (load : string -> dict) (st : patch_scan)
    (include_path : string) :
  plain include_path = true -> brace_free include_path = true ->
  patch_params_line load st (tabs 1 ++ "include " ++ quoted include_path)
  = {| ps_params := if truthy include_path
                    then dict_update (ps_params st) (load include_path)
                    else ps_params st;
       ps_section := ps_section st;
       ps_level := ps_level st |}.
Proof.
  intros Hp Hb.
  apply plain_spec in Hp. destruct Hp as [Hq _].
  apply brace_free_spec in Hb. destruct Hb as [Hl Hr].
  unfold patch_params_line. rewrite strip_include_line.
  assert (Hlb : has_char lbrace ("include " ++ quoted include_path) = false).
  { unfold quoted. cbn [append has_char]. rewrite has_char_app.
    cbn [has_char chr]. now rewrite Hl. }
  assert (Hrb : has_char rbrace ("include " ++ quoted include_path) = false).
  { unfold quoted. cbn [append has_char]. rewrite has_char_app.
    cbn [has_char chr]. now rewrite Hr. }
  assert (Hval : _extract_quoted_value ("include " ++ quoted include_path)
                 = include_path).
  { unfold _extract_quoted_value, quoted.
    rewrite (after_char_first dquote "include " (include_path ++ chr dquote))
      by reflexivity.
    unfold chr. now rewrite before_char_first. }
  rewrite (count_char_absent _ _ Hlb), Z.add_0_r, Hrb, Hval.
  reflexivity.
Qed.

Lemma load_include_wf fs path_of path_join path_parent
    (self : L4D2BatchProcessingThread) (depth : nat)
    (include_path base_dir : string) :
  dict_wf (_load_include_file fs path_of path_join path_parent self depth
             include_path base_dir).
Proof.
  destruct depth as [|depth']; cbn [_load_include_file]; [apply dict_wf_nil|].
  destruct (fs _) as [content|]; [|apply dict_wf_nil].
  destruct (startswith "patch" (strip content)).
  - apply parse_patch_with_wf.
  - unfold parse_batch_with.
    destruct (patch_format_enabled self && patch_or_include content).
    + apply parse_patch_with_wf.
    + apply fold_standard_wf, dict_wf_nil.
Qed.

Lemma block_lines_one_line (b : string * dict) (x : string) :
  block_ok b = true -> In x (block_lines (fst b) (snd b)) ->
  has_char newline x = false.
Proof.
  destruct b as [section params]. unfold block_ok. cbn [fst snd]. intros H Hin.
  andb_hyps.
  unfold block_lines in Hin. cbn [app In] in Hin.
  destruct Hin as [<-|[<-|Hin]].
  - match goal with
    | Hw : is_section_word section = true |- _ =>
        unfold is_section_word in Hw; apply orb_true_iff in Hw;
        destruct Hw as [Hw|Hw]; apply String.eqb_eq in Hw; subst section;
        reflexivity
    end.
  - reflexivity.
  - apply in_app_or in Hin. destruct Hin as [Hin|[<-|[]]]; [|reflexivity].
    apply in_map_iff in Hin. destruct Hin as [[k v] [<- Hin]].
    cbn [fst snd has_char]. change (Ascii.eqb tab newline) with false. cbn [orb].
    apply (kv_lines_one_line params); [assumption|].
    apply in_map_iff. now exists (k, v).
Qed.

Lemma patch_document_lines (include_path : string) (blocks : list (string * dict)) :
  plain include_path = true -> forallb block_ok blocks = true ->
  split_on newline (patch_document include_path blocks)
  = (["patch"; "{"; (tabs 1 ++ "include " ++ quoted include_path)%string]
     ++ flat_map (fun b => block_lines (fst b) (snd b)) blocks ++ ["}"])%list.
Proof.
  intros Hp Hb. unfold patch_document, text_of.
  apply split_on_join_list; [discriminate|].
  intros x Hx. apply in_app_or in Hx. destruct Hx as [Hx|Hx].
  - destruct Hx as [<-|[<-|[<-|[]]]]; [reflexivity | reflexivity |].
    apply plain_spec in Hp. destruct Hp as [_ Hn].
    unfold quoted. cbn [tabs append has_char]. rewrite has_char_app.
    cbn [has_char chr]. now rewrite Hn.
  - apply in_app_or in Hx. destruct Hx as [Hx|[<-|[]]]; [|reflexivity].
    apply in_flat_map in Hx. destruct Hx as [b [Hb' Hx]].
    apply (block_lines_one_line b); [|assumption].
    rewrite forallb_forall in Hb. now apply Hb.
Qed.

Lemma patch_text_is_document (include_path : string) (insert replace : dict) :
  patch_text include_path insert replace
  = patch_document include_path [("insert", insert); ("replace", replace)].
Proof.
  unfold patch_text, patch_document, block_lines. cbn [flat_map fst snd].
  f_equal. cbn [app]. do 5 f_equal.
  rewrite <- !app_assoc. cbn [app]. f_equal. do 3 f_equal.
  rewrite <- !app_assoc. reflexivity.
Qed.

(** C10, as the claim states it, fails: a parameter of the replace
    section whose value is empty does not overwrite the earlier
    binding, be it one that the insert section made or one loaded from
    the included base file; the guard on the name and the value of the
    parameter line leaves it out. *)
Lemma replace_line_skipped :
  parse_patch_vmt_params (fun _ => None) same_path simple_join same_path
    patch_thread 1
    (patch_text "base.vmt" [("$envmap", "env_cubemap")] [("$envmap", EmptyString)])
    EmptyString
  = [("$envmap", "env_cubemap")]
  /\ parse_patch_vmt_params (one_file "base.vmt" (base_text "base/tex"))
       same_path simple_join same_path patch_thread 1
       (patch_text "base.vmt" [] [("$basetexture", EmptyString)])
       EmptyString
     = [("$basetexture", "base/tex"); ("$surfaceprop", "metal")].
Proof. vm_compute. split; reflexivity. Qed.

(** C10, amended. For a Patch document in the usual layout, the include
    line first and then insert and replace blocks in any number and
    order, every keyword and every brace on a line of its own and no
    brace inside a name or a value, [parse_patch_vmt_params] returns the
    parameters loaded from the included base file, changed block by
    block in the order of the document: a parameter of a replace
    section with a value that is not empty is bound to that value
    whatever was bound before, a binding loaded from the base file too,
    and keeps the place of the earlier binding; a parameter of an insert
    section is added only when its name is not bound yet and never
    overwrites; a parameter with an empty value binds nothing in either
    section. *)
Theorem patch_section_priority fs path_of path_join path_parent
    (self : L4D2BatchProcessingThread) (depth : nat)
    (include_path base_dir : string) (blocks : list (string * dict)) :
  plain include_path = true -> brace_free include_path = true ->
  forallb block_ok blocks = true ->
  parse_patch_vmt_params fs path_of path_join path_parent self depth
    (patch_document include_path blocks) base_dir
  = flatten_blocks
      (if truthy include_path
       then _load_include_file fs path_of path_join path_parent self depth
              include_path base_dir
       else [])
      blocks.
Proof.
  intros Hp Hb Hblocks.
  unfold parse_patch_vmt_params, parse_patch_with.
  rewrite patch_document_lines by assumption.
  rewrite fold_left_app. cbn [fold_left].
  change (patch_params_line _ patch_scan_init "patch") with patch_scan_init.
  change (patch_params_line ?l patch_scan_init "{")
    with {| ps_params := []; ps_section := None; ps_level := 1%Z |}.
  rewrite scan_include_line by assumption. cbn [ps_params ps_section ps_level].
  rewrite fold_left_app, scan_blocks by assumption.
  cbn [fold_left]. 
  set (base := if truthy include_path then _ else _).
  set (base' := if truthy include_path then _ else _).
  assert (Hbase : base = base').
  { unfold base, base'. destruct (truthy include_path); [|reflexivity].
    unfold dict_update. rewrite fold_writes_all; [reflexivity|].
    cbn [app]. apply load_include_wf. }
  rewrite Hbase. reflexivity.
Qed.

Lemma patch_section_priority_witness :
  parse_patch_vmt_params (one_file "base.vmt" (base_text "base/tex"))
    same_path simple_join same_path patch_thread 1
    (patch_document "base.vmt"
       [("replace", [("$basetexture", "x/new"); ("$envmap", EmptyString)]);
        ("insert", [("$basetexture", "x/other"); ("$surfaceprop", "flesh");
                    ("$detail", "detail/noise")]);
        ("replace", [("$detail", "detail/fine")])])
    EmptyString
  = flatten_blocks
      (if truthy "base.vmt"
       then _load_include_file (one_file "base.vmt" (base_text "base/tex"))
              same_path simple_join same_path patch_thread 1 "base.vmt" EmptyString
       else [])
      [("replace", [("$basetexture", "x/new"); ("$envmap", EmptyString)]);
       ("insert", [("$basetexture", "x/other"); ("$surfaceprop", "flesh");
                   ("$detail", "detail/noise")]);
       ("replace", [("$detail", "detail/fine")])].
Proof.
  apply (patch_section_priority (one_file "base.vmt" (base_text "base/tex"))
           same_path simple_join same_path patch_thread 1 "base.vmt" EmptyString);
    reflexivity.
Defined.

Example patch_blocks_example :
  parse_patch_vmt_params (one_file "base.vmt" (base_text "base/tex"))
    same_path simple_join same_path patch_thread 1
    (patch_document "base.vmt"
       [("replace", [("$basetexture", "x/new"); ("$envmap", EmptyString)]);
        ("insert", [("$basetexture", "x/other"); ("$surfaceprop", "flesh");
                    ("$detail", "detail/noise")]);
        ("replace", [("$detail", "detail/fine")])])
    EmptyString
  = [("$basetexture", "x/new"); ("$surfaceprop", "metal");
     ("$detail", "detail/fine")].
Proof. vm_compute. reflexivity. Qed.
